(** * gitsha: brute-force search for a commit whose SHA-1 starts with a prefix

    A shallow embedding of [ext/gitsha.c].  Bytes ([char], [unsigned char])
    are [ascii]; [size_t], [uint64_t] and [int] values are [Z] with the
    wrap-around of the 64-bit type written out; a heap block is the list of
    its bytes, updated in place by index.  The endless [while(1)] loops take a
    fuel argument that bounds the number of iterations looked at. *)

From Stdlib Require Import ZArith List Ascii String Lia.
From stdpp Require Import base list.
Import ListNotations.

Local Open Scope Z_scope.

(** ** Machine integers and bytes *)

Definition byte := ascii.

#[global] Instance byte_eq_dec : EqDecision byte := ascii_dec.

Definition byte_val (b : byte) : Z := Z.of_N (N_of_ascii b).
Definition byte_of (z : Z) : byte := ascii_of_N (Z.to_N (z mod 256)).

Definition SIZE_MAX : Z := 2 ^ 64 - 1.
Definition INT_MIN : Z := - 2 ^ 31.
Definition INT_MAX : Z := 2 ^ 31 - 1.
Definition LONG_MAX : Z := 2 ^ 63 - 1.

(** Conversion to (and arithmetic in) [size_t] / [uint64_t]. *)
Definition to_size_t (z : Z) : Z := z mod 2 ^ 64.

Definition bytes_of_string (s : string) : list byte := list_ascii_of_string s.

(** ** libc pieces used by the code *)

(** [malloc n]: a fresh block of [n] bytes whose contents are whatever the
    allocator left there ([uninit]). *)
Definition malloc (uninit : nat -> byte) (n : Z) : list byte :=
  map uninit (seq 0 (Z.to_nat n)).

(** [memcpy(dst + off, src, n)] for a destination block [dst]. *)
Definition memcpy_at (dst : list byte) (off : Z) (src : list byte) (n : Z)
  : list byte :=
  list_inserts (Z.to_nat off) (take (Z.to_nat n) src) dst.

(** [memcmp(s1, s2, n)]: the difference of the first pair of bytes that
    differ, [0] when the first [n] bytes agree; [None] when a block is
    shorter than the bytes the comparison reads. *)
Fixpoint memcmp (s1 s2 : list byte) (n : nat) {struct n} : option Z :=
  match n with
  | O => Some 0
  | S n' =>
      match s1, s2 with
      | a :: s1', b :: s2' =>
          if byte_val a =? byte_val b then memcmp s1' s2' n'
          else Some (byte_val a - byte_val b)
      | _, _ => None
      end
  end.

(** The digits [sprintf] prints for [%zu]. *)
Definition digit_char (d : Z) : byte := byte_of (48 + d).

Fixpoint decimal_digits (fuel : nat) (n : Z) (acc : list byte) : list byte :=
  match fuel with
  | O => acc
  | S fuel' =>
      let acc' := digit_char (n mod 10) :: acc in
      if n <? 10 then acc' else decimal_digits fuel' (n / 10) acc'
  end.

(** A [size_t] has at most 20 decimal digits. *)
Definition decimal (n : Z) : list byte := decimal_digits 20 n [].

(** The characters [sprintf(buff, "commit %zu", data_len)] stores, without
    the NUL that ends them. *)
Definition sprintf_commit (data_len : Z) : list byte :=
  bytes_of_string "commit " ++ decimal data_len.

Definition NUL : byte := "000"%char.
Definition LF : byte := "010"%char.

(** ** [gitsha.c] *)

Definition hex_lut : list byte := bytes_of_string "0123456789abcdef".

Definition header_len (data_len : Z) : Z :=
  Z.of_nat (length (sprintf_commit data_len)) + 1.

(** [buff[i] = hex_lut[(counter >> (i * 4)) & 0xf]] *)
Definition hex_digit_at (counter : Z) (i : nat) : byte :=
  default NUL
    (hex_lut !! Z.to_nat (Z.land (Z.shiftr counter (Z.of_nat i * 4)) 15)).

(** The [for] loop of [write_counter_hex], [n] iterations left, the next one
    for index [i]; [buff] is the whole block and [off] the offset the
    pointer argument has in it.  A store past the end of the block is
    undefined in C and changes nothing here;
    [setup_worker_nonce_in_bounds] shows it does not happen. *)
Fixpoint write_counter_hex_from (n i : nat) (buff : list byte) (off : nat)
  (counter : Z) : list byte :=
  match n with
  | O => buff
  | S n' =>
      write_counter_hex_from n' (S i)
        (<[(off + i)%nat := hex_digit_at counter i]> buff) off counter
  end.

Definition write_counter_hex (buff : list byte) (off : Z) (counter : Z)
  : list byte :=
  write_counter_hex_from 16 0 buff (Z.to_nat off) counter.

Record worker_t := mk_worker {
  scratch_buff : list byte;
  scratch_len : Z;
  counter_offset : Z;
  prefix : list byte;
  prefix_len : Z;
  prefix_half_dig : Z;
  prefix_has_half_dig : Z;
  counter : Z;
  stride : Z;
  complete : Z;
  sha : list byte
}.

(** What a search loop has done after a bounded number of iterations. *)
Inductive loop_result :=
| Matched (scratch_buff output_sha : list byte)
    (* the loop returned: the block as it stands and the bytes at [output_sha] *)
| Spinning (scratch_buff : list byte) (counter : Z)
    (* still in the loop, about to start an iteration with this counter *)
| Fault.
    (* a read outside a block: undefined behaviour *)

(** [p[i]] for a block [p] and a [size_t] index. *)
Definition read (p : list byte) (i : Z) : option byte :=
  if (0 <=? i) && (i <? Z.of_nat (length p)) then p !! Z.to_nat i else None.

Definition memcmp_n (s1 s2 : list byte) (n : Z) : option Z :=
  if (n <=? Z.of_nat (length s1)) && (n <=? Z.of_nat (length s2))
  then memcmp s1 s2 (Z.to_nat n) else None.

(** [memcpy(dst, src, n)] *)
Definition memcpy (dst src : list byte) (n : Z) : list byte :=
  take (Z.to_nat n) src ++ drop (Z.to_nat n) dst.

(** Ruby values, as far as the extension looks at them. *)
#[local] Set Warnings "-register-all".
Inductive VALUE :=
| Qnil
| Qfalse
| Qtrue
| Fixnum (n : Z)
| Bignum (n : Z)
| Symbol (name : string)
| RString (bytes : list byte)
| RArray (elts : list VALUE).

Inductive exception :=
| TypeError (msg : string)
| ArgError (msg : string)
| RangeError (msg : string).

Definition RTEST (v : VALUE) : Z :=
  match v with Qnil | Qfalse => 0 | _ => 1 end.

Definition rb_str_new (p : list byte) (len : Z) : VALUE :=
  RString (take (Z.to_nat len) p).

Section Gitsha.

(** OpenSSL's [SHA1(d, n, md)], as the function from the [n] bytes at [d]
    to the bytes it stores at [md]. *)
Variable SHA1 : list byte -> list byte.

(** What [malloc] leaves in a fresh block of bytes, and in the slots of
    the fresh [workers] array. *)
Variable uninit : nat -> byte.
Variable uninit_worker : nat -> worker_t.

(** Ruby's [FIX2INT] on the integer a fixnum holds: the [int], or the
    exception the conversion raises. *)
Variable FIX2INT : Z -> exception + Z.

Fixpoint bruteforce_loop (fuel : nat) (output_sha scratch_buff : list byte)
  (scratch_len counter_offset : Z) (prefix : list byte)
  (prefix_len counter stride : Z) : loop_result :=
  match fuel with
  | O => Spinning scratch_buff counter
  | S fuel' =>
      let scratch_buff := write_counter_hex scratch_buff counter_offset counter in
      let sha := SHA1 (take (Z.to_nat scratch_len) scratch_buff) in
      match memcmp_n sha prefix prefix_len with
      | None => Fault
      | Some c =>
          if c =? 0 then Matched scratch_buff (memcpy output_sha sha 20)
          else
            bruteforce_loop fuel' output_sha scratch_buff scratch_len
              counter_offset prefix prefix_len
              (to_size_t (counter + stride)) stride
      end
  end.

Fixpoint bruteforce_loop_with_half_dig (fuel : nat)
  (output_sha scratch_buff : list byte) (scratch_len counter_offset : Z)
  (prefix : list byte) (prefix_len counter stride half_dig : Z)
  : loop_result :=
  match fuel with
  | O => Spinning scratch_buff counter
  | S fuel' =>
      let scratch_buff := write_counter_hex scratch_buff counter_offset counter in
      let sha := SHA1 (take (Z.to_nat scratch_len) scratch_buff) in
      let next :=
        bruteforce_loop_with_half_dig fuel' output_sha scratch_buff
          scratch_len counter_offset prefix prefix_len
          (to_size_t (counter + stride)) stride half_dig in
      (* prefix_len == 0 || memcmp(sha, prefix, prefix_len) == 0 *)
      match (if prefix_len =? 0 then Some 0
             else memcmp_n sha prefix prefix_len) with
      | None => Fault
      | Some c =>
          if c =? 0 then
            (* && (sha[prefix_len] >> 4) == half_dig *)
            match read sha prefix_len with
            | None => Fault
            | Some b =>
                if Z.shiftr (byte_val b) 4 =? half_dig
                then Matched scratch_buff (memcpy output_sha sha 20)
                else next
            end
          else next
      end
  end.

(** The state of a worker whose thread has been left to run for at most
    [fuel] iterations of its loop: [complete] is set once the loop has
    returned. *)
Definition worker_thread_main (fuel : nat) (w : worker_t) : option worker_t :=
  let r :=
    if prefix_has_half_dig w =? 0 then
      bruteforce_loop fuel (sha w) (scratch_buff w) (scratch_len w)
        (counter_offset w) (prefix w) (prefix_len w) (counter w) (stride w)
    else
      bruteforce_loop_with_half_dig fuel (sha w) (scratch_buff w)
        (scratch_len w) (counter_offset w) (prefix w) (prefix_len w)
        (counter w) (stride w) (prefix_half_dig w) in
  match r with
  | Matched buff out =>
      Some {| scratch_buff := buff; scratch_len := scratch_len w;
              counter_offset := counter_offset w; prefix := prefix w;
              prefix_len := prefix_len w;
              prefix_half_dig := prefix_half_dig w;
              prefix_has_half_dig := prefix_has_half_dig w;
              counter := counter w; stride := stride w;
              complete := 1; sha := out |}
  | Spinning buff _ =>
      Some {| scratch_buff := buff; scratch_len := scratch_len w;
              counter_offset := counter_offset w; prefix := prefix w;
              prefix_len := prefix_len w;
              prefix_half_dig := prefix_half_dig w;
              prefix_has_half_dig := prefix_has_half_dig w;
              counter := counter w; stride := stride w;
              complete := complete w; sha := sha w |}
  | Fault => None
  end.

(** The block [setup_worker] builds and the offsets it stores. *)
Definition setup_worker (w : worker_t) (commit_data : list byte)
  (commit_data_len : Z) (prefix : list byte) (prefix_len : Z)
  (prefix_has_half_dig : Z) (i ncpus : Z) : option worker_t :=
  let data_length := to_size_t (commit_data_len + 2 + 16) in
  let header_length := header_len data_length in
  let total_length := to_size_t (header_length + data_length) in
  let prefix_copy := malloc uninit prefix_len in
  let scratch_buff := malloc uninit (to_size_t (total_length + 1)) in
  let prefix_copy := memcpy_at prefix_copy 0 prefix prefix_len in
  let scratch_buff :=
    list_inserts 0 (sprintf_commit data_length ++ [NUL]) scratch_buff in
  let scratch_buff :=
    memcpy_at scratch_buff header_length commit_data commit_data_len in
  let scratch_buff :=
    <[Z.to_nat (to_size_t (header_length + commit_data_len)) := LF]>
      scratch_buff in
  let scratch_buff :=
    <[Z.to_nat (to_size_t (header_length + commit_data_len + 1)) := LF]>
      scratch_buff in
  let finish (plen half has : Z) :=
    {| scratch_buff := scratch_buff; scratch_len := total_length;
       counter_offset := to_size_t (header_length + commit_data_len + 2);
       prefix := prefix_copy; prefix_len := plen;
       prefix_half_dig := half; prefix_has_half_dig := has;
       counter := to_size_t i; stride := ncpus;
       complete := complete w; sha := sha w |} in
  if prefix_has_half_dig =? 0 then
    Some (finish prefix_len (prefix_half_dig w) 0)
  else
    match read prefix (to_size_t (prefix_len - 1)) with
    | None => None
    | Some b =>
        Some (finish (to_size_t (prefix_len - 1)) (Z.shiftr (byte_val b) 4) 1)
    end.

Definition clear_complete (w : worker_t) : worker_t :=
  {| scratch_buff := scratch_buff w; scratch_len := scratch_len w;
     counter_offset := counter_offset w; prefix := prefix w;
     prefix_len := prefix_len w; prefix_half_dig := prefix_half_dig w;
     prefix_has_half_dig := prefix_has_half_dig w;
     counter := counter w; stride := stride w;
     complete := 0; sha := sha w |}.

(** [for(i = 0; i < ncpus; i++) { setup_worker(&workers[i], ...);
    workers[i].complete = 0; ... }], [n] iterations left. *)
Fixpoint setup_workers (n : nat) (i : Z) (commit_data : list byte)
  (commit_data_len : Z) (prefix : list byte) (prefix_len has_half_dig : Z)
  (ncpus : Z) : option (list worker_t) :=
  match n with
  | O => Some []
  | S n' =>
      w ← setup_worker (uninit_worker (Z.to_nat i)) commit_data
            commit_data_len prefix prefix_len has_half_dig i ncpus;
      ws ← setup_workers n' (i + 1) commit_data commit_data_len prefix
             prefix_len has_half_dig ncpus;
      Some (clear_complete w :: ws)
  end.

(** The worker array at the time the coordinator scans it: thread [i] has
    then run for at most [sched i] iterations. *)
Fixpoint run_threads (sched : nat -> nat) (i : nat) (workers : list worker_t)
  : option (list worker_t) :=
  match workers with
  | [] => Some []
  | w :: ws =>
      w' ← worker_thread_main (sched i) w;
      ws' ← run_threads sched (S i) ws;
      Some (w' :: ws')
  end.

(** [for(i = 0; i < ncpus; i++) { if(workers[i].complete) { ret = ...;
    break; } }] with [ret] starting as [Qnil]. *)
Fixpoint scan_workers (workers : list worker_t) : VALUE :=
  match workers with
  | [] => Qnil
  | w :: ws =>
      if complete w =? 0 then scan_workers ws
      else RArray [rb_str_new (scratch_buff w) (scratch_len w);
                   rb_str_new (sha w) 20]
  end.

Definition start_bruteforce (sched : nat -> nat) (commit_data : list byte)
  (commit_data_len : Z) (prefix : list byte) (prefix_len has_half_dig : Z)
  (ncpus : Z) : option VALUE :=
  workers ← setup_workers (Z.to_nat ncpus) 0 commit_data commit_data_len
              prefix prefix_len has_half_dig ncpus;
  workers ← run_threads sched 0 workers;
  Some (scan_workers workers).

(** [rb_raise] does not return: the first failed check decides. *)
Definition bruteforce (sched : nat -> nat)
  (commit_data sha_prefix sha_prefix_half_hex_dig ncpus : VALUE)
  : exception + option VALUE :=
  match commit_data, sha_prefix with
  | RString data, RString pre =>
      match ncpus with
      | Fixnum n =>
          match FIX2INT n with
          | inl e => inl e
          | inr k =>
              if k <=? 0 then inl (TypeError "expected ncpus to be > 0")
              else if Z.of_nat (length pre) >? 20 then
                inl (ArgError "expected sha_prefix to be at most 20 bytes long")
              else
                inr (start_bruteforce sched data (Z.of_nat (length data))
                       pre (Z.of_nat (length pre))
                       (RTEST sha_prefix_half_hex_dig) k)
          end
      | _ => inl (TypeError "expected ncpus to be a fixnum")
      end
  | _, _ => inl (TypeError "expected commit_data, sha_prefix to be strings")
  end.

End Gitsha.

(** ** SHA-1 (FIPS 180-4), the function OpenSSL's [SHA1] computes

    It instantiates the [SHA1] parameter wherever the development runs the
    search on concrete inputs. *)
Module Sha1.

Definition w32 (x : Z) : Z := x mod 2 ^ 32.

Definition rotl (n x : Z) : Z :=
  w32 (Z.lor (Z.shiftl x n) (Z.shiftr x (32 - n))).

(** The message followed by the bit 1, zeros, and its length in bits as a
    64-bit big-endian integer, a multiple of 64 bytes in all. *)
Definition be_bytes (n : nat) (x : Z) : list Z :=
  map (fun i => Z.shiftr x (8 * Z.of_nat i) mod 256) (rev (seq 0 n)).

Definition pad (msg : list Z) : list Z :=
  let len := Z.of_nat (length msg) in
  let zeros := Z.to_nat ((55 - len) mod 64) in
  msg ++ [128] ++ replicate zeros 0 ++ be_bytes 8 (8 * len).

Definition be_word (bs : list Z) : Z :=
  fold_left (fun acc b => acc * 256 + b) bs 0.

(** The sixteen 32-bit words of each 64-byte block. *)
Fixpoint words (n : nat) (bs : list Z) : list Z :=
  match n with
  | O => []
  | S n' => be_word (take 4 bs) :: words n' (drop 4 bs)
  end.

(** The message schedule, most recent word first. *)
Fixpoint schedule (n : nat) (rev_ws : list Z) : list Z :=
  match n with
  | O => rev_ws
  | S n' =>
      let w i := nth i rev_ws 0 in
      schedule n'
        (rotl 1 (Z.lxor (Z.lxor (w 2%nat) (w 7%nat))
                   (Z.lxor (w 13%nat) (w 15%nat))) :: rev_ws)
  end.

Definition f (t b c d : Z) : Z :=
  if t <? 20 then Z.lor (Z.land b c) (Z.land (Z.lxor b (2 ^ 32 - 1)) d)
  else if t <? 40 then Z.lxor (Z.lxor b c) d
  else if t <? 60 then
    Z.lor (Z.lor (Z.land b c) (Z.land b d)) (Z.land c d)
  else Z.lxor (Z.lxor b c) d.

Definition K (t : Z) : Z :=
  if t <? 20 then 0x5a827999
  else if t <? 40 then 0x6ed9eba1
  else if t <? 60 then 0x8f1bbcdc
  else 0xca62c1d6.

Definition state : Type := Z * Z * Z * Z * Z.

Fixpoint rounds (t : Z) (ws : list Z) (s : state) : state :=
  match ws with
  | [] => s
  | w :: ws' =>
      let '(a, b, c, d, e) := s in
      let tmp := w32 (rotl 5 a + f t b c d + e + K t + w) in
      rounds (t + 1) ws' (tmp, a, rotl 30 b, c, d)
  end.

Definition block (s : state) (bs : list Z) : state :=
  let '(h0, h1, h2, h3, h4) := s in
  let '(a, b, c, d, e) :=
    rounds 0 (rev (schedule 64 (rev (words 16 bs)))) s in
  (w32 (h0 + a), w32 (h1 + b), w32 (h2 + c), w32 (h3 + d), w32 (h4 + e)).

Fixpoint blocks (n : nat) (s : state) (bs : list Z) : state :=
  match n with
  | O => s
  | S n' => blocks n' (block s (take 64 bs)) (drop 64 bs)
  end.

Definition init : state :=
  (0x67452301, 0xefcdab89, 0x98badcfe, 0x10325476, 0xc3d2e1f0).

Definition word_bytes (x : Z) : list byte :=
  [byte_of (Z.shiftr x 24); byte_of (Z.shiftr x 16);
   byte_of (Z.shiftr x 8); byte_of x].

Definition digest (s : state) : list byte :=
  let '(h0, h1, h2, h3, h4) := s in
  word_bytes h0 ++ word_bytes h1 ++ word_bytes h2 ++ word_bytes h3
    ++ word_bytes h4.

Definition sha1 (msg : list byte) : list byte :=
  let padded := pad (map byte_val msg) in
  digest (blocks (length padded / 64) init padded).

(** A digest in the usual hexadecimal notation. *)
Definition hex (bs : list byte) : string :=
  string_of_list_ascii
    (flat_map (fun b => [default NUL (hex_lut !! Z.to_nat (byte_val b / 16));
                         default NUL (hex_lut !! Z.to_nat (byte_val b mod 16))])
       bs).

End Sha1.

(** ** Definitions used to state and check the properties *)

(** Reading the digits back gives the number: [decimal] prints every
    [size_t] in full. *)
Definition decimal_value (ds : list byte) : Z :=
  fold_left (fun acc d => 10 * acc + (byte_val d - 48)) ds 0.

(** The ASCII hexadecimal digit of a 4-bit value, by character code. *)
Definition hex_char (d : Z) : byte :=
  byte_of (if d <? 10 then 48 + d else 87 + d).

(** The 16 characters of a nonce: the nibbles of the counter, least
    significant first. *)
Definition nonce_hex (counter : Z) : list byte :=
  map (fun i => hex_char (Z.land (Z.shiftr counter (4 * Z.of_nat i)) 15))
    (seq 0 16).

(** The counter a worker tests in iteration [k] (from 0) of its loop, for the
    counter and stride the loop was entered with. *)
Fixpoint counter_at (stride counter : Z) (k : nat) : Z :=
  match k with
  | O => counter
  | S k' => counter_at stride (to_size_t (counter + stride)) k'
  end.

(** A block agrees with another one outside the 16 bytes at [off]. *)
Definition same_outside_nonce (off : nat) (b b' : list byte) : Prop :=
  length b' = length b /\
  forall j : nat, (j < off \/ off + 16 <= j)%nat -> b' !! j = b !! j.

(** The header as stored: the characters of [sprintf] and the NUL. *)
Definition header (data_len : Z) : list byte := sprintf_commit data_len ++ [NUL].

(** The test [bruteforce_loop] makes on a digest,
    [memcmp(sha, prefix, prefix_len) == 0]; [None] when it reads outside a
    block. *)
Definition test_prefix (prefix : list byte) (prefix_len : Z) (sha : list byte)
  : option bool :=
  c ← memcmp_n sha prefix prefix_len; Some (c =? 0).

(** The test [bruteforce_loop_with_half_dig] makes on a digest. *)
Definition test_prefix_half_dig (prefix : list byte) (prefix_len half_dig : Z)
  (sha : list byte) : option bool :=
  c ← (if prefix_len =? 0 then Some 0 else memcmp_n sha prefix prefix_len);
  if c =? 0 then
    b ← read sha prefix_len; Some (Z.shiftr (byte_val b) 4 =? half_dig)
  else Some false.

(** The loop the two search loops have in common, around either test. *)
Fixpoint search_loop (SHA1 : list byte -> list byte)
  (test : list byte -> option bool) (fuel : nat)
  (output_sha scratch_buff : list byte) (scratch_len counter_offset : Z)
  (counter stride : Z) : loop_result :=
  match fuel with
  | O => Spinning scratch_buff counter
  | S fuel' =>
      let scratch_buff := write_counter_hex scratch_buff counter_offset counter in
      let sha := SHA1 (take (Z.to_nat scratch_len) scratch_buff) in
      match test sha with
      | None => Fault
      | Some true => Matched scratch_buff (memcpy output_sha sha 20)
      | Some false =>
          search_loop SHA1 test fuel' output_sha scratch_buff scratch_len
            counter_offset (to_size_t (counter + stride)) stride
      end
  end.

(** The worker's test, chosen as [worker_thread_main] chooses its loop. *)
Definition worker_test (w : worker_t) : list byte -> option bool :=
  if prefix_has_half_dig w =? 0 then test_prefix (prefix w) (prefix_len w)
  else test_prefix_half_dig (prefix w) (prefix_len w) (prefix_half_dig w).

(** [TYPE(v)], the type tag of a Ruby value. *)
Inductive ruby_type :=
| T_NIL | T_FALSE | T_TRUE | T_FIXNUM | T_BIGNUM | T_SYMBOL | T_STRING | T_ARRAY.

Definition TYPE (v : VALUE) : ruby_type :=
  match v with
  | Qnil => T_NIL
  | Qfalse => T_FALSE
  | Qtrue => T_TRUE
  | Fixnum _ => T_FIXNUM
  | Bignum _ => T_BIGNUM
  | Symbol _ => T_SYMBOL
  | RString _ => T_STRING
  | RArray _ => T_ARRAY
  end.

(** [FIX2INT] where [int] is narrower than [long] (Ruby's [rb_fix2int]):
    a fixnum outside the range of [int] raises [RangeError]. *)
Definition rb_fix2int (n : Z) : exception + Z :=
  if (INT_MIN <=? n) && (n <=? INT_MAX) then inr n
  else inl (RangeError "integer too big to convert to int").

(** A plain C conversion of the [long] to [int], for comparison. *)
Definition long_to_int (n : Z) : exception + Z :=
  inr ((n + 2 ^ 31) mod 2 ^ 32 - 2 ^ 31).

(** Concrete surroundings for running the search: blocks come back from
    [malloc] filled with ['x'], the slots of the worker array zeroed. *)
Definition stale_bytes : nat -> byte := fun _ => "x"%char.

Definition stale_worker : nat -> worker_t :=
  fun _ => mk_worker [] 0 0 [] 0 0 0 0 0 0 (replicate 20 NUL).

(** A small commit to run the search on. *)
Definition sample_commit : list byte := bytes_of_string "tree abc" ++ [LF].

(** Three workers at scan time: worker 0 still running, workers 1 and 2
    both complete; worker 2 matched with the smaller counter (2, against
    7), and worker 1 is returned. *)
Definition scanned_worker (nonce done : Z) : worker_t :=
  mk_worker (bytes_of_string "commit 26" ++ [NUL] ++ bytes_of_string "tree ..."
               ++ [LF; LF] ++ nonce_hex nonce ++ [NUL])
    36 20 [] 0 0 0 nonce 3 done (replicate 20 (byte_of nonce)).

(** The value of a lower-case hexadecimal digit, and of a nonce read back
    with its least significant digit first. *)
Definition hex_val (b : byte) : Z :=
  if byte_val b <? 58 then byte_val b - 48 else byte_val b - 87.

Fixpoint nonce_value (cs : list byte) : Z :=
  match cs with
  | [] => 0
  | c :: cs' => hex_val c + 16 * nonce_value cs'
  end.

(** The bytes a worker hashes when its block holds the nonce of
    [counter]. *)
Definition hashed (w : worker_t) (counter : Z) : list byte :=
  take (Z.to_nat (scratch_len w))
    (write_counter_hex (scratch_buff w) (counter_offset w) counter).

(** The digest a loop entered with [buff] and [counter] computes in its
    iteration [k] (from 0). *)
Definition digest_at (SHA1 : list byte -> list byte) (buff : list byte)
  (len off step counter : Z) (k : nat) : list byte :=
  SHA1 (take (Z.to_nat len)
          (write_counter_hex buff off (counter_at step counter k))).

(** A digest has the first [n] bytes of the prefix and then the half
    digit. *)
Definition has_half_prefix (pfx : list byte) (n : nat) (half : Z)
  (sha : list byte) : Prop :=
  take n sha = take n pfx
  /\ exists b : byte, sha !! n = Some b /\ Z.shiftr (byte_val b) 4 = half.

(** Two workers that no search can tell apart: they hash the same bytes
    for every counter, accept the same digests, count alike, and where they
    are complete they hold the same result. *)
Definition worker_sim (SHA1 : list byte -> list byte) (w1 w2 : worker_t)
  : Prop :=
  scratch_len w1 = scratch_len w2
  /\ counter_offset w1 = counter_offset w2
  /\ counter w1 = counter w2
  /\ stride w1 = stride w2
  /\ complete w1 = complete w2
  /\ (forall c, hashed w1 c = hashed w2 c)
  /\ (forall msg, worker_test w1 (SHA1 msg) = worker_test w2 (SHA1 msg))
  /\ (complete w1 <> 0 ->
      take (Z.to_nat (scratch_len w1)) (scratch_buff w1)
      = take (Z.to_nat (scratch_len w2)) (scratch_buff w2)
      /\ take 20 (sha w1) = take 20 (sha w2)).

(** * Properties *)

(** ** Decimal digits and SHA-1 test vectors *)

Example decimal_27 : decimal 27 = bytes_of_string "27".
Proof. reflexivity. Qed.

Example decimal_0 : decimal 0 = bytes_of_string "0".
Proof. reflexivity. Qed.

Example decimal_size_max :
  decimal (2 ^ 64 - 1) = bytes_of_string "18446744073709551615".
Proof. reflexivity. Qed.

Lemma byte_val_byte_of (z : Z) : byte_val (byte_of z) = z mod 256.
Proof.
  unfold byte_val, byte_of.
  pose proof (Z.mod_pos_bound z 256 ltac:(lia)) as Hz.
  rewrite N_ascii_embedding by lia. apply Z2N.id. lia.
Qed.

Lemma decimal_digits_value (fuel : nat) (n : Z) (acc : list byte) :
  0 <= n < 10 ^ Z.of_nat fuel ->
  fold_left (fun a d => 10 * a + (byte_val d - 48))
    (decimal_digits fuel n acc) 0
  = fold_left (fun a d => 10 * a + (byte_val d - 48)) acc n.
Proof.
  revert n acc. induction fuel as [| fuel IH]; intros n acc Hn.
  - simpl in *. replace n with 0 by lia. reflexivity.
  - assert (Hdigit : byte_val (digit_char (n mod 10)) - 48 = n mod 10).
    { unfold digit_char. rewrite byte_val_byte_of.
      pose proof (Z.mod_pos_bound n 10 ltac:(lia)) as Hm.
      rewrite Z.mod_small by lia. lia. }
    cbn [decimal_digits]. destruct (n <? 10) eqn:E.
    + apply Z.ltb_lt in E. cbn [fold_left]. rewrite Hdigit.
      rewrite Z.mod_small by lia. reflexivity.
    + apply Z.ltb_ge in E. rewrite IH.
      * cbn [fold_left]. rewrite Hdigit. f_equal.
        pose proof (Z.div_mod n 10 ltac:(lia)). lia.
      * rewrite Nat2Z.inj_succ, Z.pow_succ_r in Hn by lia.
        split; [apply Z.div_pos; lia |].
        apply Z.div_lt_upper_bound; lia.
Qed.

Lemma decimal_value_decimal (n : Z) :
  0 <= n < 2 ^ 64 -> decimal_value (decimal n) = n.
Proof.
  intros Hn. unfold decimal_value, decimal.
  rewrite decimal_digits_value by (change (10 ^ Z.of_nat 20) with (10 ^ 20); lia).
  reflexivity.
Qed.

Example sha1_empty :
  Sha1.hex (Sha1.sha1 []) = "da39a3ee5e6b4b0d3255bfef95601890afd80709"%string.
Proof. vm_compute. reflexivity. Qed.

Example sha1_abc :
  Sha1.hex (Sha1.sha1 (bytes_of_string "abc"))
  = "a9993e364706816aba3e25717850c26c9cd0d89d"%string.
Proof. vm_compute. reflexivity. Qed.

Example sha1_two_blocks :
  Sha1.hex (Sha1.sha1 (bytes_of_string
     "abcdbcdecdefdefgefghfghighijhijkijkljklmklmnlmnomnopnopq"))
  = "84983e441c3bd26ebaae4aa1f95129e5e54670f1"%string.
Proof. vm_compute. reflexivity. Qed.

(** ** The nonce encoder *)

Lemma hex_digit_at_spec (counter : Z) (i : nat) :
  hex_digit_at counter i
  = hex_char (Z.land (Z.shiftr counter (4 * Z.of_nat i)) 15).
Proof.
  unfold hex_digit_at. rewrite (Z.mul_comm (Z.of_nat i) 4).
  set (d := Z.land (Z.shiftr counter (4 * Z.of_nat i)) 15).
  assert (Hd : 0 <= d < 16).
  { subst d. change 15 with (Z.ones 4). rewrite Z.land_ones by lia.
    apply Z.mod_pos_bound. lia. }
  assert (Hcases : d = 0 \/ d = 1 \/ d = 2 \/ d = 3 \/ d = 4 \/ d = 5 \/ d = 6
                   \/ d = 7 \/ d = 8 \/ d = 9 \/ d = 10 \/ d = 11 \/ d = 12
                   \/ d = 13 \/ d = 14 \/ d = 15) by lia.
  clearbody d.
  repeat (destruct Hcases as [-> | Hcases]; [reflexivity |]).
  subst d. reflexivity.
Qed.

Lemma length_write_counter_hex_from (n i : nat) (buff : list byte) (off : nat)
  (counter : Z) :
  length (write_counter_hex_from n i buff off counter) = length buff.
Proof.
  revert i buff. induction n as [| n IH]; intros i buff; simpl.
  - reflexivity.
  - rewrite IH. apply length_insert.
Qed.

Lemma lookup_write_counter_hex_from (n i : nat) (buff : list byte) (off : nat)
  (counter : Z) (j : nat) :
  write_counter_hex_from n i buff off counter !! j
  = if decide ((off + i <= j < off + i + n)%nat /\ (j < length buff)%nat)
    then Some (hex_digit_at counter (j - off))
    else buff !! j.
Proof.
  revert i buff. induction n as [| n IH]; intros i buff; simpl.
  - destruct (decide _) as [[? ?] |]; [lia | reflexivity].
  - rewrite IH, length_insert.
    destruct (decide ((off + S i <= j < off + S i + n)%nat /\ _)) as [[H1 H2] | H].
    + destruct (decide _) as [_ | H']; [reflexivity | lia].
    + destruct (decide (j = off + i)%nat) as [-> | Hne].
      * destruct (decide _) as [[_ H2] | H'].
        -- rewrite list_lookup_insert_eq by exact H2.
           f_equal. f_equal. lia.
        -- rewrite list_insert_ge by lia. reflexivity.
      * rewrite list_lookup_insert_ne by lia.
        destruct (decide _) as [[H1 H2] | H']; [lia | reflexivity].
Qed.

Lemma lookup_write_counter_hex (buff : list byte) (off : nat) (counter : Z)
  (j : nat) :
  write_counter_hex buff (Z.of_nat off) counter !! j
  = if decide ((off <= j < off + 16)%nat /\ (j < length buff)%nat)
    then Some (hex_digit_at counter (j - off))
    else buff !! j.
Proof.
  unfold write_counter_hex. rewrite Nat2Z.id, lookup_write_counter_hex_from.
  destruct (decide _) as [[H1 H2] | H]; destruct (decide _) as [[H3 H4] | H'];
    try reflexivity; lia.
Qed.

Lemma length_write_counter_hex (buff : list byte) (off counter : Z) :
  length (write_counter_hex buff off counter) = length buff.
Proof. apply length_write_counter_hex_from. Qed.

Lemma write_counter_hex_outside (buff : list byte) (off counter : Z) :
  same_outside_nonce (Z.to_nat off) buff (write_counter_hex buff off counter).
Proof.
  split; [apply length_write_counter_hex |].
  intros j Hj. unfold write_counter_hex.
  rewrite lookup_write_counter_hex_from.
  destruct (decide _) as [[H1 H2] | H]; [lia | reflexivity].
Qed.

(** Writing a second counter overwrites the first. *)
Lemma write_counter_hex_twice (buff : list byte) (off c1 c2 : Z) :
  write_counter_hex (write_counter_hex buff off c1) off c2
  = write_counter_hex buff off c2.
Proof.
  apply list_eq. intros j. unfold write_counter_hex.
  rewrite !lookup_write_counter_hex_from, length_write_counter_hex_from.
  destruct (decide _) as [H | H]; reflexivity.
Qed.

Lemma write_counter_hex_in_bounds (buff : list byte) (off : nat) (counter : Z) :
  (off + 16 <= length buff)%nat ->
  write_counter_hex buff (Z.of_nat off) counter
  = take off buff ++ nonce_hex counter ++ drop (off + 16) buff.
Proof.
  intros Hlen. apply list_eq. intros j.
  rewrite lookup_write_counter_hex.
  assert (Hn : length (nonce_hex counter) = 16%nat) by reflexivity.
  destruct (decide _) as [[H1 H2] | H].
  - rewrite lookup_app_r by (rewrite length_take; lia).
    rewrite length_take, Nat.min_l by lia.
    rewrite lookup_app_l by lia.
    unfold nonce_hex. rewrite list_lookup_fmap.
    rewrite lookup_seq_lt by lia. simpl.
    rewrite hex_digit_at_spec. reflexivity.
  - destruct (decide (j < off)%nat) as [Hlt | Hge].
    + rewrite lookup_app_l by (rewrite length_take; lia).
      rewrite lookup_take_lt by lia. reflexivity.
    + rewrite lookup_app_r by (rewrite length_take; lia).
      rewrite length_take, Nat.min_l by lia.
      assert (Hj : (off + 16 <= j)%nat) by lia.
      rewrite lookup_app_r by lia.
      rewrite lookup_drop, Hn. f_equal. lia.
Qed.

(** C4: [write_counter_hex] stores exactly 16 characters at the destination;
    the one at position [i] is the ASCII hexadecimal digit of
    [(counter >> (4*i)) & 0xF], least significant nibble first, and nothing
    else of the block changes; the counter [0x1] is written as
    ["1000000000000000"]. *)
Theorem write_counter_hex_spec (buff : list byte) (off : nat) (counter : Z) :
  (off + 16 <= length buff)%nat ->
  write_counter_hex buff (Z.of_nat off) counter
  = take off buff
      ++ map (fun i => hex_char (Z.land (Z.shiftr counter (4 * Z.of_nat i)) 15))
           (seq 0 16)
      ++ drop (off + 16) buff
  /\ (forall i : nat, (i < 16)%nat ->
      write_counter_hex buff (Z.of_nat off) counter !! (off + i)%nat
      = hex_lut !! Z.to_nat (Z.land (Z.shiftr counter (4 * Z.of_nat i)) 15))
  /\ write_counter_hex (replicate 16 NUL) 0 1
     = bytes_of_string "1000000000000000".
Proof.
  intros Hlen. split; [| split].
  - apply write_counter_hex_in_bounds. exact Hlen.
  - intros i Hi. rewrite lookup_write_counter_hex.
    destruct (decide _) as [_ | H]; [| lia].
    replace (off + i - off)%nat with i by lia.
    unfold hex_digit_at. rewrite (Z.mul_comm (Z.of_nat i) 4).
    set (d := Z.land (Z.shiftr counter (4 * Z.of_nat i)) 15).
    assert (Hd : 0 <= d < 16).
    { subst d. change 15 with (Z.ones 4). rewrite Z.land_ones by lia.
      apply Z.mod_pos_bound. lia. }
    destruct (hex_lut !! Z.to_nat d) eqn:E; [reflexivity |].
    apply lookup_ge_None in E. change (length hex_lut) with 16%nat in E. lia.
  - reflexivity.
Qed.

Lemma write_counter_hex_spec_witness :
  (2 + 16 <= length (bytes_of_string "ab................yz"))%nat
  /\ write_counter_hex (bytes_of_string "ab................yz")
       (Z.of_nat 2) 0xfedcba9876543210
     = bytes_of_string "ab0123456789abcdefyz".
Proof.
  split; [simpl; lia |].
  destruct (write_counter_hex_spec (bytes_of_string "ab................yz")
              2 0xfedcba9876543210) as [H _]; [simpl; lia |].
  rewrite H. reflexivity.
Defined.

(** ** Counters *)

Lemma counter_at_closed (stride counter : Z) (k : nat) :
  0 <= counter < 2 ^ 64 ->
  counter_at stride counter k = to_size_t (counter + Z.of_nat k * stride).
Proof.
  revert counter. induction k as [| k IH]; intros counter Hc.
  - simpl. unfold to_size_t. rewrite Z.add_0_r, Z.mod_small; lia.
  - change (counter_at stride counter (S k))
      with (counter_at stride (to_size_t (counter + stride)) k).
    rewrite IH by (unfold to_size_t; apply Z.mod_pos_bound; lia).
    unfold to_size_t. rewrite Zplus_mod_idemp_l. f_equal. lia.
Qed.

Lemma counter_at_no_wrap (stride counter : Z) (k : nat) :
  0 <= counter -> 0 <= stride ->
  counter + Z.of_nat k * stride < 2 ^ 64 ->
  counter_at stride counter k = counter + Z.of_nat k * stride.
Proof.
  intros Hc Hs Hlt. rewrite counter_at_closed by nia.
  unfold to_size_t. apply Z.mod_small. nia.
Qed.

(** ** The search loops

    Both loops are [search_loop] around their own test of the digest, so
    what is proved of [search_loop] holds of the two. *)

Section Loops.

Variable SHA1 : list byte -> list byte.

Lemma bruteforce_loop_search_loop fuel output_sha scratch_buff scratch_len
  counter_offset prefix prefix_len counter stride :
  bruteforce_loop SHA1 fuel output_sha scratch_buff scratch_len
    counter_offset prefix prefix_len counter stride
  = search_loop SHA1 (test_prefix prefix prefix_len) fuel output_sha
      scratch_buff scratch_len counter_offset counter stride.
Proof.
  revert scratch_buff counter.
  induction fuel as [| fuel IH]; intros scratch_buff counter; simpl.
  - reflexivity.
  - unfold test_prefix at 1.
    destruct (memcmp_n _ prefix prefix_len) as [c |]; simpl; [| reflexivity].
    destruct (c =? 0); [reflexivity | apply IH].
Qed.

Lemma bruteforce_loop_with_half_dig_search_loop fuel output_sha scratch_buff
  scratch_len counter_offset prefix prefix_len counter stride half_dig :
  bruteforce_loop_with_half_dig SHA1 fuel output_sha scratch_buff scratch_len
    counter_offset prefix prefix_len counter stride half_dig
  = search_loop SHA1 (test_prefix_half_dig prefix prefix_len half_dig) fuel
      output_sha scratch_buff scratch_len counter_offset counter stride.
Proof.
  revert scratch_buff counter.
  induction fuel as [| fuel IH]; intros scratch_buff counter; simpl.
  - reflexivity.
  - unfold test_prefix_half_dig at 1.
    destruct (if prefix_len =? 0 then Some 0 else memcmp_n _ prefix prefix_len)
      as [c |]; simpl; [| reflexivity].
    destruct (c =? 0); [| apply IH].
    destruct (read _ prefix_len) as [b |]; simpl; [| reflexivity].
    destruct (Z.shiftr (byte_val b) 4 =? half_dig); [reflexivity | apply IH].
Qed.

(** What the loop has done when it is observed: on a match the block holds
    the nonce of the counter of some iteration [k] and the digest is that
    of the block; otherwise the block holds the nonce of the last counter
    tested. *)
Lemma search_loop_inv test fuel output_sha scratch_buff scratch_len
  counter_offset counter stride :
  match search_loop SHA1 test fuel output_sha scratch_buff scratch_len
          counter_offset counter stride with
  | Matched b out =>
      exists k : nat,
        (k < fuel)%nat
        /\ b = write_counter_hex scratch_buff counter_offset
                 (counter_at stride counter k)
        /\ test (SHA1 (take (Z.to_nat scratch_len) b)) = Some true
        /\ out = memcpy output_sha (SHA1 (take (Z.to_nat scratch_len) b)) 20
  | Spinning b c =>
      c = counter_at stride counter fuel
      /\ b = match fuel with
             | O => scratch_buff
             | S k => write_counter_hex scratch_buff counter_offset
                        (counter_at stride counter k)
             end
  | Fault => True
  end.
Proof.
  revert scratch_buff counter.
  induction fuel as [| fuel IH]; intros scratch_buff counter.
  - simpl. split; reflexivity.
  - simpl.
    destruct (test _) as [[|] |] eqn:Htest; [| | exact I].
    + exists 0%nat. simpl. repeat split; [lia | exact Htest].
    + specialize (IH (write_counter_hex scratch_buff counter_offset counter)
                    (to_size_t (counter + stride))).
      destruct (search_loop _ _ _ _ _ _ _ _ _) as [b out | b c |]; [| | exact I].
      * destruct IH as (k & Hk & Hb & Ht & Hout).
        exists (S k). rewrite write_counter_hex_twice in Hb.
        repeat split; [lia | exact Hb | exact Ht | exact Hout].
      * destruct IH as [Hc Hb]. split; [exact Hc |].
        destruct fuel as [| k]; [exact Hb |].
        rewrite write_counter_hex_twice in Hb. exact Hb.
Qed.

Lemma worker_thread_main_search_loop fuel w :
  worker_thread_main SHA1 fuel w
  = match search_loop SHA1 (worker_test w) fuel (sha w) (scratch_buff w)
            (scratch_len w) (counter_offset w) (counter w) (stride w) with
    | Matched buff out =>
        Some (mk_worker buff (scratch_len w) (counter_offset w) (prefix w)
                (prefix_len w) (prefix_half_dig w) (prefix_has_half_dig w)
                (counter w) (stride w) 1 out)
    | Spinning buff _ =>
        Some (mk_worker buff (scratch_len w) (counter_offset w) (prefix w)
                (prefix_len w) (prefix_half_dig w) (prefix_has_half_dig w)
                (counter w) (stride w) (complete w) (sha w))
    | Fault => None
    end.
Proof.
  unfold worker_thread_main, worker_test.
  rewrite bruteforce_loop_search_loop,
    bruteforce_loop_with_half_dig_search_loop.
  destruct (prefix_has_half_dig w =? 0); reflexivity.
Qed.

(** A worker found complete whose flag was clear when its thread started:
    its loop returned. *)
Lemma worker_thread_main_complete fuel w w' :
  worker_thread_main SHA1 fuel w = Some w' ->
  complete w = 0 -> complete w' <> 0 ->
  exists k : nat,
    (k < fuel)%nat
    /\ scratch_buff w'
       = write_counter_hex (scratch_buff w) (counter_offset w)
           (counter_at (stride w) (counter w) k)
    /\ worker_test w (SHA1 (take (Z.to_nat (scratch_len w)) (scratch_buff w')))
       = Some true
    /\ sha w'
       = memcpy (sha w)
           (SHA1 (take (Z.to_nat (scratch_len w)) (scratch_buff w'))) 20
    /\ scratch_len w' = scratch_len w.
Proof.
  rewrite worker_thread_main_search_loop.
  pose proof (search_loop_inv (worker_test w) fuel (sha w) (scratch_buff w)
                (scratch_len w) (counter_offset w) (counter w) (stride w))
    as Hinv.
  destruct (search_loop _ _ _ _ _ _ _ _ _) as [b out | b c |];
    intros Hw Hc0 Hc1; [| | discriminate].
  - injection Hw as <-. simpl in *.
    destruct Hinv as (k & Hk & Hb & Ht & Hout).
    exists k. repeat split; assumption.
  - injection Hw as <-. simpl in Hc1. contradiction.
Qed.

End Loops.

(** ** The buffer [setup_worker] builds *)

Lemma length_decimal_digits (fuel : nat) (n : Z) (acc : list byte) :
  (length (decimal_digits fuel n acc) <= fuel + length acc)%nat.
Proof.
  revert n acc. induction fuel as [| fuel IH]; intros n acc; simpl.
  - lia.
  - destruct (n <? 10); simpl; [lia |].
    etransitivity; [apply IH |]. simpl. lia.
Qed.

Lemma header_len_bounds (data_len : Z) : 8 <= header_len data_len <= 28.
Proof.
  unfold header_len, sprintf_commit, decimal.
  rewrite length_app.
  pose proof (length_decimal_digits 20 data_len []) as H.
  change (20 + length (@nil byte))%nat with 20%nat in H.
  change (length (bytes_of_string "commit ")) with 7%nat. lia.
Qed.

Lemma to_size_t_small (z : Z) : 0 <= z < 2 ^ 64 -> to_size_t z = z.
Proof. intros H. unfold to_size_t. apply Z.mod_small. exact H. Qed.

Lemma length_malloc (uninit : nat -> byte) (n : Z) :
  length (malloc uninit n) = Z.to_nat n.
Proof. unfold malloc. rewrite length_map, length_seq. reflexivity. Qed.

(** The bytes before the nonce once header, content and separators are
    stored, whatever the block held before. *)
Lemma framed_prefix (hdr content block : list byte) :
  (length hdr + length content + 2 <= length block)%nat ->
  take (length hdr + length content + 2)
    (<[(length hdr + length content + 1)%nat := LF]>
       (<[(length hdr + length content)%nat := LF]>
          (list_inserts (length hdr) content (list_inserts 0 hdr block))))
  = hdr ++ content ++ [LF; LF].
Proof.
  intros Hlen. apply list_eq. intros j.
  set (a := length hdr) in *. set (b := length content) in *.
  destruct (decide (j < a + b + 2)%nat) as [Hj | Hj].
  2: { rewrite lookup_take_ge by lia.
       symmetry. apply lookup_ge_None.
       rewrite !length_app. simpl. fold a b. lia. }
  rewrite lookup_take_lt by lia.
  destruct (decide (j = a + b + 1)%nat) as [-> | H1].
  { rewrite list_lookup_insert_eq
      by (rewrite length_insert, !length_inserts; lia).
    rewrite lookup_app_r by (fold a; lia).
    rewrite lookup_app_r by (fold a b; lia).
    fold a b. replace (a + b + 1 - a - b)%nat with 1%nat by lia. reflexivity. }
  rewrite list_lookup_insert_ne by lia.
  destruct (decide (j = a + b)%nat) as [-> | H2].
  { rewrite list_lookup_insert_eq by (rewrite !length_inserts; lia).
    rewrite lookup_app_r by (fold a; lia).
    rewrite lookup_app_r by (fold a b; lia).
    fold a b. replace (a + b - a - b)%nat with 0%nat by lia. reflexivity. }
  rewrite list_lookup_insert_ne by lia.
  destruct (decide (j < a)%nat) as [H3 | H3].
  - rewrite list_lookup_inserts_lt by lia.
    rewrite list_lookup_inserts by (fold a; lia).
    rewrite lookup_app_l by (fold a; lia). f_equal. lia.
  - rewrite list_lookup_inserts by (rewrite ?length_inserts; fold b; lia).
    rewrite lookup_app_r by (fold a; lia).
    rewrite lookup_app_l by (fold a b; lia). reflexivity.
Qed.

Lemma length_header (data_len : Z) :
  Z.of_nat (length (header data_len)) = header_len data_len.
Proof. unfold header, header_len. rewrite length_app. simpl. lia. Qed.

Section Setup.

Variable uninit : nat -> byte.

(** What [setup_worker] stores for the call [start_bruteforce] makes for
    a Ruby string [commit_data] (whose length is a [long]). *)
Lemma setup_worker_spec w0 (commit_data prefix : list byte)
  (prefix_len has_half_dig i ncpus : Z) w :
  Z.of_nat (length commit_data) <= LONG_MAX ->
  setup_worker uninit w0 commit_data (Z.of_nat (length commit_data)) prefix
    prefix_len has_half_dig i ncpus = Some w ->
  let data_length := Z.of_nat (length commit_data) + 18 in
  scratch_len w = header_len data_length + data_length
  /\ counter_offset w
     = header_len data_length + Z.of_nat (length commit_data) + 2
  /\ Z.of_nat (length (scratch_buff w)) = scratch_len w + 1
  /\ take (Z.to_nat (counter_offset w)) (scratch_buff w)
     = header data_length ++ commit_data ++ [LF; LF]
  /\ counter w = to_size_t i /\ stride w = ncpus
  /\ complete w = complete w0 /\ sha w = sha w0.
Proof.
  intros Hlong Hsetup data_length.
  pose proof (header_len_bounds data_length) as Hh.
  pose proof (length_header data_length) as Hhl.
  unfold LONG_MAX in Hlong.
  unfold setup_worker in Hsetup.
  replace (Z.of_nat (length commit_data) + 2 + 16) with data_length
    in Hsetup by (unfold data_length; lia).
  cbv zeta in Hsetup.
  rewrite (to_size_t_small data_length) in Hsetup
    by (unfold data_length; lia).
  rewrite (to_size_t_small (header_len data_length + data_length)),
    (to_size_t_small (header_len data_length + data_length + 1)),
    (to_size_t_small (header_len data_length
                      + Z.of_nat (length commit_data))),
    (to_size_t_small (header_len data_length
                      + Z.of_nat (length commit_data) + 1)),
    (to_size_t_small (header_len data_length
                      + Z.of_nat (length commit_data) + 2))
    in Hsetup by (unfold data_length in *; lia).
  assert (Hfields :
    scratch_len w = header_len data_length + data_length
    /\ counter_offset w
       = header_len data_length + Z.of_nat (length commit_data) + 2
    /\ scratch_buff w
       = <[Z.to_nat (header_len data_length
                     + Z.of_nat (length commit_data) + 1) := LF]>
           (<[Z.to_nat (header_len data_length
                        + Z.of_nat (length commit_data)) := LF]>
              (memcpy_at
                 (list_inserts 0 (sprintf_commit data_length ++ [NUL])
                    (malloc uninit
                       (header_len data_length + data_length + 1)))
                 (header_len data_length) commit_data
                 (Z.of_nat (length commit_data))))
    /\ counter w = to_size_t i /\ stride w = ncpus
    /\ complete w = complete w0 /\ sha w = sha w0).
  { destruct (has_half_dig =? 0).
    - injection Hsetup as <-. repeat split.
    - destruct (read prefix _); [| discriminate].
      injection Hsetup as <-. repeat split. }
  destruct Hfields as (Hsl & Hoff & Hbuf & Hc & Hs & Hcomp & Hsha).
  repeat split; try assumption.
  - rewrite Hbuf, !length_insert. unfold memcpy_at.
    rewrite !length_inserts, length_malloc, Hsl. lia.
  - rewrite Hbuf, Hoff. unfold memcpy_at. rewrite Nat2Z.id, firstn_all.
    fold (header data_length).
    replace (Z.to_nat (header_len data_length
                       + Z.of_nat (length commit_data) + 2))
      with (length (header data_length) + length commit_data + 2)%nat by lia.
    replace (Z.to_nat (header_len data_length
                       + Z.of_nat (length commit_data) + 1))
      with (length (header data_length) + length commit_data + 1)%nat by lia.
    replace (Z.to_nat (header_len data_length
                       + Z.of_nat (length commit_data)))
      with (length (header data_length) + length commit_data)%nat by lia.
    replace (Z.to_nat (header_len data_length))
      with (length (header data_length)) by lia.
    apply framed_prefix. rewrite length_malloc.
    unfold data_length in *. lia.
Qed.

(** The 16 stores of [write_counter_hex] fall inside the block, one byte
    short of its end. *)
Lemma setup_worker_nonce_in_bounds w0 (commit_data pfx : list byte)
  (plen has_half_dig i ncpus : Z) w :
  Z.of_nat (length commit_data) <= LONG_MAX ->
  setup_worker uninit w0 commit_data (Z.of_nat (length commit_data)) pfx
    plen has_half_dig i ncpus = Some w ->
  0 <= counter_offset w
  /\ counter_offset w + 16 = scratch_len w
  /\ scratch_len w < Z.of_nat (length (scratch_buff w)).
Proof.
  intros Hlong Hsetup.
  destruct (setup_worker_spec _ _ _ _ _ _ _ _ Hlong Hsetup)
    as (Hsl & Hoff & Hlen & _).
  pose proof (header_len_bounds (Z.of_nat (length commit_data) + 18)) as Hh.
  cbv zeta in Hsl, Hoff. lia.
Qed.

End Setup.

Section SetupPrefix.

Variable uninit : nat -> byte.

Lemma prefix_copy_eq (pfx : list byte) :
  memcpy_at (malloc uninit (Z.of_nat (length pfx))) 0 pfx
    (Z.of_nat (length pfx)) = pfx.
Proof.
  unfold memcpy_at. rewrite Nat2Z.id, firstn_all. change (Z.to_nat 0) with 0%nat.
  rewrite <- (app_nil_r (malloc _ _)).
  rewrite list_inserts_0_r by (rewrite length_malloc; lia).
  apply app_nil_r.
Qed.

(** Without the half digit the worker compares the whole prefix. *)
Lemma setup_worker_prefix_full w0 commit_data commit_data_len
  (pfx : list byte) i ncpus w :
  setup_worker uninit w0 commit_data commit_data_len pfx
    (Z.of_nat (length pfx)) 0 i ncpus = Some w ->
  prefix_has_half_dig w = 0
  /\ prefix w = pfx
  /\ prefix_len w = Z.of_nat (length pfx).
Proof.
  unfold setup_worker. cbv zeta. rewrite prefix_copy_eq.
  change (0 =? 0) with true. cbv iota.
  intros H. injection H as <-. repeat split.
Qed.

(** With the half digit the last byte of the prefix gives the digit, and
    the bytes before it are compared in full. *)
Lemma setup_worker_prefix_half w0 commit_data commit_data_len
  (pfx : list byte) has_half_dig i ncpus w :
  has_half_dig <> 0 ->
  Z.of_nat (length pfx) < 2 ^ 64 ->
  setup_worker uninit w0 commit_data commit_data_len pfx
    (Z.of_nat (length pfx)) has_half_dig i ncpus = Some w ->
  exists last : byte,
    pfx !! (length pfx - 1)%nat = Some last
    /\ (1 <= length pfx)%nat
    /\ prefix_has_half_dig w = 1
    /\ prefix w = pfx
    /\ prefix_len w = Z.of_nat (length pfx) - 1
    /\ prefix_half_dig w = Z.shiftr (byte_val last) 4.
Proof.
  intros Hhalf Hlen. unfold setup_worker. cbv zeta. rewrite prefix_copy_eq.
  destruct (has_half_dig =? 0) eqn:E; [lia |].
  destruct (decide (length pfx = 0)%nat) as [Hz | Hnz].
  - rewrite Hz. unfold read.
    change (to_size_t (Z.of_nat 0 - 1)) with (2 ^ 64 - 1).
    replace (2 ^ 64 - 1 <? Z.of_nat (length pfx)) with false
      by (symmetry; apply Z.ltb_ge; lia).
    rewrite andb_false_r. discriminate.
  - rewrite to_size_t_small by lia.
    unfold read.
    destruct ((0 <=? _) && _); [| discriminate].
    replace (Z.to_nat (Z.of_nat (length pfx) - 1))
      with (length pfx - 1)%nat by lia.
    destruct (pfx !! (length pfx - 1)%nat) as [last |] eqn:El;
      [| discriminate].
    intros H. injection H as <-. exists last.
    repeat split. lia.
Qed.

End SetupPrefix.

(** ** The coordinator *)

Lemma scan_workers_cases (workers : list worker_t) :
  (exists (i : nat) (w : worker_t),
      workers !! i = Some w /\ complete w <> 0
      /\ (forall (j : nat) (w' : worker_t),
             (j < i)%nat -> workers !! j = Some w' -> complete w' = 0)
      /\ scan_workers workers
         = RArray [rb_str_new (scratch_buff w) (scratch_len w);
                   rb_str_new (sha w) 20])
  \/ ((forall (j : nat) (w' : worker_t),
          workers !! j = Some w' -> complete w' = 0)
      /\ scan_workers workers = Qnil).
Proof.
  induction workers as [| w ws IH]; simpl.
  - right. split; [| reflexivity]. intros j w' H. discriminate.
  - destruct (complete w =? 0) eqn:E.
    + apply Z.eqb_eq in E.
      destruct IH as [(i & wi & Hi & Hc & Hlow & Hscan) | [Hall Hscan]].
      * left. exists (S i), wi. repeat split; try assumption.
        intros [| j] w' Hj Hw'; simpl in Hw'.
        -- injection Hw' as <-. exact E.
        -- apply (Hlow j); [lia | exact Hw'].
      * right. split; [| exact Hscan].
        intros [| j] w' Hw'; simpl in Hw'.
        -- injection Hw' as <-. exact E.
        -- apply (Hall j). exact Hw'.
    + apply Z.eqb_neq in E. left. exists 0%nat, w.
      repeat split; try assumption; try reflexivity.
      intros j w' Hj. lia.
Qed.

Section Coordinator.

Variable SHA1 : list byte -> list byte.
Variable uninit : nat -> byte.
Variable uninit_worker : nat -> worker_t.

Lemma setup_workers_lookup n i commit_data commit_data_len prefix prefix_len
  has_half_dig ncpus workers :
  0 <= i ->
  setup_workers uninit uninit_worker n i commit_data commit_data_len prefix
    prefix_len has_half_dig ncpus = Some workers ->
  length workers = n
  /\ forall (j : nat) (w : worker_t),
       workers !! j = Some w ->
       exists w0,
         setup_worker uninit (uninit_worker (Z.to_nat i + j)%nat) commit_data
           commit_data_len prefix prefix_len has_half_dig
           (i + Z.of_nat j) ncpus = Some w0
         /\ w = clear_complete w0.
Proof.
  revert i workers. induction n as [| n IH]; intros i workers Hi; simpl.
  - intros H. injection H as <-. split; [reflexivity |].
    intros j w Hj. discriminate.
  - destruct (setup_worker _ _ _ _ _ _ _ _ _) as [w0 |] eqn:E0;
      simpl; [| discriminate].
    destruct (setup_workers _ _ _ _ _ _ _ _ _ _) as [ws |] eqn:Ews;
      simpl; [| discriminate].
    intros H. injection H as <-.
    destruct (IH (i + 1) ws ltac:(lia) Ews) as [Hlen Hws].
    split; [simpl; lia |].
    intros [| j] w Hj; simpl in Hj.
    + injection Hj as <-. exists w0.
      rewrite Nat.add_0_r, Z.add_0_r. split; [exact E0 | reflexivity].
    + destruct (Hws j w Hj) as (w1 & Hw1 & Heq).
      exists w1. split; [| exact Heq].
      replace (Z.to_nat i + S j)%nat with (Z.to_nat (i + 1) + j)%nat by lia.
      replace (i + Z.of_nat (S j)) with (i + 1 + Z.of_nat j) by lia.
      exact Hw1.
Qed.

Lemma run_threads_lookup sched i workers workers' :
  run_threads SHA1 sched i workers = Some workers' ->
  forall (j : nat) (w' : worker_t),
    workers' !! j = Some w' ->
    exists w,
      workers !! j = Some w
      /\ worker_thread_main SHA1 (sched (i + j)%nat) w = Some w'.
Proof.
  revert i workers'. induction workers as [| w ws IH]; intros i workers'; simpl.
  - intros H. injection H as <-. intros j w' Hj. discriminate.
  - destruct (worker_thread_main _ _ w) as [w1 |] eqn:E1; simpl; [| discriminate].
    destruct (run_threads _ _ _ ws) as [ws' |] eqn:Ews; simpl; [| discriminate].
    intros H. injection H as <-.
    intros [| j] w' Hj; simpl in Hj.
    + injection Hj as <-. exists w. rewrite Nat.add_0_r.
      split; [reflexivity | exact E1].
    + destruct (IH (S i) ws' Ews j w' Hj) as (w2 & Hw2 & Hrun).
      exists w2. split; [exact Hw2 |].
      replace (i + S j)%nat with (S i + j)%nat by lia. exact Hrun.
Qed.

(** A search that returns a pair returns the block and digest of a worker
    whose loop returned: worker [i], set up with index [i], after some
    iteration [k]. *)
Lemma start_bruteforce_returns sched commit_data commit_data_len prefix
  prefix_len has_half_dig ncpus (matched digest : list byte) :
  start_bruteforce SHA1 uninit uninit_worker sched commit_data
    commit_data_len prefix prefix_len has_half_dig ncpus
  = Some (RArray [RString matched; RString digest]) ->
  exists (i k : nat) (w0 : worker_t),
    Z.of_nat i < ncpus
    /\ setup_worker uninit (uninit_worker i) commit_data commit_data_len
         prefix prefix_len has_half_dig (Z.of_nat i) ncpus = Some w0
    /\ (k < sched i)%nat
    /\ let buff :=
         write_counter_hex (scratch_buff w0) (counter_offset w0)
           (counter_at (stride w0) (counter w0) k) in
       let hashed := take (Z.to_nat (scratch_len w0)) buff in
       matched = hashed
       /\ worker_test w0 (SHA1 hashed) = Some true
       /\ digest = take 20 (memcpy (sha w0) (SHA1 hashed) 20).
Proof.
  unfold start_bruteforce.
  destruct (setup_workers _ _ _ _ _ _ _ _ _ _) as [ws |] eqn:Esetup;
    simpl; [| discriminate].
  destruct (run_threads _ _ _ ws) as [ws' |] eqn:Erun; simpl; [| discriminate].
  intros H. injection H as Hscan.
  destruct (scan_workers_cases ws')
    as [(i & w' & Hi & Hc & _ & Hscan') | [_ Hnil]];
    [| rewrite Hnil in Hscan; discriminate].
  rewrite Hscan' in Hscan. unfold rb_str_new in Hscan.
  injection Hscan as Hm Hd.
  destruct (run_threads_lookup _ _ _ _ Erun i w' Hi) as (w & Hw & Hmain).
  destruct (setup_workers_lookup _ 0 _ _ _ _ _ _ _ (Z.le_refl 0) Esetup)
    as [Hlen Hlook].
  destruct (Hlook i w Hw) as (w0 & Hw0 & ->).
  simpl in Hw0, Hmain.
  destruct (worker_thread_main_complete SHA1 _ _ _ Hmain eq_refl Hc)
    as (k & Hk & Hb & Ht & Hsha & Hsl).
  simpl in Hb, Ht, Hsha, Hsl.
  exists i, k, w0. split; [| split; [exact Hw0 | split; [exact Hk |]]].
  - apply lookup_lt_Some in Hw. lia.
  - cbv zeta. rewrite <- Hb. repeat split.
    + rewrite <- Hm, Hsl. reflexivity.
    + exact Ht.
    + rewrite <- Hd, Hsha. reflexivity.
Qed.

End Coordinator.

(** ** Comparing and copying digests *)

Lemma byte_val_inj (a b : byte) : byte_val a = byte_val b -> a = b.
Proof.
  unfold byte_val. intros H. apply N2Z.inj in H.
  rewrite <- (ascii_N_embedding a), <- (ascii_N_embedding b), H. reflexivity.
Qed.

Lemma memcmp_zero (s1 s2 : list byte) (n : nat) :
  memcmp s1 s2 n = Some 0 -> take n s1 = take n s2.
Proof.
  revert s1 s2. induction n as [| n IH]; intros s1 s2; simpl.
  - intros _. rewrite !take_0. reflexivity.
  - destruct s1 as [| a s1]; [discriminate |].
    destruct s2 as [| b s2]; [discriminate |]. simpl.
    destruct (byte_val a =? byte_val b) eqn:E.
    + apply Z.eqb_eq, byte_val_inj in E. subst b.
      intros H. simpl. f_equal. apply IH. exact H.
    + apply Z.eqb_neq in E. intros H. injection H as H. lia.
Qed.

Lemma memcmp_n_zero (s1 s2 : list byte) (n : nat) :
  memcmp_n s1 s2 (Z.of_nat n) = Some 0 ->
  take n s1 = take n s2 /\ (n <= length s1)%nat /\ (n <= length s2)%nat.
Proof.
  unfold memcmp_n.
  destruct (Z.of_nat n <=? Z.of_nat (length s1)) eqn:E1; [| discriminate].
  destruct (Z.of_nat n <=? Z.of_nat (length s2)) eqn:E2; [| discriminate].
  simpl. rewrite Nat2Z.id. intros H.
  apply Z.leb_le in E1, E2. split; [apply memcmp_zero; exact H | lia].
Qed.

Lemma test_prefix_true (pfx sha : list byte) :
  test_prefix pfx (Z.of_nat (length pfx)) sha = Some true ->
  take (length pfx) sha = pfx.
Proof.
  unfold test_prefix.
  destruct (memcmp_n sha pfx _) as [c |] eqn:E; simpl; [| discriminate].
  intros H. injection H as H. apply Z.eqb_eq in H. subst c.
  apply memcmp_n_zero in E. destruct E as (E & _ & _).
  rewrite E. apply firstn_all.
Qed.

(** Copying a 20-byte digest over a block and reading 20 bytes back. *)
Lemma take_memcpy_digest (dst sha : list byte) :
  length sha = 20%nat -> take 20 (memcpy dst sha 20) = sha.
Proof.
  intros H. unfold memcpy. change (Z.to_nat 20) with 20%nat.
  rewrite take_app_le by (rewrite length_take; lia).
  rewrite take_take. apply take_ge. lia.
Qed.

Lemma sha1_length (msg : list byte) : length (Sha1.sha1 msg) = 20%nat.
Proof.
  unfold Sha1.sha1, Sha1.digest.
  destruct (Sha1.blocks _ _ _) as [[[[h0 h1] h2] h3] h4]. reflexivity.
Qed.

(** ** The search *)

Section Search.

Variable SHA1 : list byte -> list byte.
Hypothesis SHA1_length : forall msg, length (SHA1 msg) = 20%nat.
Variable uninit : nat -> byte.
Variable uninit_worker : nat -> worker_t.

(** C1: without the half digit, a search that returns a pair returns a
    digest whose first [length pfx] bytes are [pfx], and that digest is the
    SHA-1 of the returned buffer.  (It holds for every prefix and worker
    count with which the search returns, so for [length pfx <= 20] and
    [ncpus >= 1] in particular.) *)
Theorem start_bruteforce_digest_prefix sched (content pfx : list byte)
  (ncpus : Z) (matched digest : list byte) :
  start_bruteforce SHA1 uninit uninit_worker sched content
    (Z.of_nat (length content)) pfx (Z.of_nat (length pfx)) 0 ncpus
  = Some (RArray [RString matched; RString digest]) ->
  take (length pfx) digest = pfx /\ digest = SHA1 matched.
Proof.
  intros H. apply start_bruteforce_returns in H.
  destruct H as (i & k & w0 & Hi & Hsetup & Hk & Hm & Ht & Hd).
  apply setup_worker_prefix_full in Hsetup.
  destruct Hsetup as (Hhas & Hpfx & Hplen).
  unfold worker_test in Ht. rewrite Hhas, Hpfx, Hplen in Ht. simpl in Ht.
  rewrite take_memcpy_digest in Hd by apply SHA1_length.
  rewrite <- Hm in Ht, Hd. subst digest.
  split; [apply test_prefix_true; exact Ht | reflexivity].
Qed.

End Search.

(** Four workers, each left to run four iterations: worker 2 matches the
    prefix [00] with its fourth counter, 14. *)
Lemma sample_search_full :
  start_bruteforce Sha1.sha1 stale_bytes stale_worker (fun _ => 4%nat)
    sample_commit (Z.of_nat (length sample_commit)) [byte_of 0]
    (Z.of_nat (length [byte_of 0])) 0 4
  = Some (RArray
            [RString (header 27 ++ sample_commit ++ [LF; LF] ++ nonce_hex 14);
             RString (Sha1.sha1 (header 27 ++ sample_commit ++ [LF; LF]
                                   ++ nonce_hex 14))]).
Proof. vm_compute. reflexivity. Qed.

Lemma start_bruteforce_digest_prefix_witness :
  exists matched digest : list byte,
    start_bruteforce Sha1.sha1 stale_bytes stale_worker (fun _ => 4%nat)
      sample_commit (Z.of_nat (length sample_commit)) [byte_of 0]
      (Z.of_nat (length [byte_of 0])) 0 4
    = Some (RArray [RString matched; RString digest])
    /\ take (length [byte_of 0]) digest = [byte_of 0]
    /\ digest = Sha1.sha1 matched
    /\ Sha1.hex digest = "0031865439219229ac4e83d2816dcf91a0477fee"%string
    /\ drop 21 matched = bytes_of_string "e000000000000000".
Proof.
  eexists. eexists. split; [exact sample_search_full |].
  destruct (start_bruteforce_digest_prefix Sha1.sha1 sha1_length stale_bytes
              stale_worker (fun _ => 4%nat) sample_commit [byte_of 0] 4 _ _
              sample_search_full) as [H1 H2].
  split; [exact H1 |]. split; [exact H2 |].
  split; vm_compute; reflexivity.
Defined.

Lemma test_prefix_half_dig_true (pfx sha : list byte) (n : nat) (half : Z) :
  test_prefix_half_dig pfx (Z.of_nat n) half sha = Some true ->
  take n sha = take n pfx
  /\ exists b : byte, sha !! n = Some b /\ Z.shiftr (byte_val b) 4 = half.
Proof.
  unfold test_prefix_half_dig.
  assert (Hcmp : forall c,
    (if Z.of_nat n =? 0 then Some 0 else memcmp_n sha pfx (Z.of_nat n)) = Some c ->
    c = 0 -> take n sha = take n pfx).
  { intros c Hc ->. destruct (Z.of_nat n =? 0) eqn:E.
    - apply Z.eqb_eq in E. replace n with 0%nat by lia.
      rewrite !take_0. reflexivity.
    - apply memcmp_n_zero in Hc. apply Hc. }
  destruct (if Z.of_nat n =? 0 then _ else _) as [c |]; simpl; [| discriminate].
  destruct (c =? 0) eqn:Ec; [| discriminate].
  apply Z.eqb_eq in Ec. specialize (Hcmp c eq_refl Ec).
  unfold read.
  destruct ((0 <=? Z.of_nat n) && (Z.of_nat n <? Z.of_nat (length sha)));
    simpl; [| discriminate].
  rewrite Nat2Z.id.
  destruct (sha !! n) as [b |]; simpl; [| discriminate].
  intros H. injection H as H. apply Z.eqb_eq in H.
  split; [exact Hcmp |]. exists b. split; [reflexivity | exact H].
Qed.

Section SearchResults.

Variable SHA1 : list byte -> list byte.
Hypothesis SHA1_length : forall msg, length (SHA1 msg) = 20%nat.
Variable uninit : nat -> byte.
Variable uninit_worker : nat -> worker_t.

(** C2, as the code has it: with the half digit requested, a prefix of
    at most 20 bytes and a search that returns a pair, the prefix is not
    empty, its last byte only gives the digit: the digest's first
    [length pfx - 1] bytes are those of the prefix, and the high nibble of
    the digest's byte at index [length pfx - 1] is the high nibble of the
    last byte of the prefix. *)
Theorem start_bruteforce_half_dig sched (content pfx : list byte)
  (ncpus : Z) (matched digest : list byte) :
  (length pfx <= 20)%nat ->
  start_bruteforce SHA1 uninit uninit_worker sched content
    (Z.of_nat (length content)) pfx (Z.of_nat (length pfx)) 1 ncpus
  = Some (RArray [RString matched; RString digest]) ->
  exists last b : byte,
    pfx !! (length pfx - 1)%nat = Some last
    /\ digest !! (length pfx - 1)%nat = Some b
    /\ Z.shiftr (byte_val b) 4 = Z.shiftr (byte_val last) 4
    /\ take (length pfx - 1) digest = take (length pfx - 1) pfx
    /\ digest = SHA1 matched.
Proof.
  intros Hlen H. apply start_bruteforce_returns in H.
  destruct H as (i & k & w0 & Hi & Hsetup & Hk & Hm & Ht & Hd).
  apply setup_worker_prefix_half in Hsetup; [| lia | lia].
  destruct Hsetup as (last & Hlast & Hpos & Hhas & Hpfx & Hplen & Hhalf).
  unfold worker_test in Ht. rewrite Hhas, Hpfx, Hplen, Hhalf in Ht.
  simpl in Ht.
  replace (Z.of_nat (length pfx) - 1) with (Z.of_nat (length pfx - 1)) in Ht
    by lia.
  apply test_prefix_half_dig_true in Ht. destruct Ht as (Htake & b & Hb & Hnib).
  rewrite take_memcpy_digest in Hd by apply SHA1_length.
  rewrite <- Hm in Htake, Hb, Hd. subst digest.
  exists last, b. repeat split; assumption.
Qed.

(** C3: for a commit of at most [LONG_MAX] bytes (every Ruby string),
    the buffer a search returns is "commit ", the decimal digits of
    [length content + 18], a NUL, the content, two line feeds and the 16
    characters of a nonce; the digest is taken over all of it, header and
    NUL included; and every worker is set up to hash that many bytes, with
    the nonce at offset [header_len + length content + 2]. *)
Theorem matched_content_layout sched (content pfx : list byte)
  (prefix_len has_half_dig ncpus : Z) :
  Z.of_nat (length content) <= LONG_MAX ->
  let data_length := Z.of_nat (length content) + 18 in
  (forall matched digest : list byte,
      start_bruteforce SHA1 uninit uninit_worker sched content
        (Z.of_nat (length content)) pfx prefix_len has_half_dig ncpus
      = Some (RArray [RString matched; RString digest]) ->
      exists (i k : nat),
        Z.of_nat i < ncpus
        /\ matched
           = bytes_of_string "commit " ++ decimal data_length ++ [NUL]
               ++ content ++ [LF] ++ [LF]
               ++ nonce_hex (counter_at ncpus (to_size_t (Z.of_nat i)) k)
        /\ Z.of_nat (length matched) = header_len data_length + data_length
        /\ digest = SHA1 matched)
  /\ (forall w0 i w,
         setup_worker uninit w0 content (Z.of_nat (length content)) pfx
           prefix_len has_half_dig i ncpus = Some w ->
         header_len data_length
         = Z.of_nat (length (bytes_of_string "commit " ++ decimal data_length
                               ++ [NUL]))
         /\ scratch_len w = header_len data_length + data_length
         /\ counter_offset w
            = header_len data_length + Z.of_nat (length content) + 2).
Proof.
  intros Hlong data_length.
  pose proof (header_len_bounds data_length) as Hh.
  assert (Hheader : header data_length
                    = bytes_of_string "commit " ++ decimal data_length ++ [NUL]).
  { unfold header, sprintf_commit. rewrite <- app_assoc. reflexivity. }
  split.
  - intros matched digest H. apply start_bruteforce_returns in H.
    destruct H as (i & k & w0 & Hi & Hsetup & Hk & Hm & Ht & Hd).
    apply setup_worker_spec in Hsetup; [| exact Hlong].
    destruct Hsetup as (Hsl & Hoff & Hblen & Htake & Hc & Hs & _ & _).
    fold data_length in Hsl, Hoff, Htake.
    exists i, k. split; [exact Hi |].
    rewrite take_memcpy_digest in Hd by apply SHA1_length.
    rewrite <- Hm in Hd.
    assert (Hmatched :
      matched = header data_length ++ content ++ [LF; LF]
                  ++ nonce_hex (counter_at ncpus (to_size_t (Z.of_nat i)) k)).
    { rewrite Hm, Hs, Hc.
      rewrite <- (Z2Nat.id (counter_offset w0)) at 1 by lia.
      rewrite write_counter_hex_in_bounds by lia.
      rewrite Htake.
      assert (Hpre : length (header data_length ++ content ++ [LF; LF])
                     = Z.to_nat (counter_offset w0)).
      { rewrite <- Htake, length_take. lia. }
      replace (Z.to_nat (scratch_len w0))
        with (length (header data_length ++ content ++ [LF; LF])
              + length (nonce_hex (counter_at ncpus (to_size_t (Z.of_nat i)) k)))%nat
        by (rewrite Hpre; change (length (nonce_hex _)) with 16%nat; lia).
      rewrite <- length_app.
      rewrite (app_assoc _ (nonce_hex _) (drop _ _)), take_app_length.
      rewrite <- !app_assoc. reflexivity. }
    split; [| split; [| exact Hd]].
    + rewrite Hmatched, Hheader, <- !app_assoc. reflexivity.
    + rewrite Hmatched, !length_app.
      change (length (nonce_hex _)) with 16%nat.
      change (length [LF; LF]) with 2%nat.
      pose proof (length_header data_length) as Hhl.
      unfold data_length in *. lia.
  - intros w0 i w Hsetup.
    apply setup_worker_spec in Hsetup; [| exact Hlong].
    destruct Hsetup as (Hsl & Hoff & _).
    rewrite <- Hheader, length_header. repeat split; assumption.
Qed.

End SearchResults.

(** One worker, the half digit [d] requested by the one-byte prefix [d0]:
    the worker matches with its third counter, 2. *)
Lemma sample_search_half :
  start_bruteforce Sha1.sha1 stale_bytes stale_worker (fun _ => 3%nat)
    sample_commit (Z.of_nat (length sample_commit)) [byte_of 0xd0]
    (Z.of_nat (length [byte_of 0xd0])) 1 1
  = Some (RArray
            [RString (header 27 ++ sample_commit ++ [LF; LF] ++ nonce_hex 2);
             RString (Sha1.sha1 (header 27 ++ sample_commit ++ [LF; LF]
                                   ++ nonce_hex 2))]).
Proof. vm_compute. reflexivity. Qed.

Lemma start_bruteforce_half_dig_witness :
  (length [byte_of 0xd0] <= 20)%nat
  /\ exists matched digest last b,
       start_bruteforce Sha1.sha1 stale_bytes stale_worker (fun _ => 3%nat)
         sample_commit (Z.of_nat (length sample_commit)) [byte_of 0xd0]
         (Z.of_nat (length [byte_of 0xd0])) 1 1
       = Some (RArray [RString matched; RString digest])
       /\ [byte_of 0xd0] !! (length [byte_of 0xd0] - 1)%nat = Some last
       /\ digest !! (length [byte_of 0xd0] - 1)%nat = Some b
       /\ Z.shiftr (byte_val b) 4 = Z.shiftr (byte_val last) 4
       /\ Sha1.hex digest = "d5f031f4f811565a90579146872e921ffe82ab82"%string.
Proof.
  split; [simpl; lia |].
  destruct (start_bruteforce_half_dig Sha1.sha1 sha1_length stale_bytes
              stale_worker (fun _ => 3%nat) sample_commit [byte_of 0xd0] 1 _ _
              ltac:(simpl; lia) sample_search_half)
    as (last & b & Hlast & Hb & Hnib & _ & _).
  eexists. eexists. exists last, b.
  split; [exact sample_search_half |].
  split; [exact Hlast |]. split; [exact Hb |]. split; [exact Hnib |].
  vm_compute. reflexivity.
Defined.

(** C2 as stated fails: with the half digit requested by the one-byte
    prefix [d0], the search returns the digest [d5 f0 ...]; the prefix has
    length 1 < 20, and the high nibble of the digest's byte at index 1 is
    [f], not the [d] the last byte of the prefix encodes. *)
Lemma start_bruteforce_half_dig_not_next_byte :
  exists matched digest b,
    start_bruteforce Sha1.sha1 stale_bytes stale_worker (fun _ => 3%nat)
      sample_commit (Z.of_nat (length sample_commit)) [byte_of 0xd0]
      (Z.of_nat (length [byte_of 0xd0])) 1 1
    = Some (RArray [RString matched; RString digest])
    /\ (length [byte_of 0xd0] < 20)%nat
    /\ digest !! length [byte_of 0xd0] = Some b
    /\ Z.shiftr (byte_val b) 4 = 15
    /\ Z.shiftr (byte_val (byte_of 0xd0)) 4 = 13
    /\ Z.shiftr (byte_val b) 4 <> Z.shiftr (byte_val (byte_of 0xd0)) 4.
Proof.
  eexists. eexists. exists (byte_of 0xf0).
  split; [exact sample_search_half |].
  split; [simpl; lia |].
  split; [vm_compute; reflexivity |].
  split; [reflexivity |]. split; [reflexivity |].
  vm_compute. discriminate.
Qed.

Lemma matched_content_layout_witness :
  Z.of_nat (length sample_commit) <= LONG_MAX
  /\ exists matched digest,
       start_bruteforce Sha1.sha1 stale_bytes stale_worker (fun _ => 4%nat)
         sample_commit (Z.of_nat (length sample_commit)) [byte_of 0]
         (Z.of_nat (length [byte_of 0])) 0 4
       = Some (RArray [RString matched; RString digest])
       /\ (exists i k : nat,
              matched
              = bytes_of_string "commit " ++ decimal 27 ++ [NUL]
                  ++ sample_commit ++ [LF] ++ [LF]
                  ++ nonce_hex (counter_at 4 (to_size_t (Z.of_nat i)) k))
       /\ Z.of_nat (length matched) = 37
       /\ digest = Sha1.sha1 matched.
Proof.
  assert (Hlong : Z.of_nat (length sample_commit) <= LONG_MAX)
    by (vm_compute; discriminate).
  split; [exact Hlong |].
  destruct (matched_content_layout Sha1.sha1 sha1_length stale_bytes
              stale_worker (fun _ => 4%nat) sample_commit [byte_of 0]
              (Z.of_nat (length [byte_of 0])) 0 4 Hlong) as [Hret _].
  destruct (Hret _ _ sample_search_full) as (i & k & _ & Hm & Hl & Hd).
  eexists. eexists. split; [exact sample_search_full |].
  split; [exists i, k; exact Hm |]. split; [exact Hl | exact Hd].
Defined.

(** ** The loop and its buffer *)

Section LoopFrame.

Variable SHA1 : list byte -> list byte.
Variable uninit : nat -> byte.

Lemma search_loop_same_outside test fuel output_sha scratch_buff scratch_len
  counter_offset counter stride :
  match search_loop SHA1 test fuel output_sha scratch_buff scratch_len
          counter_offset counter stride with
  | Matched b _ | Spinning b _ =>
      same_outside_nonce (Z.to_nat counter_offset) scratch_buff b
  | Fault => True
  end.
Proof.
  pose proof (search_loop_inv SHA1 test fuel output_sha scratch_buff
                scratch_len counter_offset counter stride) as Hinv.
  destruct (search_loop _ _ _ _ _ _ _ _ _) as [b out | b c |]; [| | exact I].
  - destruct Hinv as (k & _ & -> & _). apply write_counter_hex_outside.
  - destruct Hinv as [_ ->]. destruct fuel as [| k].
    + split; [reflexivity | intros j _; reflexivity].
    + apply write_counter_hex_outside.
Qed.

(** C8: whatever number of iterations a search loop has run, the block it
    works on has the length it had when the loop was entered (it is the
    same block, written in place) and the same bytes everywhere outside
    the 16 bytes at [counter_offset]; so every byte before
    [counter_offset] (header, content, separators) is as [setup_worker]
    stored it. *)
Theorem search_loops_write_nonce_only (fuel : nat)
  (output_sha scratch_buff : list byte) (scratch_len counter_offset : Z)
  (pfx : list byte) (prefix_len counter stride half_dig : Z) :
  match bruteforce_loop SHA1 fuel output_sha scratch_buff scratch_len
          counter_offset pfx prefix_len counter stride with
  | Matched b _ | Spinning b _ =>
      length b = length scratch_buff
      /\ (forall j : nat,
             (j < Z.to_nat counter_offset
              \/ Z.to_nat counter_offset + 16 <= j)%nat ->
             b !! j = scratch_buff !! j)
      /\ take (Z.to_nat counter_offset) b
         = take (Z.to_nat counter_offset) scratch_buff
  | Fault => True
  end
  /\ match bruteforce_loop_with_half_dig SHA1 fuel output_sha scratch_buff
             scratch_len counter_offset pfx prefix_len counter stride
             half_dig with
     | Matched b _ | Spinning b _ =>
         length b = length scratch_buff
         /\ (forall j : nat,
                (j < Z.to_nat counter_offset
                 \/ Z.to_nat counter_offset + 16 <= j)%nat ->
                b !! j = scratch_buff !! j)
         /\ take (Z.to_nat counter_offset) b
            = take (Z.to_nat counter_offset) scratch_buff
     | Fault => True
     end.
Proof.
  assert (Htake : forall b : list byte,
    same_outside_nonce (Z.to_nat counter_offset) scratch_buff b ->
    length b = length scratch_buff
    /\ (forall j : nat,
           (j < Z.to_nat counter_offset
            \/ Z.to_nat counter_offset + 16 <= j)%nat ->
           b !! j = scratch_buff !! j)
    /\ take (Z.to_nat counter_offset) b
       = take (Z.to_nat counter_offset) scratch_buff).
  { intros b [Hlen Hout]. split; [exact Hlen | split; [exact Hout |]].
    apply list_eq. intros j.
    destruct (decide (j < Z.to_nat counter_offset)%nat) as [Hj | Hj].
    - rewrite !lookup_take_lt by exact Hj. apply Hout. left. exact Hj.
    - rewrite !lookup_take_ge by lia. reflexivity. }
  split.
  - rewrite bruteforce_loop_search_loop.
    pose proof (search_loop_same_outside (test_prefix pfx prefix_len) fuel
                  output_sha scratch_buff scratch_len counter_offset counter
                  stride) as H.
    destruct (search_loop _ _ _ _ _ _ _ _ _); [| | exact I]; apply Htake, H.
  - rewrite bruteforce_loop_with_half_dig_search_loop.
    pose proof (search_loop_same_outside
                  (test_prefix_half_dig pfx prefix_len half_dig) fuel
                  output_sha scratch_buff scratch_len counter_offset counter
                  stride) as H.
    destruct (search_loop _ _ _ _ _ _ _ _ _); [| | exact I]; apply Htake, H.
Qed.

Lemma memcmp_n_0 (s1 s2 : list byte) : memcmp_n s1 s2 0 = Some 0.
Proof.
  unfold memcmp_n.
  replace (0 <=? Z.of_nat (length s1)) with true
    by (symmetry; apply Z.leb_le; lia).
  replace (0 <=? Z.of_nat (length s2)) with true
    by (symmetry; apply Z.leb_le; lia).
  reflexivity.
Qed.

(** C9: with an empty prefix and no half digit the loop returns in its
    first iteration, with the counter it was entered with; for the worker
    [setup_worker] builds for index [i] that counter is [i], so every
    worker's thread completes with the nonce of its own index. *)
Theorem empty_prefix_matches_first (fuel : nat) (out buff : list byte)
  (len off : Z) (pfx : list byte) (c step : Z) :
  bruteforce_loop SHA1 (S fuel) out buff len off pfx 0 c step
  = Matched (write_counter_hex buff off c)
      (memcpy out
         (SHA1 (take (Z.to_nat len) (write_counter_hex buff off c))) 20)
  /\ forall w0 commit_data commit_data_len i ncpus w,
       setup_worker uninit w0 commit_data commit_data_len [] 0 0 i ncpus
       = Some w ->
       counter w = to_size_t i
       /\ exists w',
            worker_thread_main SHA1 (S fuel) w = Some w'
            /\ complete w' = 1
            /\ scratch_buff w'
               = write_counter_hex (scratch_buff w) (counter_offset w)
                   (to_size_t i)
            /\ sha w'
               = memcpy (sha w)
                   (SHA1 (take (Z.to_nat (scratch_len w)) (scratch_buff w')))
                   20.
Proof.
  split.
  - simpl. rewrite memcmp_n_0. reflexivity.
  - intros w0 commit_data commit_data_len i ncpus w Hsetup.
    unfold setup_worker in Hsetup. cbv zeta in Hsetup.
    change (0 =? 0) with true in Hsetup. cbv iota in Hsetup.
    injection Hsetup as <-.
    split; [reflexivity |].
    unfold worker_thread_main.
    cbn [prefix_has_half_dig prefix_len counter stride scratch_buff
         scratch_len counter_offset prefix sha complete].
    change (0 =? 0) with true. cbv iota.
    cbn [bruteforce_loop]. rewrite memcmp_n_0.
    change (0 =? 0) with true. cbv iota.
    eexists. split; [reflexivity |].
    cbn [complete scratch_buff sha]. repeat split.
Qed.

End LoopFrame.

(** ** Counter sequences of the workers *)

(** The counter a loop is about to test after [fuel] iterations without a
    match is [counter_at stride counter fuel]. *)
Lemma bruteforce_loop_counter (SHA1 : list byte -> list byte) (fuel : nat)
  (out buff : list byte) (len off : Z) (pfx : list byte) (plen c step : Z) :
  match bruteforce_loop SHA1 fuel out buff len off pfx plen c step with
  | Spinning _ c' => c' = counter_at step c fuel
  | _ => True
  end.
Proof.
  rewrite bruteforce_loop_search_loop.
  pose proof (search_loop_inv SHA1 (test_prefix pfx plen) fuel out buff len off
                c step) as H.
  destruct (search_loop _ _ _ _ _ _ _ _ _); [exact I | apply H | exact I].
Qed.

(** The same of the loop with the half digit. *)
Lemma bruteforce_loop_with_half_dig_counter (SHA1 : list byte -> list byte)
  (fuel : nat) (out buff : list byte) (len off : Z) (pfx : list byte)
  (plen c step half_dig : Z) :
  match bruteforce_loop_with_half_dig SHA1 fuel out buff len off pfx plen c
          step half_dig with
  | Spinning _ c' => c' = counter_at step c fuel
  | _ => True
  end.
Proof.
  rewrite bruteforce_loop_with_half_dig_search_loop.
  pose proof (search_loop_inv SHA1 (test_prefix_half_dig pfx plen half_dig)
                fuel out buff len off c step) as H.
  destruct (search_loop _ _ _ _ _ _ _ _ _); [exact I | apply H | exact I].
Qed.

(** The block of a worker whose thread has entered its loop holds the nonce
    of the counter the thread tested last; a thread found still running
    has tested the counter of every iteration so far. *)
Lemma worker_thread_main_last_counter (SHA1 : list byte -> list byte)
  (fuel : nat) (w w' : worker_t) :
  worker_thread_main SHA1 (S fuel) w = Some w' ->
  exists k : nat,
    (k <= fuel)%nat
    /\ scratch_buff w'
       = write_counter_hex (scratch_buff w) (counter_offset w)
           (counter_at (stride w) (counter w) k)
    /\ (complete w' = 0 -> k = fuel).
Proof.
  rewrite worker_thread_main_search_loop.
  pose proof (search_loop_inv SHA1 (worker_test w) (S fuel) (sha w)
                (scratch_buff w) (scratch_len w) (counter_offset w)
                (counter w) (stride w)) as Hinv.
  destruct (search_loop _ _ _ _ _ _ _ _ _) as [b out | b c |];
    intros Hw; [| | discriminate]; injection Hw as <-;
    cbn [scratch_buff complete].
  - destruct Hinv as (k & Hk & Hb & _).
    exists k. split; [lia | split; [exact Hb | discriminate]].
  - destruct Hinv as [_ Hb].
    exists fuel. split; [lia | split; [exact Hb | reflexivity]].
Qed.

(** The counter and the stride [setup_worker] stores: the index of the
    worker as a [size_t], and the number of workers. *)
Lemma setup_worker_counter_stride (uninit : nat -> byte) (w0 : worker_t)
  (commit_data : list byte) (commit_data_len : Z) (pfx : list byte)
  (plen half i ncpus : Z) (w : worker_t) :
  setup_worker uninit w0 commit_data commit_data_len pfx plen half i ncpus
  = Some w ->
  counter w = to_size_t i /\ stride w = ncpus.
Proof.
  unfold setup_worker. cbv zeta.
  destruct (half =? 0).
  - intros H. injection H as <-. split; reflexivity.
  - destruct (read pfx _) as [b |]; [| discriminate].
    intros H. injection H as <-. split; reflexivity.
Qed.

(** A loop whose test fails on every digest keeps running, and is about to
    test [counter_at stride counter fuel] after [fuel] iterations. *)
Lemma search_loop_never_matches (SHA1 : list byte -> list byte)
  (test : list byte -> option bool) (fuel : nat) (out buff : list byte)
  (len off c step : Z) :
  (forall msg : list byte, test (SHA1 msg) = Some false) ->
  exists b : list byte,
    search_loop SHA1 test fuel out buff len off c step
    = Spinning b (counter_at step c fuel).
Proof.
  intros Hnever. revert buff c.
  induction fuel as [| fuel IH]; intros buff c.
  - exists buff. reflexivity.
  - cbn [search_loop]. cbv zeta. rewrite Hnever.
    destruct (IH (write_counter_hex buff off c) (to_size_t (c + step)))
      as [b Hb].
    exists b. rewrite Hb. reflexivity.
Qed.

Section WorkerCounters.

Variable SHA1 : list byte -> list byte.
Variable uninit : nat -> byte.

(** C5, as the code has it.  For [W] workers ([W] is a positive [int]),
    the worker [setup_worker] builds for index [i] holds the counter [i]
    and the stride [W]; either loop, entered with them, is about to test
    [counter_at W i fuel] after [fuel] iterations without a match, and the
    block of the worker's thread holds the nonce of the counter it tested
    last.  As long as no counter has wrapped around ([i + k*W < 2^64]) the
    counter of iteration [k] is [i + k*W], two workers never test the same
    value, no worker tests a value twice, and every value below [2^64] is
    the counter of exactly one worker in exactly one iteration. *)
Theorem worker_counters_partition (W : Z) :
  1 <= W <= INT_MAX ->
  (forall (w0 : worker_t) (commit_data : list byte) (commit_data_len : Z)
          (pfx : list byte) (plen half i : Z) (w : worker_t),
      0 <= i < W ->
      setup_worker uninit w0 commit_data commit_data_len pfx plen half i W
      = Some w ->
      counter w = i /\ stride w = W
      /\ (forall fuel : nat,
             match bruteforce_loop SHA1 fuel (sha w) (scratch_buff w)
                     (scratch_len w) (counter_offset w) (prefix w)
                     (prefix_len w) (counter w) (stride w) with
             | Spinning _ c' => c' = counter_at W i fuel
             | _ => True
             end)
      /\ (forall fuel : nat,
             match bruteforce_loop_with_half_dig SHA1 fuel (sha w)
                     (scratch_buff w) (scratch_len w) (counter_offset w)
                     (prefix w) (prefix_len w) (counter w) (stride w)
                     (prefix_half_dig w) with
             | Spinning _ c' => c' = counter_at W i fuel
             | _ => True
             end)
      /\ (forall (fuel : nat) (w' : worker_t),
             worker_thread_main SHA1 (S fuel) (clear_complete w) = Some w' ->
             exists k : nat,
               (k <= fuel)%nat
               /\ scratch_buff w'
                  = write_counter_hex (scratch_buff w) (counter_offset w)
                      (counter_at W i k)
               /\ (complete w' = 0 -> k = fuel))
      /\ (forall k : nat,
             i + Z.of_nat k * W < 2 ^ 64 ->
             counter_at (stride w) (counter w) k = i + Z.of_nat k * W))
  /\ (forall (w0 w0' : worker_t) (commit_data commit_data' : list byte)
             (commit_data_len commit_data_len' : Z) (pfx pfx' : list byte)
             (plen plen' half half' i j : Z) (w w' : worker_t)
             (k1 k2 : nat),
         0 <= i < W -> 0 <= j < W ->
         setup_worker uninit w0 commit_data commit_data_len pfx plen half i W
         = Some w ->
         setup_worker uninit w0' commit_data' commit_data_len' pfx' plen'
           half' j W = Some w' ->
         i + Z.of_nat k1 * W < 2 ^ 64 -> j + Z.of_nat k2 * W < 2 ^ 64 ->
         counter_at (stride w) (counter w) k1
         = counter_at (stride w') (counter w') k2 ->
         i = j /\ k1 = k2)
  /\ (forall n : Z,
         0 <= n < 2 ^ 64 ->
         exists (i : Z) (k : nat),
           0 <= i < W /\ i + Z.of_nat k * W = n
           /\ forall (w0 : worker_t) (commit_data : list byte)
                     (commit_data_len : Z) (pfx : list byte) (plen half : Z)
                     (w : worker_t),
                setup_worker uninit w0 commit_data commit_data_len pfx plen
                  half i W = Some w ->
                counter_at (stride w) (counter w) k = n).
Proof.
  intros HW.
  assert (HWmax : W < 2 ^ 64) by (unfold INT_MAX in HW; lia).
  assert (Hfields : forall w0 commit_data commit_data_len pfx plen half i w,
             0 <= i < W ->
             setup_worker uninit w0 commit_data commit_data_len pfx plen half
               i W = Some w ->
             counter w = i /\ stride w = W).
  { intros w0 commit_data commit_data_len pfx plen half i w Hi Hsetup.
    destruct (setup_worker_counter_stride _ _ _ _ _ _ _ _ _ _ Hsetup)
      as [Hc Hs].
    rewrite Hc, Hs, to_size_t_small by lia. split; reflexivity. }
  split; [| split].
  - intros w0 commit_data commit_data_len pfx plen half i w Hi Hsetup.
    destruct (Hfields _ _ _ _ _ _ _ _ Hi Hsetup) as [Hc Hs].
    split; [exact Hc | split; [exact Hs |]].
    split; [| split; [| split]].
    + intros fuel.
      pose proof (bruteforce_loop_counter SHA1 fuel (sha w) (scratch_buff w)
                    (scratch_len w) (counter_offset w) (prefix w)
                    (prefix_len w) (counter w) (stride w)) as H.
      destruct (bruteforce_loop _ _ _ _ _ _ _ _ _ _); [exact I | | exact I].
      rewrite H, Hc, Hs. reflexivity.
    + intros fuel.
      pose proof (bruteforce_loop_with_half_dig_counter SHA1 fuel (sha w)
                    (scratch_buff w) (scratch_len w) (counter_offset w)
                    (prefix w) (prefix_len w) (counter w) (stride w)
                    (prefix_half_dig w)) as H.
      destruct (bruteforce_loop_with_half_dig _ _ _ _ _ _ _ _ _ _ _);
        [exact I | | exact I].
      rewrite H, Hc, Hs. reflexivity.
    + intros fuel w' Hmain.
      destruct (worker_thread_main_last_counter SHA1 fuel _ _ Hmain)
        as (k & Hk & Hb & Hlast).
      cbn [clear_complete scratch_buff counter_offset stride counter] in Hb.
      rewrite Hc, Hs in Hb.
      exists k. split; [exact Hk | split; [exact Hb | exact Hlast]].
    + intros k Hlt. rewrite Hc, Hs. apply counter_at_no_wrap; lia.
  - intros w0 w0' commit_data commit_data' commit_data_len commit_data_len'
      pfx pfx' plen plen' half half' i j w w' k1 k2 Hi Hj Hsetup Hsetup'
      H1 H2 Heq.
    destruct (Hfields _ _ _ _ _ _ _ _ Hi Hsetup) as [Hc Hs].
    destruct (Hfields _ _ _ _ _ _ _ _ Hj Hsetup') as [Hc' Hs'].
    rewrite Hc, Hs, Hc', Hs' in Heq.
    rewrite !counter_at_no_wrap in Heq by lia.
    assert (Hk : Z.of_nat k1 = Z.of_nat k2) by nia.
    split; [nia | lia].
  - intros n Hn. exists (n mod W), (Z.to_nat (n / W)).
    pose proof (Z.mod_pos_bound n W ltac:(lia)) as Hm.
    pose proof (Z.div_mod n W ltac:(lia)) as Hdm.
    assert (Hq : 0 <= n / W) by (apply Z.div_pos; lia).
    assert (Hsum : n mod W + Z.of_nat (Z.to_nat (n / W)) * W = n)
      by (rewrite Z2Nat.id by exact Hq; lia).
    split; [exact Hm | split; [exact Hsum |]].
    intros w0 commit_data commit_data_len pfx plen half w Hsetup.
    destruct (Hfields _ _ _ _ _ _ _ _ Hm Hsetup) as [Hc Hs].
    rewrite Hc, Hs, counter_at_no_wrap by lia. exact Hsum.
Qed.

End WorkerCounters.

(** Worker 2 of three, on the sample commit: two iterations without a match
    leave the nonce of [2 + 3] in its block and the loop about to test
    [2 + 2*3]. *)
Lemma worker_counters_partition_witness :
  1 <= 3 <= INT_MAX
  /\ exists w w' : worker_t,
       setup_worker stale_bytes (stale_worker 2%nat) sample_commit
         (Z.of_nat (length sample_commit)) [byte_of 0] 1 0 2 3 = Some w
       /\ counter w = 2 /\ stride w = 3
       /\ worker_thread_main Sha1.sha1 2 (clear_complete w) = Some w'
       /\ complete w' = 0
       /\ scratch_buff w'
          = write_counter_hex (scratch_buff w) (counter_offset w) 5
       /\ (exists b : list byte,
              bruteforce_loop Sha1.sha1 2 (sha w) (scratch_buff w)
                (scratch_len w) (counter_offset w) (prefix w) (prefix_len w)
                (counter w) (stride w) = Spinning b 8).
Proof.
  split; [unfold INT_MAX; lia |].
  eassert (Hsetup : setup_worker stale_bytes (stale_worker 2%nat)
                      sample_commit (Z.of_nat (length sample_commit))
                      [byte_of 0] 1 0 2 3 = Some _)
    by (vm_compute; reflexivity).
  match type of Hsetup with
  | _ = Some ?r =>
      eassert (Hmain : worker_thread_main Sha1.sha1 2 (clear_complete r)
                       = Some _)
        by (vm_compute; reflexivity)
  end.
  destruct (worker_counters_partition Sha1.sha1 stale_bytes 3
              ltac:(unfold INT_MAX; lia))
    as (Hworker & _ & _).
  destruct (Hworker _ _ _ _ _ _ 2 _ ltac:(lia) Hsetup)
    as (Hc & Hs & Hloop & _ & Hthread & _).
  destruct (Hthread 1%nat _ Hmain) as (k & _ & Hb & Hlast).
  rewrite (Hlast eq_refl) in Hb.
  pose proof (Hloop 2%nat) as Hloop2.
  eexists. eexists.
  split; [exact Hsetup | split; [exact Hc | split; [exact Hs |]]].
  split; [exact Hmain | split; [reflexivity | split; [exact Hb |]]].
  destruct (bruteforce_loop _ _ _ _ _ _ _ _ _ _) as [b out | b c |] eqn:E.
  - exfalso. vm_compute in E. discriminate.
  - exists b. rewrite Hloop2. reflexivity.
  - exfalso. vm_compute in E. discriminate.
Defined.

(** C5 as stated fails for the counters as computed.  With three workers,
    worker 0 and worker 2 as [setup_worker] builds them: the counter of
    worker 0 wraps around after [2^64 / 3] iterations and is then 2, the
    first counter of worker 2.  A loop that finds no match (here the digest
    is constant and does not start with the prefix) is then about to test
    2, the counter the loop of worker 2 tests first. *)
Lemma worker_counters_collide_after_wrap :
  exists w0 w2 : worker_t,
    setup_worker stale_bytes (stale_worker 0%nat) sample_commit
      (Z.of_nat (length sample_commit)) [byte_of 1] 1 0 0 3 = Some w0
    /\ setup_worker stale_bytes (stale_worker 2%nat) sample_commit
         (Z.of_nat (length sample_commit)) [byte_of 1] 1 0 2 3 = Some w2
    /\ counter_at (stride w0) (counter w0) (Z.to_nat 6148914691236517206) = 2
    /\ counter_at (stride w2) (counter w2) 0 = 2
    /\ (exists b : list byte,
           bruteforce_loop (fun _ => replicate 20 NUL)
             (Z.to_nat 6148914691236517206) (sha w0) (scratch_buff w0)
             (scratch_len w0) (counter_offset w0) (prefix w0) (prefix_len w0)
             (counter w0) (stride w0) = Spinning b 2)
    /\ bruteforce_loop (fun _ => replicate 20 NUL) 0 (sha w2)
         (scratch_buff w2) (scratch_len w2) (counter_offset w2) (prefix w2)
         (prefix_len w2) (counter w2) (stride w2)
       = Spinning (scratch_buff w2) 2.
Proof.
  eassert (E0 : setup_worker stale_bytes (stale_worker 0%nat) sample_commit
                  (Z.of_nat (length sample_commit)) [byte_of 1] 1 0 0 3
                = Some _)
    by (vm_compute; reflexivity).
  eassert (E2 : setup_worker stale_bytes (stale_worker 2%nat) sample_commit
                  (Z.of_nat (length sample_commit)) [byte_of 1] 1 0 2 3
                = Some _)
    by (vm_compute; reflexivity).
  destruct (setup_worker_counter_stride _ _ _ _ _ _ _ _ _ _ E0) as [Hc0 Hs0].
  destruct (setup_worker_counter_stride _ _ _ _ _ _ _ _ _ _ E2) as [Hc2 Hs2].
  destruct (setup_worker_prefix_full stale_bytes _ _ _ [byte_of 1] _ _ _ E0)
    as (_ & Hp0 & Hl0).
  assert (Hwrap : counter_at 3 (to_size_t 0) (Z.to_nat 6148914691236517206)
                  = 2).
  { rewrite counter_at_closed
      by (unfold to_size_t; apply Z.mod_pos_bound; lia).
    rewrite Z2Nat.id by lia. reflexivity. }
  eexists. eexists.
  split; [exact E0 | split; [exact E2 |]].
  split; [rewrite Hs0, Hc0; exact Hwrap |].
  split; [rewrite Hc2; reflexivity |].
  split; [| rewrite Hc2; reflexivity].
  rewrite bruteforce_loop_search_loop, Hp0, Hl0, Hc0, Hs0.
  match goal with
  | |- exists b, search_loop ?h ?t ?n ?o ?bf ?l ?off ?c ?st = _ =>
      destruct (search_loop_never_matches h t n o bf l off c st
                  ltac:(intros msg; reflexivity))
        as [b Hb]
  end.
  exists b. rewrite <- Hwrap. exact Hb.
Qed.

(** ** The scan of the worker array *)

(** The scan returns the buffer and digest of the lowest-indexed worker
    whose [complete] flag is set when the array is scanned, whatever the
    later workers hold. *)
Lemma scan_workers_lowest_index (workers : list worker_t) (i : nat)
  (w : worker_t) :
  workers !! i = Some w ->
  complete w <> 0 ->
  (forall (j : nat) (w' : worker_t),
      (j < i)%nat -> workers !! j = Some w' -> complete w' = 0) ->
  scan_workers workers
  = RArray [rb_str_new (scratch_buff w) (scratch_len w); rb_str_new (sha w) 20].
Proof.
  revert i. induction workers as [| w0 ws IH]; intros i Hi Hc Hlow.
  - discriminate.
  - destruct i as [| i]; simpl in Hi |- *.
    + injection Hi as ->.
      destruct (complete w =? 0) eqn:E; [apply Z.eqb_eq in E; contradiction |].
      reflexivity.
    + rewrite (Hlow 0%nat w0 ltac:(lia) eq_refl). simpl.
      apply (IH i Hi Hc). intros j w' Hj Hw'.
      apply (Hlow (S j) w'); [lia | exact Hw'].
Qed.

Lemma scan_workers_sample :
  scan_workers [scanned_worker 9 0; scanned_worker 7 1; scanned_worker 2 1]
  = RArray [RString (bytes_of_string "commit 26" ++ [NUL]
                       ++ bytes_of_string "tree ..." ++ [LF; LF]
                       ++ bytes_of_string "7000000000000000");
            RString (replicate 20 (byte_of 7))].
Proof. reflexivity. Qed.

Section LowestIndex.

Variable SHA1 : list byte -> list byte.
Variable uninit : nat -> byte.
Variable uninit_worker : nat -> worker_t.

Lemma run_threads_length sched i (workers workers' : list worker_t) :
  run_threads SHA1 sched i workers = Some workers' ->
  length workers' = length workers.
Proof.
  revert i workers'. induction workers as [| w ws IH]; intros i workers'; simpl.
  - intros H. injection H as <-. reflexivity.
  - destruct (worker_thread_main _ _ w) as [w1 |]; simpl; [| discriminate].
    destruct (run_threads _ _ _ ws) as [ws' |] eqn:Ews; simpl; [| discriminate].
    intros H. injection H as <-. simpl. f_equal. apply (IH _ _ Ews).
Qed.

(** The worker array the coordinator scans: slot [i] holds the worker
    [setup_worker] built for index [i], its flag cleared, after its thread
    has run [sched i] iterations. *)
Lemma start_bruteforce_scans sched commit_data commit_data_len
  (pfx : list byte) plen half ncpus (v : VALUE) :
  start_bruteforce SHA1 uninit uninit_worker sched commit_data
    commit_data_len pfx plen half ncpus = Some v ->
  exists workers : list worker_t,
    v = scan_workers workers
    /\ length workers = Z.to_nat ncpus
    /\ forall (j : nat) (w' : worker_t),
         workers !! j = Some w' ->
         exists w0 : worker_t,
           setup_worker uninit (uninit_worker j) commit_data commit_data_len
             pfx plen half (Z.of_nat j) ncpus = Some w0
           /\ worker_thread_main SHA1 (sched j) (clear_complete w0) = Some w'.
Proof.
  unfold start_bruteforce.
  destruct (setup_workers _ _ _ _ _ _ _ _ _ _) as [ws |] eqn:Esetup;
    simpl; [| discriminate].
  destruct (run_threads _ _ _ ws) as [ws' |] eqn:Erun; simpl; [| discriminate].
  intros H. injection H as <-.
  destruct (setup_workers_lookup _ _ _ 0 _ _ _ _ _ _ _ (Z.le_refl 0) Esetup)
    as [Hlen Hlook].
  exists ws'. split; [reflexivity |].
  split; [rewrite (run_threads_length _ _ _ _ Erun); exact Hlen |].
  intros j w' Hj.
  destruct (run_threads_lookup _ _ _ _ _ Erun j w' Hj) as (w & Hw & Hmain).
  destruct (Hlook j w Hw) as (w0 & Hw0 & ->).
  exists w0. split; [exact Hw0 | exact Hmain].
Qed.

(** C6: the pair the search returns is that of the lowest-indexed worker
    found complete.  Worker [i] is the one [setup_worker] built for index
    [i], after its thread has run the [sched i] iterations it got before
    the scan; if its flag is set then and the flag of no worker before it
    is, the search returns the block and the digest of worker [i], whatever
    the later workers hold: the tie is broken by index, the counters play
    no part. *)
Theorem start_bruteforce_returns_lowest_index (sched : nat -> nat)
  (commit_data : list byte) (commit_data_len : Z) (pfx : list byte)
  (plen half ncpus : Z) (i : nat) (w0 w : worker_t) (v : VALUE) :
  start_bruteforce SHA1 uninit uninit_worker sched commit_data
    commit_data_len pfx plen half ncpus = Some v ->
  Z.of_nat i < ncpus ->
  setup_worker uninit (uninit_worker i) commit_data commit_data_len pfx plen
    half (Z.of_nat i) ncpus = Some w0 ->
  worker_thread_main SHA1 (sched i) (clear_complete w0) = Some w ->
  complete w <> 0 ->
  (forall (j : nat) (w0' w' : worker_t),
      (j < i)%nat ->
      setup_worker uninit (uninit_worker j) commit_data commit_data_len pfx
        plen half (Z.of_nat j) ncpus = Some w0' ->
      worker_thread_main SHA1 (sched j) (clear_complete w0') = Some w' ->
      complete w' = 0) ->
  v = RArray [rb_str_new (scratch_buff w) (scratch_len w);
              rb_str_new (sha w) 20].
Proof.
  intros Hv Hi Hsetup Hmain Hc Hlow.
  destruct (start_bruteforce_scans _ _ _ _ _ _ _ _ Hv)
    as (workers & -> & Hlen & Hlook).
  destruct (lookup_lt_is_Some_2 workers i ltac:(lia)) as [wi Hwi].
  destruct (Hlook i wi Hwi) as (w0i & Hw0i & Hmaini).
  rewrite Hsetup in Hw0i. injection Hw0i as <-.
  rewrite Hmain in Hmaini. injection Hmaini as <-.
  apply (scan_workers_lowest_index workers i w Hwi Hc).
  intros j w' Hj Hw'.
  destruct (Hlook j w' Hw') as (w0' & Hw0' & Hmain').
  apply (Hlow j w0' w' Hj Hw0' Hmain').
Qed.

End LowestIndex.

(** Three workers, the half digit [0] requested; when the coordinator
    scans, thread 0 has run one iteration, thread 1 twenty-eight and thread
    2 four.  Worker 0 is still running, worker 1 has matched with counter
    82 and worker 2 with counter 11: the search returns the block of worker
    1, the one with the larger counter. *)
Lemma start_bruteforce_returns_lowest_index_witness :
  (exists w2' w2 : worker_t,
      setup_worker stale_bytes (stale_worker 2%nat) sample_commit
        (Z.of_nat (length sample_commit)) [byte_of 0] 1 1 2 3 = Some w2'
      /\ worker_thread_main Sha1.sha1 4 (clear_complete w2') = Some w2
      /\ complete w2 = 1
      /\ drop 21 (take 37 (scratch_buff w2)) = nonce_hex 11)
  /\ start_bruteforce Sha1.sha1 stale_bytes stale_worker
       (fun i => match i with O => 1 | 1 => 28 | _ => 4 end)%nat
       sample_commit (Z.of_nat (length sample_commit)) [byte_of 0] 1 1 3
     = Some (RArray
               [RString (header 27 ++ sample_commit ++ [LF; LF]
                           ++ nonce_hex 82);
                RString (Sha1.sha1 (header 27 ++ sample_commit ++ [LF; LF]
                                      ++ nonce_hex 82))]).
Proof.
  split.
  - eexists. eexists. split; [vm_compute; reflexivity |].
    split; [vm_compute; reflexivity |].
    split; vm_compute; reflexivity.
  - eassert (Hsetup : setup_worker stale_bytes (stale_worker 1%nat)
                        sample_commit (Z.of_nat (length sample_commit))
                        [byte_of 0] 1 1 (Z.of_nat 1) 3 = Some _)
      by (vm_compute; reflexivity).
    match type of Hsetup with
    | _ = Some ?r =>
        eassert (Hmain : worker_thread_main Sha1.sha1 28 (clear_complete r)
                         = Some _)
          by (vm_compute; reflexivity)
    end.
    destruct (start_bruteforce Sha1.sha1 stale_bytes stale_worker
                (fun i => match i with O => 1 | 1 => 28 | _ => 4 end)%nat
                sample_commit (Z.of_nat (length sample_commit)) [byte_of 0]
                1 1 3) as [v |] eqn:Hv;
      [| exfalso; vm_compute in Hv; discriminate].
    rewrite (start_bruteforce_returns_lowest_index Sha1.sha1 stale_bytes
               stale_worker _ _ _ _ _ _ _ 1%nat _ _ v Hv ltac:(lia)
               Hsetup Hmain).
    + vm_compute. reflexivity.
    + cbn [complete]. discriminate.
    + intros j w0' w' Hj Hsetup' Hmain'.
      destruct j as [| j]; [| lia].
      vm_compute in Hsetup'. injection Hsetup' as <-.
      vm_compute in Hmain'. injection Hmain' as <-.
      reflexivity.
Defined.

(** ** The entry point *)

Section EntryPoint.

Variable SHA1 : list byte -> list byte.
Variable uninit : nat -> byte.
Variable uninit_worker : nat -> worker_t.
Variable FIX2INT : Z -> exception + Z.

(** C7, as the code has it: [bruteforce] raises, and then no worker has
    been set up and no search started, exactly when [commit_data] or
    [sha_prefix] is not a string, [ncpus] is not a fixnum, [FIX2INT(ncpus)]
    raises or is [<= 0], or [sha_prefix] is longer than 20 bytes; on every
    other input it calls [start_bruteforce] with the two strings, their
    lengths, the truth value of the half-digit flag and the [int], with no
    further check. *)
Theorem bruteforce_raises_iff sched
  (commit_data sha_prefix sha_prefix_half_hex_dig ncpus : VALUE) :
  ((exists e,
       bruteforce SHA1 uninit uninit_worker FIX2INT sched commit_data
         sha_prefix sha_prefix_half_hex_dig ncpus = inl e)
   <-> (TYPE commit_data <> T_STRING
        \/ TYPE sha_prefix <> T_STRING
        \/ TYPE ncpus <> T_FIXNUM
        \/ (exists n, ncpus = Fixnum n
                      /\ ((exists e, FIX2INT n = inl e)
                          \/ (exists k, FIX2INT n = inr k /\ k <= 0)))
        \/ (exists pre, sha_prefix = RString pre /\ (20 < length pre)%nat)))
  /\ (forall data pre n k,
         commit_data = RString data -> sha_prefix = RString pre ->
         ncpus = Fixnum n -> FIX2INT n = inr k -> 0 < k ->
         (length pre <= 20)%nat ->
         bruteforce SHA1 uninit uninit_worker FIX2INT sched commit_data
           sha_prefix sha_prefix_half_hex_dig ncpus
         = inr (start_bruteforce SHA1 uninit uninit_worker sched data
                  (Z.of_nat (length data)) pre (Z.of_nat (length pre))
                  (RTEST sha_prefix_half_hex_dig) k)).
Proof.
  assert (Hgo : forall data pre n k,
             commit_data = RString data -> sha_prefix = RString pre ->
             ncpus = Fixnum n -> FIX2INT n = inr k -> 0 < k ->
             (length pre <= 20)%nat ->
             bruteforce SHA1 uninit uninit_worker FIX2INT sched commit_data
               sha_prefix sha_prefix_half_hex_dig ncpus
             = inr (start_bruteforce SHA1 uninit uninit_worker sched data
                      (Z.of_nat (length data)) pre (Z.of_nat (length pre))
                      (RTEST sha_prefix_half_hex_dig) k)).
  { intros data pre n k -> -> -> Hk Hpos Hlen. unfold bruteforce. rewrite Hk.
    destruct (k <=? 0) eqn:E1; [apply Z.leb_le in E1; lia |].
    destruct (Z.of_nat (length pre) >? 20) eqn:E2; [| reflexivity].
    apply Z.gtb_lt in E2. lia. }
  split; [| exact Hgo]. split.
  - intros [e He].
    destruct commit_data as [| | | | | | data |];
      try (left; discriminate).
    destruct sha_prefix as [| | | | | | pre |];
      try (right; left; discriminate).
    destruct ncpus as [| | | n | | | |];
      try (right; right; left; discriminate).
    do 3 right.
    destruct (FIX2INT n) as [e' | k] eqn:Ek.
    { left. exists n. split; [reflexivity |]. left. exists e'. exact Ek. }
    destruct (Z_le_gt_dec k 0) as [Hk | Hk].
    { left. exists n. split; [reflexivity |]. right. exists k.
      split; [exact Ek | exact Hk]. }
    right. exists pre. split; [reflexivity |].
    destruct (le_lt_dec (length pre) 20) as [Hlen | Hlen]; [| exact Hlen].
    rewrite (Hgo data pre n k eq_refl eq_refl eq_refl Ek ltac:(lia) Hlen) in He.
    discriminate.
  - intros [H | [H | [H | [H | H]]]].
    + destruct commit_data; try (eexists; reflexivity). contradiction.
    + destruct commit_data; try (eexists; reflexivity).
      destruct sha_prefix; try (eexists; reflexivity). contradiction.
    + destruct commit_data; try (eexists; reflexivity).
      destruct sha_prefix; try (eexists; reflexivity).
      destruct ncpus; try (eexists; reflexivity). contradiction.
    + destruct H as (n & -> & Hn).
      destruct commit_data; try (eexists; reflexivity).
      destruct sha_prefix; try (eexists; reflexivity).
      destruct Hn as [[e He] | (k & Hk & Hle)]; unfold bruteforce.
      * rewrite He. eexists. reflexivity.
      * rewrite Hk. apply Z.leb_le in Hle. rewrite Hle. eexists. reflexivity.
    + destruct H as (pre & -> & Hlen).
      destruct commit_data; try (eexists; reflexivity).
      destruct ncpus; try (eexists; reflexivity).
      unfold bruteforce.
      destruct (FIX2INT _) as [e | k]; [eexists; reflexivity |].
      destruct (k <=? 0); [eexists; reflexivity |].
      replace (Z.of_nat (length pre) >? 20) with true
        by (symmetry; apply Z.gtb_lt; lia).
      eexists. reflexivity.
Qed.

End EntryPoint.

(** C7 as stated fails: for two strings, a prefix of at most 20 bytes and
    the fixnum [2^31], which is positive, [bruteforce] raises: [RangeError]
    from [FIX2INT]; and were the conversion a plain C conversion to [int],
    the [TypeError] of the [ncpus <= 0] check. *)
Lemma bruteforce_raises_on_wide_ncpus :
  bruteforce Sha1.sha1 stale_bytes stale_worker rb_fix2int (fun _ => 4%nat)
    (RString sample_commit) (RString [byte_of 0]) Qfalse (Fixnum (2 ^ 31))
  = inl (RangeError "integer too big to convert to int")
  /\ bruteforce Sha1.sha1 stale_bytes stale_worker long_to_int (fun _ => 4%nat)
       (RString sample_commit) (RString [byte_of 0]) Qfalse (Fixnum (2 ^ 31))
     = inl (TypeError "expected ncpus to be > 0")
  /\ TYPE (RString sample_commit) = T_STRING
  /\ TYPE (RString [byte_of 0]) = T_STRING
  /\ TYPE (Fixnum (2 ^ 31)) = T_FIXNUM
  /\ 0 < 2 ^ 31
  /\ (length [byte_of 0] <= 20)%nat.
Proof.
  repeat split; try reflexivity. simpl. lia.
Qed.

(** ** Memory safety of the half-digit path *)

Lemma memcmp_in_bounds (s1 s2 : list byte) (n : nat) :
  (n <= length s1)%nat -> (n <= length s2)%nat ->
  exists c, memcmp s1 s2 n = Some c.
Proof.
  revert s1 s2. induction n as [| n IH]; intros s1 s2 H1 H2; simpl.
  - exists 0. reflexivity.
  - destruct s1 as [| a s1]; [simpl in H1; lia |].
    destruct s2 as [| b s2]; [simpl in H2; lia |].
    destruct (byte_val a =? byte_val b).
    + apply IH; simpl in *; lia.
    + eexists. reflexivity.
Qed.

Lemma test_prefix_half_dig_in_bounds (pfx sha : list byte) (n : nat) (half : Z) :
  (n <= length pfx)%nat -> (n < length sha)%nat ->
  exists r, test_prefix_half_dig pfx (Z.of_nat n) half sha = Some r.
Proof.
  intros Hp Hs. unfold test_prefix_half_dig.
  assert (Hc : exists c,
    (if Z.of_nat n =? 0 then Some 0 else memcmp_n sha pfx (Z.of_nat n)) = Some c).
  { destruct (Z.of_nat n =? 0); [exists 0; reflexivity |].
    unfold memcmp_n.
    replace (Z.of_nat n <=? Z.of_nat (length sha)) with true
      by (symmetry; apply Z.leb_le; lia).
    replace (Z.of_nat n <=? Z.of_nat (length pfx)) with true
      by (symmetry; apply Z.leb_le; lia).
    simpl. rewrite Nat2Z.id. apply memcmp_in_bounds; lia. }
  destruct Hc as [c ->]. simpl.
  destruct (c =? 0); [| eexists; reflexivity].
  unfold read.
  replace (0 <=? Z.of_nat n) with true by (symmetry; apply Z.leb_le; lia).
  replace (Z.of_nat n <? Z.of_nat (length sha)) with true
    by (symmetry; apply Z.ltb_lt; lia).
  simpl. rewrite Nat2Z.id.
  destruct (sha !! n) as [b |] eqn:E.
  - simpl. eexists. reflexivity.
  - apply lookup_ge_None in E. lia.
Qed.

Lemma search_loop_no_fault (SHA1 : list byte -> list byte)
  (test : list byte -> option bool) (fuel : nat) (out buff : list byte)
  (len off c step : Z) :
  (forall msg, exists r, test (SHA1 msg) = Some r) ->
  search_loop SHA1 test fuel out buff len off c step <> Fault.
Proof.
  intros Htest. revert buff c.
  induction fuel as [| fuel IH]; intros buff c; simpl.
  - discriminate.
  - destruct (Htest (take (Z.to_nat len) (write_counter_hex buff off c)))
      as [[|] ->]; [discriminate | apply IH].
Qed.

Section HalfDigitSafety.

Variable SHA1 : list byte -> list byte.
Hypothesis SHA1_length : forall msg, length (SHA1 msg) = 20%nat.
Variable uninit : nat -> byte.
Variable uninit_worker : nat -> worker_t.
Variable FIX2INT : Z -> exception + Z.

(** C10: with the half digit requested, [bruteforce] lets an empty
    [sha_prefix] through to the search; [setup_worker] then computes the
    length [0 - 1] in [size_t], which is [SIZE_MAX], and reads the prefix at
    that index, [SIZE_MAX] bytes on from its start, which as an address is
    one byte before it: a read outside the block, so the search is
    undefined; the loop entered with that length would read outside the
    digest as well.  For a prefix of 1 to 20 bytes [setup_worker] succeeds with
    the length [length pfx - 1] and the worker's loop never reads outside
    a block.  So the half-digit path is memory safe (for at most 20 bytes)
    exactly when the prefix has at least one byte. *)
Theorem half_dig_needs_nonempty_prefix :
  (forall sched data half n k,
      FIX2INT n = inr k -> 0 < k -> RTEST half = 1 ->
      bruteforce SHA1 uninit uninit_worker FIX2INT sched (RString data)
        (RString []) half (Fixnum n)
      = inr (start_bruteforce SHA1 uninit uninit_worker sched data
               (Z.of_nat (length data)) [] 0 1 k))
  /\ to_size_t (0 - 1) = SIZE_MAX
  /\ (forall p, to_size_t (p + to_size_t (0 - 1)) = to_size_t (p - 1))
  /\ read [] (to_size_t (0 - 1)) = None
  /\ (forall w0 commit_data commit_data_len i ncpus,
         setup_worker uninit w0 commit_data commit_data_len [] 0 1 i ncpus
         = None)
  /\ (forall sched commit_data commit_data_len ncpus,
         1 <= ncpus ->
         start_bruteforce SHA1 uninit uninit_worker sched commit_data
           commit_data_len [] 0 1 ncpus = None)
  /\ (forall fuel out buff len off pfx c step half,
         bruteforce_loop_with_half_dig SHA1 (S fuel) out buff len off pfx
           (to_size_t (0 - 1)) c step half = Fault)
  /\ (forall w0 commit_data commit_data_len (pfx : list byte) i ncpus,
         (length pfx <= 20)%nat ->
         ((1 <= length pfx)%nat
          <-> exists w,
                setup_worker uninit w0 commit_data commit_data_len pfx
                  (Z.of_nat (length pfx)) 1 i ncpus = Some w
                /\ prefix_len w = Z.of_nat (length pfx) - 1
                /\ forall fuel, worker_thread_main SHA1 fuel w <> None)).
Proof.
  assert (Hsetup0 : forall w0 commit_data commit_data_len i ncpus,
             setup_worker uninit w0 commit_data commit_data_len [] 0 1 i ncpus
             = None) by reflexivity.
  split; [| split; [reflexivity | split; [| split; [reflexivity |
    split; [exact Hsetup0 | split; [| split]]]]]].
  - intros sched data half n k Hk Hpos Hhalf. unfold bruteforce.
    rewrite Hk, Hhalf.
    destruct (k <=? 0) eqn:E; [apply Z.leb_le in E; lia |]. reflexivity.
  - intros p. unfold to_size_t. rewrite Zplus_mod_idemp_r. reflexivity.
  - intros sched commit_data commit_data_len ncpus Hn.
    unfold start_bruteforce.
    destruct (Z.to_nat ncpus) as [| n] eqn:E; [lia |].
    cbn [setup_workers]. rewrite Hsetup0. reflexivity.
  - intros fuel out buff len off pfx c step half.
    cbn [bruteforce_loop_with_half_dig].
    change (to_size_t (0 - 1)) with (2 ^ 64 - 1).
    change (2 ^ 64 - 1 =? 0) with false. cbv iota.
    unfold memcmp_n. rewrite SHA1_length.
    change (2 ^ 64 - 1 <=? Z.of_nat 20) with false. reflexivity.
  - intros w0 commit_data commit_data_len pfx i ncpus Hlen. split.
    + intros Hpos.
      destruct (setup_worker uninit w0 commit_data commit_data_len pfx
                  (Z.of_nat (length pfx)) 1 i ncpus) as [w |] eqn:Hsetup.
      * destruct (setup_worker_prefix_half uninit w0 commit_data
                    commit_data_len pfx 1 i ncpus w ltac:(lia) ltac:(lia)
                    Hsetup)
          as (last & Hlast & _ & Hhas & Hpfx & Hplen & Hhalf).
        exists w. split; [reflexivity | split; [exact Hplen |]].
        intros fuel. rewrite worker_thread_main_search_loop.
        pose proof (search_loop_no_fault SHA1 (worker_test w) fuel (sha w)
                      (scratch_buff w) (scratch_len w) (counter_offset w)
                      (counter w) (stride w)) as Hnf.
        destruct (search_loop _ _ _ _ _ _ _ _ _); try discriminate.
        exfalso. apply Hnf; [| reflexivity].
        intros msg. unfold worker_test. rewrite Hhas, Hpfx, Hplen. simpl.
        replace (Z.of_nat (length pfx) - 1) with (Z.of_nat (length pfx - 1))
          by lia.
        apply test_prefix_half_dig_in_bounds; [lia |].
        rewrite SHA1_length. lia.
      * exfalso. revert Hsetup. unfold setup_worker. cbv zeta.
        change (1 =? 0) with false. cbv iota.
        rewrite to_size_t_small by lia. unfold read.
        replace (0 <=? Z.of_nat (length pfx) - 1) with true
          by (symmetry; apply Z.leb_le; lia).
        replace (Z.of_nat (length pfx) - 1 <? Z.of_nat (length pfx)) with true
          by (symmetry; apply Z.ltb_lt; lia).
        simpl.
        destruct (pfx !! Z.to_nat (Z.of_nat (length pfx) - 1)) eqn:E;
          [discriminate |].
        apply lookup_ge_None in E. lia.
    + intros (w & Hsetup & _).
      destruct pfx as [| b pfx]; [| simpl; lia].
      rewrite Hsetup0 in Hsetup. discriminate.
Qed.

End HalfDigitSafety.

Lemma half_dig_needs_nonempty_prefix_witness :
  setup_worker stale_bytes (stale_worker 0%nat) sample_commit
    (Z.of_nat (length sample_commit)) [] 0 1 0 1 = None
  /\ start_bruteforce Sha1.sha1 stale_bytes stale_worker (fun _ => 3%nat)
       sample_commit (Z.of_nat (length sample_commit)) [] 0 1 1 = None
  /\ exists w,
       setup_worker stale_bytes (stale_worker 0%nat) sample_commit
         (Z.of_nat (length sample_commit)) [byte_of 0xd0]
         (Z.of_nat (length [byte_of 0xd0])) 1 0 1 = Some w
       /\ prefix_len w = 0.
Proof.
  destruct (half_dig_needs_nonempty_prefix Sha1.sha1 sha1_length stale_bytes
              stale_worker rb_fix2int)
    as (_ & _ & _ & _ & Hnone & Hub & _ & Hsafe).
  split; [apply Hnone |]. split; [apply Hub; lia |].
  destruct (proj1 (Hsafe (stale_worker 0%nat) sample_commit
                     (Z.of_nat (length sample_commit)) [byte_of 0xd0] 0 1
                     ltac:(simpl; lia)) ltac:(simpl; lia))
    as (w & Hw & Hplen & _).
  exists w. split; [exact Hw | exact Hplen].
Defined.

(** The tie-break at work: two workers, the half digit [0] requested, each
    thread left to run eight iterations.  Worker 1 matches with counter 11
    and worker 0 with counter 14; the search returns the buffer of worker
    0, the one with the larger counter. *)
Lemma sample_search_tie_break :
  exists w0 w1,
    (workers ← setup_workers stale_bytes stale_worker 2 0 sample_commit
                 (Z.of_nat (length sample_commit)) [byte_of 0] 1 1 2;
     run_threads Sha1.sha1 (fun _ => 8%nat) 0 workers) = Some [w0; w1]
    /\ complete w0 = 1 /\ complete w1 = 1
    /\ drop 21 (take 37 (scratch_buff w0)) = nonce_hex 14
    /\ drop 21 (take 37 (scratch_buff w1)) = nonce_hex 11
    /\ start_bruteforce Sha1.sha1 stale_bytes stale_worker (fun _ => 8%nat)
         sample_commit (Z.of_nat (length sample_commit)) [byte_of 0] 1 1 2
       = Some (RArray
                 [RString (header 27 ++ sample_commit ++ [LF; LF]
                             ++ nonce_hex 14);
                  RString (Sha1.sha1 (header 27 ++ sample_commit ++ [LF; LF]
                                        ++ nonce_hex 14))]).
Proof.
  eexists. eexists. split; [vm_compute; reflexivity |].
  repeat split; vm_compute; reflexivity.
Qed.

(** * Further properties of the code *)

(** ** The header *)

Lemma length_decimal_digits_exact (d fuel : nat) (n : Z) (acc : list byte) :
  (1 <= d <= fuel)%nat ->
  0 <= n < 10 ^ Z.of_nat d ->
  (d = 1%nat \/ 10 ^ (Z.of_nat d - 1) <= n) ->
  length (decimal_digits fuel n acc) = (d + length acc)%nat.
Proof.
  revert fuel n acc. induction d as [| d IH]; intros fuel n acc Hd Hn Hlow.
  - lia.
  - destruct fuel as [| fuel]; [lia |]. cbn [decimal_digits].
    destruct (n <? 10) eqn:E.
    + apply Z.ltb_lt in E. destruct Hlow as [Hone | Hlow].
      * injection Hone as ->. reflexivity.
      * destruct d as [| d]; [reflexivity | exfalso].
        replace (Z.of_nat (S (S d)) - 1) with (Z.succ (Z.of_nat d)) in Hlow
          by lia.
        rewrite Z.pow_succ_r in Hlow by lia.
        pose proof (Z.pow_pos_nonneg 10 (Z.of_nat d) ltac:(lia) ltac:(lia)).
        lia.
    + apply Z.ltb_ge in E.
      destruct d as [| d].
      { change (10 ^ Z.of_nat 1) with 10 in Hn. lia. }
      rewrite (IH fuel (n / 10)); [simpl; lia | lia | |].
      * rewrite (Nat2Z.inj_succ (S d)), Z.pow_succ_r in Hn by lia.
        split; [apply Z.div_pos; lia |].
        apply Z.div_lt_upper_bound; lia.
      * destruct Hlow as [Hone | Hlow]; [lia |].
        destruct d as [| d]; [left; reflexivity | right].
        replace (Z.of_nat (S (S (S d))) - 1)
          with (Z.succ (Z.of_nat (S (S d)) - 1)) in Hlow by lia.
        rewrite Z.pow_succ_r in Hlow by lia.
        apply Z.div_le_lower_bound; lia.
Qed.

(** X1: for a length of [d] decimal digits [header_len] is [8 + d]: the
    seven characters of "commit ", the digits and the NUL; the text
    [sprintf] stores, NUL included, takes at most 28 of the 64 bytes of the
    local buffer, whatever the length. *)
Theorem header_len_digits (n : Z) (d : nat) :
  (1 <= d <= 20)%nat ->
  0 <= n < 10 ^ Z.of_nat d ->
  (d = 1%nat \/ 10 ^ (Z.of_nat d - 1) <= n) ->
  header_len n = 8 + Z.of_nat d
  /\ (forall m : Z, Z.of_nat (length (sprintf_commit m ++ [NUL])) <= 28).
Proof.
  intros Hd Hn Hlow. split.
  - unfold header_len, sprintf_commit, decimal. rewrite length_app.
    rewrite (length_decimal_digits_exact d 20 n []) by (assumption || lia).
    change (length (bytes_of_string "commit ")) with 7%nat. simpl. lia.
  - intros m. pose proof (header_len_bounds m) as H.
    unfold header_len in H. rewrite length_app.
    change (length [NUL]) with 1%nat. lia.
Qed.

Lemma header_len_digits_witness :
  (1 <= 4 <= 20)%nat /\ 0 <= 1042 < 10 ^ Z.of_nat 4
  /\ header_len 1042 = 8 + Z.of_nat 4.
Proof.
  split; [lia |]. split; [simpl; lia |].
  apply (header_len_digits 1042 4); [lia | simpl; lia | right; simpl; lia].
Defined.

(** ** The nonce read back *)

Lemma hex_val_hex_char (d : Z) : 0 <= d < 16 -> hex_val (hex_char d) = d.
Proof.
  intros Hd. unfold hex_val, hex_char. rewrite byte_val_byte_of.
  destruct (d <? 10) eqn:E.
  - apply Z.ltb_lt in E. rewrite Z.mod_small by lia.
    destruct (48 + d <? 58) eqn:E'; [lia | apply Z.ltb_ge in E'; lia].
  - apply Z.ltb_ge in E. rewrite Z.mod_small by lia.
    destruct (87 + d <? 58) eqn:E'; [apply Z.ltb_lt in E'; lia | lia].
Qed.

Lemma nibbles_succ (n : nat) (c : Z) :
  map (fun i => hex_char (Z.land (Z.shiftr c (4 * Z.of_nat i)) 15)) (seq 0 (S n))
  = hex_char (Z.land c 15)
      :: map (fun i => hex_char (Z.land (Z.shiftr (Z.shiftr c 4)
                                            (4 * Z.of_nat i)) 15)) (seq 0 n).
Proof.
  cbn [seq map]. f_equal.
  rewrite <- seq_shift, map_map.
  apply map_ext. intros i.
  rewrite Z.shiftr_shiftr by lia. do 3 f_equal. lia.
Qed.

Lemma nonce_value_nibbles (n : nat) (c : Z) :
  0 <= c ->
  nonce_value
    (map (fun i => hex_char (Z.land (Z.shiftr c (4 * Z.of_nat i)) 15)) (seq 0 n))
  = c mod 16 ^ Z.of_nat n.
Proof.
  revert c. induction n as [| n IH]; intros c Hc.
  - simpl. rewrite Z.mod_1_r. reflexivity.
  - rewrite nibbles_succ. cbn [nonce_value].
    assert (Hland : Z.land c 15 = c mod 16).
    { change 15 with (Z.ones 4). rewrite Z.land_ones by lia. reflexivity. }
    rewrite Hland.
    rewrite hex_val_hex_char by (apply Z.mod_pos_bound; lia).
    rewrite IH by (apply Z.shiftr_nonneg; exact Hc).
    rewrite Z.shiftr_div_pow2 by lia. change (2 ^ 4) with 16.
    rewrite Nat2Z.inj_succ, Z.pow_succ_r by lia.
    rewrite Z.rem_mul_r by lia. reflexivity.
Qed.

(** X3: the 16 characters [write_counter_hex] stores determine the
    counter: read back least significant digit first they give the counter
    again, so two different 64-bit counters never leave the same bytes in
    the block. *)
Theorem write_counter_hex_round_trip (buff : list byte) (off : nat) (c1 c2 : Z) :
  (off + 16 <= length buff)%nat ->
  0 <= c1 < 2 ^ 64 -> 0 <= c2 < 2 ^ 64 ->
  nonce_value (take 16 (drop off (write_counter_hex buff (Z.of_nat off) c1)))
  = c1
  /\ (write_counter_hex buff (Z.of_nat off) c1
      = write_counter_hex buff (Z.of_nat off) c2 -> c1 = c2).
Proof.
  intros Hlen H1 H2.
  assert (Hread : forall c, 0 <= c < 2 ^ 64 ->
    nonce_value (take 16 (drop off (write_counter_hex buff (Z.of_nat off) c)))
    = c).
  { intros c Hc. rewrite write_counter_hex_in_bounds by exact Hlen.
    rewrite drop_app_length' by (rewrite length_take; lia).
    rewrite take_app_length' by reflexivity.
    unfold nonce_hex. rewrite nonce_value_nibbles by lia.
    apply Z.mod_small. change (16 ^ Z.of_nat 16) with (2 ^ 64). exact Hc. }
  split; [apply Hread; exact H1 |].
  intros Heq. rewrite <- (Hread c1 H1), <- (Hread c2 H2), Heq. reflexivity.
Qed.

Lemma write_counter_hex_round_trip_witness :
  (2 + 16 <= length (bytes_of_string "ab................yz"))%nat
  /\ nonce_value
       (take 16 (drop 2 (write_counter_hex
                           (bytes_of_string "ab................yz")
                           (Z.of_nat 2) 0xfedcba9876543210)))
     = 0xfedcba9876543210.
Proof.
  split; [simpl; lia |].
  apply (write_counter_hex_round_trip _ 2 0xfedcba9876543210 0);
    [simpl; lia | lia | lia].
Defined.

(** ** What a worker hashes *)

Lemma decimal_digits_are_digits (fuel : nat) (n : Z) (acc : list byte) :
  0 <= n ->
  Forall (fun b => 48 <= byte_val b <= 57) acc ->
  Forall (fun b => 48 <= byte_val b <= 57) (decimal_digits fuel n acc).
Proof.
  revert n acc. induction fuel as [| fuel IH]; intros n acc Hn Hacc.
  - exact Hacc.
  - cbn [decimal_digits].
    assert (Hd : Forall (fun b => 48 <= byte_val b <= 57)
                   (digit_char (n mod 10) :: acc)).
    { constructor; [| exact Hacc]. unfold digit_char.
      rewrite byte_val_byte_of.
      pose proof (Z.mod_pos_bound n 10 ltac:(lia)).
      rewrite Z.mod_small; lia. }
    destruct (n <? 10); [exact Hd |].
    apply IH; [apply Z.div_pos; lia | exact Hd].
Qed.

Lemma counter_at_range (step c : Z) (k : nat) :
  0 <= c < 2 ^ 64 -> 0 <= counter_at step c k < 2 ^ 64.
Proof.
  intros Hc. rewrite counter_at_closed by exact Hc.
  unfold to_size_t. apply Z.mod_pos_bound. lia.
Qed.

Section Hashed.

Variable uninit : nat -> byte.

(** The bytes hashed for a counter: header, content, separators and the
    nonce of the counter, and nothing else of the block. *)
Lemma hashed_setup_worker w0 (content pfx : list byte)
  (plen has_half_dig i ncpus : Z) w (c : Z) :
  Z.of_nat (length content) <= LONG_MAX ->
  setup_worker uninit w0 content (Z.of_nat (length content)) pfx plen
    has_half_dig i ncpus = Some w ->
  hashed w c
  = header (Z.of_nat (length content) + 18) ++ content ++ [LF; LF]
      ++ nonce_hex c.
Proof.
  intros Hlong Hsetup.
  pose proof (header_len_bounds (Z.of_nat (length content) + 18)) as Hh.
  destruct (setup_worker_spec _ _ _ _ _ _ _ _ _ Hlong Hsetup)
    as (Hsl & Hoff & Hblen & Htake & _).
  cbv zeta in Hsl, Hoff, Htake. unfold hashed.
  rewrite <- (Z2Nat.id (counter_offset w)) at 1 by lia.
  rewrite write_counter_hex_in_bounds by lia.
  rewrite Htake.
  assert (Hpre : length (header (Z.of_nat (length content) + 18) ++ content
                           ++ [LF; LF])
                 = Z.to_nat (counter_offset w)).
  { rewrite <- Htake, length_take. lia. }
  replace (Z.to_nat (scratch_len w))
    with (length ((header (Z.of_nat (length content) + 18) ++ content
                     ++ [LF; LF]) ++ nonce_hex c))
    by (rewrite length_app, Hpre; change (length (nonce_hex c)) with 16%nat;
        lia).
  rewrite (app_assoc _ (nonce_hex c) (drop _ _)), take_app_length.
  rewrite <- !app_assoc. reflexivity.
Qed.

(** X2: what a worker hashes is a well-formed object: "commit ", decimal
    digits, one NUL and a body, where the digits are the length of the body
    and no NUL stands before the one that ends the header. *)
Theorem hashed_is_framed_object w0 (content pfx : list byte)
  (plen has_half_dig i ncpus : Z) w (c : Z) :
  Z.of_nat (length content) <= LONG_MAX ->
  setup_worker uninit w0 content (Z.of_nat (length content)) pfx plen
    has_half_dig i ncpus = Some w ->
  exists digits body : list byte,
    hashed w c = bytes_of_string "commit " ++ digits ++ [NUL] ++ body
    /\ body = content ++ [LF; LF] ++ nonce_hex c
    /\ decimal_value digits = Z.of_nat (length body)
    /\ Forall (fun b => 48 <= byte_val b <= 57) digits
    /\ NUL ∉ bytes_of_string "commit " ++ digits.
Proof.
  intros Hlong Hsetup.
  exists (decimal (Z.of_nat (length content) + 18)),
    (content ++ [LF; LF] ++ nonce_hex c).
  assert (Hdigits : Forall (fun b => 48 <= byte_val b <= 57)
                      (decimal (Z.of_nat (length content) + 18))).
  { apply decimal_digits_are_digits; [lia | constructor]. }
  split; [| split; [reflexivity | split; [| split; [exact Hdigits |]]]].
  - rewrite (hashed_setup_worker _ _ _ _ _ _ _ _ c Hlong Hsetup).
    unfold header, sprintf_commit. rewrite <- !app_assoc. reflexivity.
  - rewrite (decimal_value_decimal (Z.of_nat (length content) + 18))
      by (unfold LONG_MAX in Hlong; lia).
    rewrite !length_app. change (length (nonce_hex c)) with 16%nat.
    simpl. lia.
  - intros Hin. apply elem_of_app in Hin. destruct Hin as [Hin | Hin].
    + revert Hin. unfold bytes_of_string. simpl.
      rewrite !elem_of_cons, elem_of_nil. unfold NUL.
      intros H. repeat (destruct H as [H | H]; [discriminate |]). exact H.
    + rewrite Forall_forall in Hdigits. apply Hdigits in Hin.
      unfold NUL, byte_val in Hin. simpl in Hin. lia.
Qed.

End Hashed.

Lemma hashed_is_framed_object_witness :
  Z.of_nat (length sample_commit) <= LONG_MAX
  /\ exists w digits body,
       setup_worker stale_bytes (stale_worker 0%nat) sample_commit
         (Z.of_nat (length sample_commit)) [byte_of 0] 1 0 2 4 = Some w
       /\ hashed w 14 = bytes_of_string "commit " ++ digits ++ [NUL] ++ body
       /\ decimal_value digits = Z.of_nat (length body)
       /\ decimal_value digits = 27.
Proof.
  assert (Hlong : Z.of_nat (length sample_commit) <= LONG_MAX)
    by (vm_compute; discriminate).
  split; [exact Hlong |].
  destruct (setup_worker stale_bytes (stale_worker 0%nat) sample_commit
              (Z.of_nat (length sample_commit)) [byte_of 0] 1 0 2 4)
    as [w |] eqn:Hsetup; [| vm_compute in Hsetup; discriminate].
  destruct (hashed_is_framed_object stale_bytes _ _ _ _ _ _ _ w 14 Hlong Hsetup)
    as (digits & body & Hh & Hbody & Hval & _ & _).
  exists w, digits, body. split; [reflexivity |]. split; [exact Hh |].
  split; [exact Hval |]. rewrite Hval, Hbody. reflexivity.
Defined.

(** ** When a loop returns *)

Lemma memcmp_take_eq (s1 s2 : list byte) (n : nat) :
  (n <= length s1)%nat -> (n <= length s2)%nat ->
  take n s1 = take n s2 -> memcmp s1 s2 n = Some 0.
Proof.
  revert s1 s2. induction n as [| n IH]; intros s1 s2 H1 H2 Heq; simpl.
  - reflexivity.
  - destruct s1 as [| a s1]; [simpl in H1; lia |].
    destruct s2 as [| b s2]; [simpl in H2; lia |].
    simpl in Heq. injection Heq as -> Heq.
    rewrite Z.eqb_refl. apply IH; simpl in *; [lia | lia | exact Heq].
Qed.

Lemma test_prefix_in_bounds (pfx sha : list byte) (n : nat) :
  (n <= length pfx)%nat -> (n <= length sha)%nat ->
  test_prefix pfx (Z.of_nat n) sha
  = Some (bool_decide (take n sha = take n pfx)).
Proof.
  intros Hp Hs. unfold test_prefix, memcmp_n.
  replace (Z.of_nat n <=? Z.of_nat (length sha)) with true
    by (symmetry; apply Z.leb_le; lia).
  replace (Z.of_nat n <=? Z.of_nat (length pfx)) with true
    by (symmetry; apply Z.leb_le; lia).
  simpl. rewrite Nat2Z.id.
  destruct (memcmp_in_bounds sha pfx n Hs Hp) as [c Hc]. rewrite Hc. simpl.
  f_equal. destruct (c =? 0) eqn:E.
  - apply Z.eqb_eq in E. subst c. apply memcmp_zero in Hc.
    symmetry. apply bool_decide_eq_true. exact Hc.
  - apply Z.eqb_neq in E. symmetry. apply bool_decide_eq_false.
    intros Heq. rewrite (memcmp_take_eq sha pfx n Hs Hp Heq) in Hc.
    injection Hc as Hc. lia.
Qed.

Section LoopReturns.

Variable SHA1 : list byte -> list byte.

Lemma digest_at_succ (buff : list byte) (len off step c : Z) (k : nat) :
  digest_at SHA1 (write_counter_hex buff off c) len off step
    (to_size_t (c + step)) k
  = digest_at SHA1 buff len off step c (S k).
Proof. unfold digest_at. rewrite write_counter_hex_twice. reflexivity. Qed.

(** A loop whose test always has an answer returns in the first iteration
    whose digest passes the test, and only there. *)
Lemma search_loop_matched_iff (test : list byte -> option bool)
  (accepts : list byte -> bool) (fuel : nat) (out buff : list byte)
  (len off c step : Z) (b o : list byte) :
  (forall msg, test (SHA1 msg) = Some (accepts (SHA1 msg))) ->
  search_loop SHA1 test fuel out buff len off c step = Matched b o
  <-> exists k : nat,
        (k < fuel)%nat
        /\ accepts (digest_at SHA1 buff len off step c k) = true
        /\ (forall j : nat, (j < k)%nat ->
               accepts (digest_at SHA1 buff len off step c j) = false)
        /\ b = write_counter_hex buff off (counter_at step c k)
        /\ o = memcpy out (digest_at SHA1 buff len off step c k) 20.
Proof.
  intros Htest. revert buff c.
  induction fuel as [| fuel IH]; intros buff c.
  - simpl. split; [discriminate | intros (k & Hk & _); lia].
  - cbn [search_loop]. rewrite Htest.
    change (SHA1 (take (Z.to_nat len) (write_counter_hex buff off c)))
      with (digest_at SHA1 buff len off step c 0).
    destruct (accepts (digest_at SHA1 buff len off step c 0)) eqn:E0.
    + split.
      * intros H. injection H as <- <-. exists 0%nat.
        repeat split; [lia | exact E0 | intros j Hj; lia].
      * intros (k & Hk & Hacc & Hfirst & -> & ->).
        destruct k as [| k]; [reflexivity |].
        rewrite (Hfirst 0%nat) in E0 by lia. discriminate.
    + rewrite IH. split.
      * intros (k & Hk & Hacc & Hfirst & -> & ->).
        exists (S k). rewrite digest_at_succ in Hacc.
        split; [lia | split; [exact Hacc | split; [| split]]].
        -- intros [| j] Hj; [exact E0 |].
           rewrite <- digest_at_succ. apply Hfirst. lia.
        -- rewrite write_counter_hex_twice. reflexivity.
        -- rewrite digest_at_succ. reflexivity.
      * intros (k & Hk & Hacc & Hfirst & -> & ->).
        destruct k as [| k]; [rewrite Hacc in E0; discriminate |].
        exists k. rewrite digest_at_succ.
        split; [lia | split; [exact Hacc | split; [| split]]].
        -- intros j Hj. rewrite digest_at_succ. apply Hfirst. lia.
        -- rewrite write_counter_hex_twice. reflexivity.
        -- reflexivity.
Qed.

Hypothesis SHA1_length : forall msg, length (SHA1 msg) = 20%nat.

(** X4: for a prefix of [n <= 20] bytes, [bruteforce_loop] returns
    exactly when one of the iterations it is given computes a digest that
    starts with the prefix, and it returns in the first such iteration: the
    block then holds the nonce of that iteration's counter and [output_sha]
    its digest, and no earlier counter of this loop gives a digest with the
    prefix. *)
Theorem bruteforce_loop_returns_first_match (fuel : nat)
  (out buff : list byte) (len off : Z) (pfx : list byte) (n : nat)
  (c step : Z) (b o : list byte) :
  (n <= 20)%nat -> (n <= length pfx)%nat ->
  bruteforce_loop SHA1 fuel out buff len off pfx (Z.of_nat n) c step
  = Matched b o
  <-> exists k : nat,
        (k < fuel)%nat
        /\ take n (digest_at SHA1 buff len off step c k) = take n pfx
        /\ (forall j : nat, (j < k)%nat ->
               take n (digest_at SHA1 buff len off step c j) <> take n pfx)
        /\ b = write_counter_hex buff off (counter_at step c k)
        /\ o = memcpy out (digest_at SHA1 buff len off step c k) 20.
Proof.
  intros Hn Hp. rewrite bruteforce_loop_search_loop.
  rewrite (search_loop_matched_iff (test_prefix pfx (Z.of_nat n))
             (fun sha => bool_decide (take n sha = take n pfx)))
    by (intros msg; apply test_prefix_in_bounds;
        [exact Hp | rewrite SHA1_length; exact Hn]).
  split; intros (k & Hk & Hacc & Hfirst & Hb & Ho); exists k;
    (split; [exact Hk | split; [| split; [| split; assumption]]]).
  - apply bool_decide_eq_true in Hacc. exact Hacc.
  - intros j Hj. specialize (Hfirst j Hj).
    apply bool_decide_eq_false in Hfirst. exact Hfirst.
  - apply bool_decide_eq_true. exact Hacc.
  - intros j Hj. apply bool_decide_eq_false. apply Hfirst. exact Hj.
Qed.

(** X7: a prefix longer than the 20 bytes of a digest makes
    [bruteforce_loop] read past the digest in its first iteration, whatever
    the block holds: the check [bruteforce] makes on the length of
    [sha_prefix] is what keeps the comparison inside the digest. *)
Theorem bruteforce_loop_long_prefix_faults (fuel : nat) (out buff : list byte)
  (len off : Z) (pfx : list byte) (n : nat) (c step : Z) :
  (20 < n)%nat ->
  bruteforce_loop SHA1 (S fuel) out buff len off pfx (Z.of_nat n) c step
  = Fault.
Proof.
  intros Hn. cbn [bruteforce_loop]. unfold memcmp_n.
  rewrite SHA1_length.
  replace (Z.of_nat n <=? Z.of_nat 20) with false
    by (symmetry; apply Z.leb_gt; lia).
  reflexivity.
Qed.

End LoopReturns.

Lemma bruteforce_loop_returns_first_match_witness :
  (1 <= 20)%nat /\ (1 <= length [byte_of 0xd5])%nat
  /\ exists k : nat,
       (k < 5)%nat
       /\ take 1 (digest_at Sha1.sha1
                    (header 27 ++ sample_commit ++ [LF; LF]
                       ++ replicate 17 NUL) 37 21 1 0 k)
          = take 1 [byte_of 0xd5]
       /\ k = 2%nat.
Proof.
  split; [lia |]. split; [simpl; lia |].
  assert (Hrun :
    bruteforce_loop Sha1.sha1 5 (replicate 20 NUL)
      (header 27 ++ sample_commit ++ [LF; LF] ++ replicate 17 NUL) 37 21
      [byte_of 0xd5] (Z.of_nat 1) 0 1
    = Matched (header 27 ++ sample_commit ++ [LF; LF] ++ nonce_hex 2 ++ [NUL])
        (Sha1.sha1 (header 27 ++ sample_commit ++ [LF; LF] ++ nonce_hex 2)))
    by (vm_compute; reflexivity).
  apply (bruteforce_loop_returns_first_match Sha1.sha1 sha1_length) in Hrun;
    [| lia | simpl; lia].
  destruct Hrun as (k & Hk & Hacc & _ & Hb & _).
  exists k. split; [exact Hk |]. split; [exact Hacc |].
  destruct k as [| [| [| [| [| k]]]]]; try lia; try reflexivity;
    vm_compute in Hb; discriminate.
Defined.

Lemma bruteforce_loop_long_prefix_faults_witness :
  (20 < 21)%nat
  /\ bruteforce_loop Sha1.sha1 1 (replicate 20 NUL) (replicate 40 NUL) 37 21
       (replicate 21 NUL) (Z.of_nat 21) 0 1
     = Fault.
Proof.
  split; [lia |].
  apply (bruteforce_loop_long_prefix_faults Sha1.sha1 sha1_length 0). lia.
Defined.

(** ** The whole search: when it is defined and what it returns *)

Lemma search_loop_reaches (SHA1 : list byte -> list byte)
  (test : list byte -> option bool) (k fuel : nat) (out buff : list byte)
  (len off c step : Z) :
  (forall msg, exists r, test (SHA1 msg) = Some r) ->
  test (digest_at SHA1 buff len off step c k) = Some true ->
  (k < fuel)%nat ->
  exists b o, search_loop SHA1 test fuel out buff len off c step = Matched b o.
Proof.
  intros Htot. revert fuel buff c.
  induction k as [| k IH]; intros fuel buff c Hk Hlt;
    (destruct fuel as [| fuel]; [lia |]); cbn [search_loop].
  - unfold digest_at in Hk. cbn [counter_at] in Hk. rewrite Hk.
    eexists. eexists. reflexivity.
  - destruct (Htot (take (Z.to_nat len) (write_counter_hex buff off c)))
      as [[|] ->]; [eexists; eexists; reflexivity |].
    apply IH; [| lia]. rewrite digest_at_succ. exact Hk.
Qed.

Section Defined.

Variable SHA1 : list byte -> list byte.
Hypothesis SHA1_length : forall msg, length (SHA1 msg) = 20%nat.
Variable uninit : nat -> byte.
Variable uninit_worker : nat -> worker_t.

(** [setup_worker] succeeds unless it is asked for the half digit of an
    empty prefix; the worker's test then always stays inside its blocks. *)
Lemma setup_worker_some w0 commit_data commit_data_len (pfx : list byte)
  has_half_dig i ncpus :
  (length pfx <= 20)%nat ->
  has_half_dig = 0 \/ (1 <= length pfx)%nat ->
  exists w,
    setup_worker uninit w0 commit_data commit_data_len pfx
      (Z.of_nat (length pfx)) has_half_dig i ncpus = Some w
    /\ forall msg, exists r, worker_test w (SHA1 msg) = Some r.
Proof.
  intros Hlen Hok.
  destruct (decide (has_half_dig = 0)) as [-> | Hhalf].
  - destruct (setup_worker uninit w0 commit_data commit_data_len pfx
                (Z.of_nat (length pfx)) 0 i ncpus) as [w |] eqn:Hsetup;
      [| discriminate].
    exists w. split; [reflexivity |].
    destruct (setup_worker_prefix_full _ _ _ _ _ _ _ _ Hsetup)
      as (Hhas & Hpfx & Hplen).
    intros msg. unfold worker_test. rewrite Hhas, Hpfx, Hplen. simpl.
    rewrite test_prefix_in_bounds by (rewrite ?SHA1_length; lia).
    eexists. reflexivity.
  - destruct Hok as [Hz | Hpos]; [contradiction |].
    destruct (setup_worker uninit w0 commit_data commit_data_len pfx
                (Z.of_nat (length pfx)) has_half_dig i ncpus)
      as [w |] eqn:Hsetup.
    + exists w. split; [reflexivity |].
      destruct (setup_worker_prefix_half uninit w0 commit_data
                  commit_data_len pfx has_half_dig i ncpus w Hhalf
                  ltac:(lia) Hsetup)
        as (last & _ & _ & Hhas & Hpfx & Hplen & Hdig).
      intros msg. unfold worker_test. rewrite Hhas, Hpfx, Hplen. simpl.
      replace (Z.of_nat (length pfx) - 1) with (Z.of_nat (length pfx - 1))
        by lia.
      apply test_prefix_half_dig_in_bounds; [lia |].
      rewrite SHA1_length. lia.
    + exfalso. revert Hsetup. unfold setup_worker. cbv zeta.
      destruct (has_half_dig =? 0) eqn:E; [discriminate |].
      rewrite to_size_t_small by lia. unfold read.
      replace (0 <=? Z.of_nat (length pfx) - 1) with true
        by (symmetry; apply Z.leb_le; lia).
      replace (Z.of_nat (length pfx) - 1 <? Z.of_nat (length pfx)) with true
        by (symmetry; apply Z.ltb_lt; lia).
      simpl.
      destruct (pfx !! Z.to_nat (Z.of_nat (length pfx) - 1)) eqn:El;
        [discriminate |].
      apply lookup_ge_None in El. lia.
Qed.

Lemma worker_test_clear_complete (w : worker_t) :
  worker_test (clear_complete w) = worker_test w.
Proof. reflexivity. Qed.

Lemma setup_workers_some n i commit_data commit_data_len (pfx : list byte)
  has_half_dig ncpus :
  (length pfx <= 20)%nat ->
  has_half_dig = 0 \/ (1 <= length pfx)%nat ->
  exists workers,
    setup_workers uninit uninit_worker n i commit_data commit_data_len pfx
      (Z.of_nat (length pfx)) has_half_dig ncpus = Some workers
    /\ Forall (fun w => complete w = 0
                        /\ forall msg, exists r, worker_test w (SHA1 msg) = Some r)
         workers.
Proof.
  intros Hlen Hok. revert i. induction n as [| n IH]; intros i.
  - exists []. split; [reflexivity | constructor].
  - cbn [setup_workers].
    destruct (setup_worker_some (uninit_worker (Z.to_nat i)) commit_data
                commit_data_len pfx has_half_dig i ncpus Hlen Hok)
      as (w & -> & Htest).
    destruct (IH (i + 1)) as (ws & -> & Hws).
    exists (clear_complete w :: ws). split; [reflexivity |].
    constructor; [split; [reflexivity | exact Htest] | exact Hws].
Qed.

Lemma run_threads_some sched i (workers : list worker_t) :
  Forall (fun w => forall msg, exists r, worker_test w (SHA1 msg) = Some r)
    workers ->
  exists workers',
    run_threads SHA1 sched i workers = Some workers'
    /\ length workers' = length workers.
Proof.
  intros Hall. revert i. induction Hall as [| w ws Hw _ IH]; intros i.
  - exists []. split; reflexivity.
  - cbn [run_threads].
    destruct (worker_thread_main SHA1 (sched i) w) as [w' |] eqn:Hmain.
    + destruct (IH (S i)) as (ws' & -> & Hlen).
      exists (w' :: ws'). split; [reflexivity | simpl; lia].
    + exfalso. rewrite worker_thread_main_search_loop in Hmain.
      pose proof (search_loop_no_fault SHA1 (worker_test w) (sched i) (sha w)
                    (scratch_buff w) (scratch_len w) (counter_offset w)
                    (counter w) (stride w) Hw) as Hnf.
      destruct (search_loop _ _ _ _ _ _ _ _ _); try discriminate.
      apply Hnf. reflexivity.
Qed.

(** X6: for a prefix of at most 20 bytes and at least one worker, the
    search has a defined result, for every commit and every schedule of
    the threads, exactly when the half digit is not requested or the prefix
    has at least one byte: apart from the half digit of an empty prefix,
    the checks [bruteforce] makes keep every read of the search inside
    its block. *)
Theorem start_bruteforce_defined_iff sched (content pfx : list byte)
  (has_half_dig ncpus : Z) :
  (length pfx <= 20)%nat ->
  has_half_dig = 0 \/ has_half_dig = 1 ->
  1 <= ncpus ->
  (exists v,
      start_bruteforce SHA1 uninit uninit_worker sched content
        (Z.of_nat (length content)) pfx (Z.of_nat (length pfx)) has_half_dig
        ncpus = Some v)
  <-> (has_half_dig = 0 \/ (1 <= length pfx)%nat).
Proof.
  intros Hlen Hflag Hn. split.
  - intros [v Hv].
    destruct Hflag as [-> | ->]; [left; reflexivity | right].
    destruct pfx as [| b pfx]; [| simpl; lia]. exfalso.
    revert Hv. unfold start_bruteforce.
    destruct (Z.to_nat ncpus) as [| n] eqn:E; [lia |].
    cbn [setup_workers].
    replace (setup_worker uninit (uninit_worker (Z.to_nat 0)) content
               (Z.of_nat (length content)) [] (Z.of_nat (length (@nil byte)))
               1 0 ncpus) with (@None worker_t) by reflexivity.
    discriminate.
  - intros Hok. unfold start_bruteforce.
    destruct (setup_workers_some (Z.to_nat ncpus) 0 content
                (Z.of_nat (length content)) pfx has_half_dig ncpus Hlen Hok)
      as (ws & -> & Hws).
    simpl.
    destruct (run_threads_some sched 0 ws) as (ws' & -> & _).
    { eapply Forall_impl; [exact Hws |]. intros w [_ H]. exact H. }
    eexists. reflexivity.
Qed.

End Defined.

Lemma start_bruteforce_defined_iff_witness :
  (length [byte_of 0xd0] <= 20)%nat
  /\ exists v,
       start_bruteforce Sha1.sha1 stale_bytes stale_worker (fun _ => 2%nat)
         sample_commit (Z.of_nat (length sample_commit)) [byte_of 0xd0]
         (Z.of_nat (length [byte_of 0xd0])) 1 2 = Some v.
Proof.
  split; [simpl; lia |].
  apply (start_bruteforce_defined_iff Sha1.sha1 sha1_length stale_bytes
           stale_worker (fun _ => 2%nat) sample_commit [byte_of 0xd0] 1 2);
    [simpl; lia | right; reflexivity | lia | right; simpl; lia].
Defined.

Lemma run_threads_sched_0 (SHA1 : list byte -> list byte) (i : nat)
  (workers : list worker_t) :
  run_threads SHA1 (fun _ => 0%nat) i workers = Some workers.
Proof.
  revert i. induction workers as [| w ws IH]; intros i; cbn [run_threads].
  - reflexivity.
  - rewrite IH. unfold worker_thread_main.
    destruct (prefix_has_half_dig w =? 0); destruct w; reflexivity.
Qed.

Section Returns.

Variable SHA1 : list byte -> list byte.
Hypothesis SHA1_length : forall msg, length (SHA1 msg) = 20%nat.
Variable uninit : nat -> byte.
Variable uninit_worker : nat -> worker_t.

(** X5: without the half digit, for a prefix of at most 20 bytes, the
    search returns a pair exactly when some worker [i] has been left to run
    to an iteration [k] whose counter gives the framed commit a digest that
    starts with the prefix; otherwise it returns [nil]. *)
Theorem start_bruteforce_returns_iff sched (content pfx : list byte)
  (ncpus : Z) :
  Z.of_nat (length content) <= LONG_MAX ->
  (length pfx <= 20)%nat ->
  let framed (c : Z) :=
    header (Z.of_nat (length content) + 18) ++ content ++ [LF; LF]
      ++ nonce_hex c in
  let result :=
    start_bruteforce SHA1 uninit uninit_worker sched content
      (Z.of_nat (length content)) pfx (Z.of_nat (length pfx)) 0 ncpus in
  ((exists matched digest,
       result = Some (RArray [RString matched; RString digest]))
   <-> exists i k : nat,
         Z.of_nat i < ncpus /\ (k < sched i)%nat
         /\ take (length pfx)
              (SHA1 (framed (counter_at ncpus (to_size_t (Z.of_nat i)) k)))
            = pfx)
  /\ (result = Some Qnil
      \/ exists matched digest,
           result = Some (RArray [RString matched; RString digest])).
Proof.
  intros Hlong Hlen framed result.
  assert (Hfwd : forall matched digest,
    result = Some (RArray [RString matched; RString digest]) ->
    exists i k : nat,
      Z.of_nat i < ncpus /\ (k < sched i)%nat
      /\ take (length pfx)
           (SHA1 (framed (counter_at ncpus (to_size_t (Z.of_nat i)) k)))
         = pfx).
  { intros matched digest H. apply start_bruteforce_returns in H.
    destruct H as (i & k & w0 & Hi & Hsetup & Hk & Hm & Ht & _).
    exists i, k. split; [exact Hi | split; [exact Hk |]].
    pose proof (hashed_setup_worker uninit _ _ _ _ _ _ _ w0
                  (counter_at (stride w0) (counter w0) k) Hlong Hsetup) as Hh.
    destruct (setup_worker_spec _ _ _ _ _ _ _ _ _ Hlong Hsetup)
      as (_ & _ & _ & _ & Hc & Hs & _).
    destruct (setup_worker_prefix_full _ _ _ _ _ _ _ _ Hsetup)
      as (Hhas & Hpfx & Hplen).
    unfold hashed in Hh. rewrite Hh, Hs, Hc in Ht.
    unfold worker_test in Ht. rewrite Hhas, Hpfx, Hplen in Ht. simpl in Ht.
    apply test_prefix_true in Ht. exact Ht. }
  assert (Hshape : result = Some Qnil
                   \/ exists matched digest,
                        result = Some (RArray [RString matched; RString digest])).
  { unfold result, start_bruteforce.
    destruct (setup_workers_some SHA1 SHA1_length uninit uninit_worker
                (Z.to_nat ncpus) 0 content (Z.of_nat (length content)) pfx 0
                ncpus Hlen (or_introl eq_refl)) as (ws & -> & Hws).
    simpl.
    destruct (run_threads_some SHA1 sched 0 ws) as (ws' & -> & _).
    { eapply Forall_impl; [exact Hws |]. intros w [_ H]. exact H. }
    simpl.
    destruct (scan_workers_cases ws')
      as [(i & w' & _ & _ & _ & ->) | [_ ->]]; [right | left; reflexivity].
    eexists. eexists. reflexivity. }
  split; [| exact Hshape]. split.
  - intros (matched & digest & H). exact (Hfwd matched digest H).
  - intros (i & k & Hi & Hk & Hmatch).
    destruct Hshape as [Hnil | Hpair]; [exfalso | exact Hpair].
    revert Hnil. unfold result, start_bruteforce.
    destruct (setup_workers uninit uninit_worker (Z.to_nat ncpus) 0 content
                (Z.of_nat (length content)) pfx (Z.of_nat (length pfx)) 0
                ncpus) as [ws |] eqn:Hsetup; simpl; [| discriminate].
    destruct (run_threads SHA1 sched 0 ws) as [ws' |] eqn:Hrun; simpl;
      [| discriminate].
    intros Hnil. injection Hnil as Hnil.
    destruct (setup_workers_lookup uninit uninit_worker _ 0 _ _ _ _ _ _ _
                (Z.le_refl 0) Hsetup) as [Hlenws Hlook].
    destruct (run_threads_some SHA1 sched 0 ws) as (ws2 & Hrun2 & Hlen2).
    { destruct (setup_workers_some SHA1 SHA1_length uninit uninit_worker
                  (Z.to_nat ncpus) 0 content (Z.of_nat (length content)) pfx 0
                  ncpus Hlen (or_introl eq_refl)) as (ws3 & Hws3 & Hall).
      rewrite Hsetup in Hws3. injection Hws3 as <-.
      eapply Forall_impl; [exact Hall |]. intros w [_ H]. exact H. }
    rewrite Hrun in Hrun2. injection Hrun2 as <-.
    destruct (lookup_lt_is_Some_2 ws' i ltac:(lia)) as [w' Hw'].
    destruct (run_threads_lookup SHA1 _ _ _ _ Hrun i w' Hw')
      as (w & Hw & Hmain).
    destruct (Hlook i w Hw) as (w0 & Hw0 & ->).
    change (0 + Z.of_nat i) with (Z.of_nat i) in Hw0.
    simpl in Hw0, Hmain.
    destruct (scan_workers_cases ws')
      as [(j & wj & _ & _ & _ & Hscan) | [Hnone _]];
      [rewrite Hscan in Hnil; discriminate |].
    specialize (Hnone i w' Hw').
    pose proof (hashed_setup_worker uninit _ _ _ _ _ _ _ w0
                  (counter_at ncpus (to_size_t (Z.of_nat i)) k) Hlong Hw0)
      as Hh.
    destruct (setup_worker_spec _ _ _ _ _ _ _ _ _ Hlong Hw0)
      as (_ & _ & _ & _ & Hc & Hs & _).
    destruct (setup_worker_prefix_full _ _ _ _ _ _ _ _ Hw0)
      as (Hhas & Hpfx & Hplen).
    rewrite worker_thread_main_search_loop in Hmain.
    destruct (search_loop_reaches SHA1 (worker_test (clear_complete w0)) k
                (sched i) (sha (clear_complete w0))
                (scratch_buff (clear_complete w0))
                (scratch_len (clear_complete w0))
                (counter_offset (clear_complete w0))
                (counter (clear_complete w0)) (stride (clear_complete w0)))
      as (b & o & Hloop).
    + intros msg. rewrite worker_test_clear_complete.
      unfold worker_test. rewrite Hhas, Hpfx, Hplen. simpl.
      rewrite test_prefix_in_bounds by (rewrite ?SHA1_length; lia).
      eexists. reflexivity.
    + rewrite worker_test_clear_complete. unfold digest_at.
      cbn [clear_complete scratch_buff scratch_len counter_offset counter
           stride].
      rewrite Hs, Hc. unfold hashed in Hh. rewrite Hh.
      unfold worker_test. rewrite Hhas, Hpfx, Hplen.
      change (0 =? 0) with true. cbv iota.
      rewrite test_prefix_in_bounds by (rewrite ?SHA1_length; lia).
      f_equal. apply bool_decide_eq_true. unfold framed in Hmatch.
      rewrite Hmatch. symmetry. apply firstn_all.
    + exact Hk.
    + rewrite Hloop in Hmain. injection Hmain as <-.
      simpl in Hnone. discriminate.
Qed.

(** X8: whatever the flag, a search that returns gives back [nil] or an
    array of exactly two strings: the framed commit, of
    [header_len + length content + 18] bytes, and a digest of 20 bytes.
    It gives [nil] when the coordinator scans before any thread has
    finished an iteration, and when there is no worker at all. *)
Theorem start_bruteforce_result_shape sched (content pfx : list byte)
  (has_half_dig ncpus : Z) :
  Z.of_nat (length content) <= LONG_MAX ->
  (length pfx <= 20)%nat ->
  let run sched' n :=
    start_bruteforce SHA1 uninit uninit_worker sched' content
      (Z.of_nat (length content)) pfx (Z.of_nat (length pfx)) has_half_dig n in
  (forall v, run sched ncpus = Some v ->
     v = Qnil
     \/ exists matched digest,
          v = RArray [RString matched; RString digest]
          /\ length digest = 20%nat
          /\ Z.of_nat (length matched)
             = header_len (Z.of_nat (length content) + 18)
               + Z.of_nat (length content) + 18)
  /\ (forall v, run (fun _ => 0%nat) ncpus = Some v -> v = Qnil)
  /\ (forall n, n <= 0 -> run sched n = Some Qnil).
Proof.
  intros Hlong Hlen run. split; [| split].
  - intros v Hv.
    assert (Hcases : v = Qnil \/ exists matched digest,
                                   v = RArray [RString matched; RString digest]).
    { revert Hv. unfold run, start_bruteforce.
      destruct (setup_workers _ _ _ _ _ _ _ _ _ _) as [ws |]; simpl;
        [| discriminate].
      destruct (run_threads _ _ _ ws) as [ws' |]; simpl; [| discriminate].
      intros H. injection H as <-.
      destruct (scan_workers_cases ws')
        as [(i & w' & _ & _ & _ & ->) | [_ ->]]; [right | left; reflexivity].
      eexists. eexists. reflexivity. }
    destruct Hcases as [-> | (matched & digest & ->)]; [left; reflexivity |].
    right. exists matched, digest. split; [reflexivity |].
    apply start_bruteforce_returns in Hv.
    destruct Hv as (i & k & w0 & _ & Hsetup & _ & Hm & _ & Hd).
    cbv zeta in Hm, Hd.
    pose proof (hashed_setup_worker uninit _ _ _ _ _ _ _ w0
                  (counter_at (stride w0) (counter w0) k) Hlong Hsetup) as Hh.
    unfold hashed in Hh. rewrite Hh in Hm, Hd.
    split.
    + rewrite Hd, take_memcpy_digest by apply SHA1_length. apply SHA1_length.
    + rewrite Hm, !length_app. change (length (nonce_hex _)) with 16%nat.
      change (length [LF; LF]) with 2%nat.
      pose proof (length_header (Z.of_nat (length content) + 18)). lia.
  - intros v. unfold run, start_bruteforce.
    destruct (setup_workers _ _ _ _ _ _ _ _ _ _) as [ws |] eqn:Hsetup; simpl;
      [| discriminate].
    rewrite run_threads_sched_0. simpl. intros H. injection H as <-.
    destruct (setup_workers_lookup uninit uninit_worker _ 0 _ _ _ _ _ _ _
                (Z.le_refl 0) Hsetup) as [_ Hlook].
    destruct (scan_workers_cases ws)
      as [(i & w & Hw & Hc & _) | [_ Hnil]]; [| exact Hnil].
    destruct (Hlook i w Hw) as (w0 & _ & ->). simpl in Hc. contradiction.
  - intros n Hn. unfold run, start_bruteforce.
    replace (Z.to_nat n) with 0%nat by lia. reflexivity.
Qed.

End Returns.

Lemma start_bruteforce_returns_iff_witness :
  Z.of_nat (length sample_commit) <= LONG_MAX
  /\ (length [byte_of 0] <= 20)%nat
  /\ exists i k : nat,
       Z.of_nat i < 4 /\ (k < 4)%nat
       /\ take (length [byte_of 0])
            (Sha1.sha1 (header (Z.of_nat (length sample_commit) + 18)
                          ++ sample_commit ++ [LF; LF]
                          ++ nonce_hex (counter_at 4 (to_size_t (Z.of_nat i)) k)))
          = [byte_of 0].
Proof.
  assert (Hlong : Z.of_nat (length sample_commit) <= LONG_MAX)
    by (vm_compute; discriminate).
  split; [exact Hlong |]. split; [simpl; lia |].
  destruct (start_bruteforce_returns_iff Sha1.sha1 sha1_length stale_bytes
              stale_worker (fun _ => 4%nat) sample_commit [byte_of 0] 4 Hlong
              ltac:(simpl; lia)) as [[Hfwd _] _].
  apply Hfwd. eexists. eexists. exact sample_search_full.
Defined.

Lemma start_bruteforce_result_shape_witness :
  Z.of_nat (length sample_commit) <= LONG_MAX
  /\ (length [byte_of 0] <= 20)%nat
  /\ start_bruteforce Sha1.sha1 stale_bytes stale_worker (fun _ => 4%nat)
       sample_commit (Z.of_nat (length sample_commit)) [byte_of 0]
       (Z.of_nat (length [byte_of 0])) 0 (-1) = Some Qnil.
Proof.
  assert (Hlong : Z.of_nat (length sample_commit) <= LONG_MAX)
    by (vm_compute; discriminate).
  split; [exact Hlong |]. split; [simpl; lia |].
  destruct (start_bruteforce_result_shape Sha1.sha1 sha1_length stale_bytes
              stale_worker (fun _ => 4%nat) sample_commit [byte_of 0] 0 4 Hlong
              ltac:(simpl; lia)) as (_ & _ & Hnone).
  apply Hnone. lia.
Defined.

Section WinningNonce.

Variable SHA1 : list byte -> list byte.
Variable uninit : nat -> byte.
Variable uninit_worker : nat -> worker_t.

(** X11: the last 16 bytes of a returned buffer, read back as a number,
    are a counter of the winning worker: the counter worker [i] tests in an
    iteration [k] it has run; as long as that counter has not wrapped
    around it is [i + k * ncpus], so it leaves the remainder [i] when
    divided by the number of workers. *)
Theorem winning_nonce_residue sched (content pfx : list byte)
  (prefix_len has_half_dig ncpus : Z) (matched digest : list byte) :
  Z.of_nat (length content) <= LONG_MAX ->
  start_bruteforce SHA1 uninit uninit_worker sched content
    (Z.of_nat (length content)) pfx prefix_len has_half_dig ncpus
  = Some (RArray [RString matched; RString digest]) ->
  exists i k : nat,
    Z.of_nat i < ncpus /\ (k < sched i)%nat
    /\ nonce_value (drop (length matched - 16) matched)
       = counter_at ncpus (to_size_t (Z.of_nat i)) k
    /\ (Z.of_nat i + Z.of_nat k * ncpus < 2 ^ 64 ->
        nonce_value (drop (length matched - 16) matched)
        = Z.of_nat i + Z.of_nat k * ncpus
        /\ nonce_value (drop (length matched - 16) matched) mod ncpus
           = Z.of_nat i).
Proof.
  intros Hlong H. apply start_bruteforce_returns in H.
  destruct H as (i & k & w0 & Hi & Hsetup & Hk & Hm & _ & _).
  cbv zeta in Hm.
  pose proof (hashed_setup_worker uninit _ _ _ _ _ _ _ w0
                (counter_at (stride w0) (counter w0) k) Hlong Hsetup) as Hh.
  destruct (setup_worker_spec _ _ _ _ _ _ _ _ _ Hlong Hsetup)
    as (_ & _ & _ & _ & Hc & Hs & _).
  unfold hashed in Hh. rewrite Hh, Hs, Hc in Hm.
  set (c := counter_at ncpus (to_size_t (Z.of_nat i)) k) in *.
  assert (Hrange : 0 <= c < 2 ^ 64).
  { apply counter_at_range. unfold to_size_t. apply Z.mod_pos_bound. lia. }
  assert (Hnonce : nonce_value (drop (length matched - 16) matched) = c).
  { rewrite Hm, !app_assoc.
    rewrite drop_app_length'
      by (rewrite !length_app; change (length (nonce_hex c)) with 16%nat; lia).
    unfold nonce_hex. rewrite nonce_value_nibbles by lia.
    apply Z.mod_small. change (16 ^ Z.of_nat 16) with (2 ^ 64). exact Hrange. }
  exists i, k. split; [exact Hi | split; [exact Hk | split; [exact Hnonce |]]].
  intros Hwrap. rewrite Hnonce. unfold c.
  rewrite to_size_t_small by nia.
  rewrite counter_at_no_wrap by lia.
  split; [reflexivity |].
  rewrite Z.mod_add by lia. apply Z.mod_small. lia.
Qed.

End WinningNonce.

Lemma winning_nonce_residue_witness :
  Z.of_nat (length sample_commit) <= LONG_MAX
  /\ exists matched digest (i k : nat),
       start_bruteforce Sha1.sha1 stale_bytes stale_worker (fun _ => 4%nat)
         sample_commit (Z.of_nat (length sample_commit)) [byte_of 0]
         (Z.of_nat (length [byte_of 0])) 0 4
       = Some (RArray [RString matched; RString digest])
       /\ nonce_value (drop (length matched - 16) matched)
          = counter_at 4 (to_size_t (Z.of_nat i)) k
       /\ nonce_value (drop (length matched - 16) matched) = 14.
Proof.
  assert (Hlong : Z.of_nat (length sample_commit) <= LONG_MAX)
    by (vm_compute; discriminate).
  split; [exact Hlong |].
  destruct (winning_nonce_residue Sha1.sha1 stale_bytes stale_worker
              (fun _ => 4%nat) sample_commit [byte_of 0]
              (Z.of_nat (length [byte_of 0])) 0 4 _ _ Hlong sample_search_full)
    as (i & k & _ & _ & Hnonce & _).
  eexists. eexists. exists i, k.
  split; [exact sample_search_full |]. split; [exact Hnonce |].
  vm_compute. reflexivity.
Defined.

(** ** What the result does not depend on *)

Lemma memcmp_take_r (s1 s2 s2' : list byte) (n : nat) :
  take n s2 = take n s2' -> (n <= length s2)%nat -> (n <= length s2')%nat ->
  memcmp s1 s2 n = memcmp s1 s2' n.
Proof.
  revert s1 s2 s2'. induction n as [| n IH]; intros s1 s2 s2' Heq H2 H2'.
  - reflexivity.
  - destruct s2 as [| b s2]; [simpl in H2; lia |].
    destruct s2' as [| b' s2']; [simpl in H2'; lia |].
    simpl in Heq. injection Heq as -> Heq.
    destruct s1 as [| a s1]; [reflexivity |]. simpl.
    destruct (byte_val a =? byte_val b'); [| reflexivity].
    apply IH; simpl in *; [exact Heq | lia | lia].
Qed.

Lemma test_prefix_half_dig_take (pfx pfx' sha : list byte) (n : nat) (half : Z) :
  take n pfx = take n pfx' -> (n <= length pfx)%nat -> (n <= length pfx')%nat ->
  test_prefix_half_dig pfx (Z.of_nat n) half sha
  = test_prefix_half_dig pfx' (Z.of_nat n) half sha.
Proof.
  intros Heq H1 H2. unfold test_prefix_half_dig, memcmp_n.
  replace (Z.of_nat n <=? Z.of_nat (length pfx)) with true
    by (symmetry; apply Z.leb_le; lia).
  replace (Z.of_nat n <=? Z.of_nat (length pfx')) with true
    by (symmetry; apply Z.leb_le; lia).
  rewrite Nat2Z.id, (memcmp_take_r sha pfx pfx' n Heq H1 H2). reflexivity.
Qed.

Section Simulation.

Variable SHA1 : list byte -> list byte.
Hypothesis SHA1_length : forall msg, length (SHA1 msg) = 20%nat.

Lemma search_loop_sim (test1 test2 : list byte -> option bool) (fuel : nat)
  (out1 out2 buff1 buff2 : list byte) (len off c step : Z) :
  (forall c', take (Z.to_nat len) (write_counter_hex buff1 off c')
              = take (Z.to_nat len) (write_counter_hex buff2 off c')) ->
  (forall msg, test1 (SHA1 msg) = test2 (SHA1 msg)) ->
  match search_loop SHA1 test1 fuel out1 buff1 len off c step,
        search_loop SHA1 test2 fuel out2 buff2 len off c step with
  | Matched b1 o1, Matched b2 o2 =>
      take (Z.to_nat len) b1 = take (Z.to_nat len) b2
      /\ (forall c', take (Z.to_nat len) (write_counter_hex b1 off c')
                     = take (Z.to_nat len) (write_counter_hex b2 off c'))
      /\ take 20 o1 = take 20 o2
  | Spinning b1 c1, Spinning b2 c2 =>
      c1 = c2
      /\ (forall c', take (Z.to_nat len) (write_counter_hex b1 off c')
                     = take (Z.to_nat len) (write_counter_hex b2 off c'))
  | Fault, Fault => True
  | _, _ => False
  end.
Proof.
  intros Hbuf Htest. revert buff1 buff2 c Hbuf.
  induction fuel as [| fuel IH]; intros buff1 buff2 c Hbuf; cbn [search_loop].
  - split; [reflexivity | exact Hbuf].
  - rewrite <- (Hbuf c), <- Htest.
    destruct (test1 _) as [[|] |]; [| | exact I].
    + split; [apply Hbuf | split].
      * intros c'. rewrite !write_counter_hex_twice. apply Hbuf.
      * rewrite !take_memcpy_digest by apply SHA1_length. reflexivity.
    + apply IH. intros c'. rewrite !write_counter_hex_twice. apply Hbuf.
Qed.

Lemma worker_thread_main_sim (fuel : nat) (w1 w2 : worker_t) :
  worker_sim SHA1 w1 w2 -> complete w1 = 0 ->
  option_Forall2 (worker_sim SHA1) (worker_thread_main SHA1 fuel w1)
    (worker_thread_main SHA1 fuel w2).
Proof.
  intros (Hsl & Hoff & Hc & Hs & Hcomp & Hhashed & Htest & _) Hzero.
  rewrite !worker_thread_main_search_loop.
  pose proof (search_loop_sim (worker_test w1) (worker_test w2) fuel (sha w1)
                (sha w2) (scratch_buff w1) (scratch_buff w2) (scratch_len w1)
                (counter_offset w1) (counter w1) (stride w1)) as Hsim.
  unfold hashed in Hhashed. rewrite <- Hsl, <- Hoff, <- Hc, <- Hs.
  rewrite <- Hsl, <- Hoff in Hhashed.
  specialize (Hsim Hhashed Htest).
  destruct (search_loop SHA1 (worker_test w1) _ _ _ _ _ _ _) as [b1 o1 | b1 c1 |];
    destruct (search_loop SHA1 (worker_test w2) _ _ _ _ _ _ _)
      as [b2 o2 | b2 c2 |]; try contradiction.
  - destruct Hsim as (Htake & Hnext & Hout). constructor.
    do 5 (split; [reflexivity |]).
    split; [exact Hnext | split; [exact Htest |]].
    intros _. split; [exact Htake | exact Hout].
  - destruct Hsim as (_ & Hnext). constructor.
    do 4 (split; [reflexivity |]).
    split; [exact Hcomp | split; [exact Hnext | split; [exact Htest |]]].
    intros H. contradiction.
  - constructor.
Qed.

Lemma run_threads_sim sched (i : nat) (ws1 ws2 : list worker_t) :
  Forall2 (worker_sim SHA1) ws1 ws2 ->
  Forall (fun w => complete w = 0) ws1 ->
  option_Forall2 (Forall2 (worker_sim SHA1)) (run_threads SHA1 sched i ws1)
    (run_threads SHA1 sched i ws2).
Proof.
  intros Hsim. revert i.
  induction Hsim as [| w1 w2 ws1 ws2 Hw _ IH]; intros i Hzero;
    cbn [run_threads].
  - constructor. constructor.
  - inversion Hzero as [| ? ? Hz Hzs]; subst.
    destruct (worker_thread_main_sim (sched i) w1 w2 Hw Hz) as [w1' w2' Hw' |];
      simpl; [| constructor].
    destruct (IH (S i) Hzs) as [ws1' ws2' Hws' |]; simpl; constructor.
    constructor; assumption.
Qed.

Lemma scan_workers_sim (ws1 ws2 : list worker_t) :
  Forall2 (worker_sim SHA1) ws1 ws2 -> scan_workers ws1 = scan_workers ws2.
Proof.
  induction 1 as [| w1 w2 ws1 ws2 Hw _ IH]; cbn [scan_workers].
  - reflexivity.
  - destruct Hw as (Hsl & _ & _ & _ & Hcomp & _ & _ & Hres).
    rewrite <- Hcomp. destruct (complete w1 =? 0) eqn:E; [exact IH |].
    apply Z.eqb_neq in E. destruct (Hres E) as [Hbuf Hsha].
    unfold rb_str_new. change (Z.to_nat 20) with 20%nat.
    rewrite Hbuf, Hsha. reflexivity.
Qed.

Variables uninit1 uninit2 : nat -> byte.
Variables uninit_worker1 uninit_worker2 : nat -> worker_t.

(** Where every pair of workers set up alike cannot be told apart, the two
    searches return the same. *)
Lemma start_bruteforce_sim sched (commit_data : list byte)
  (commit_data_len : Z) (pfx1 pfx2 : list byte) (plen has_half_dig ncpus : Z) :
  (forall w01 w02 i,
      option_Forall2
        (fun w1 w2 => worker_sim SHA1 (clear_complete w1) (clear_complete w2))
        (setup_worker uninit1 w01 commit_data commit_data_len pfx1 plen
           has_half_dig i ncpus)
        (setup_worker uninit2 w02 commit_data commit_data_len pfx2 plen
           has_half_dig i ncpus)) ->
  start_bruteforce SHA1 uninit1 uninit_worker1 sched commit_data
    commit_data_len pfx1 plen has_half_dig ncpus
  = start_bruteforce SHA1 uninit2 uninit_worker2 sched commit_data
      commit_data_len pfx2 plen has_half_dig ncpus.
Proof.
  intros Hsetup.
  assert (Hws : forall n i,
    option_Forall2
      (fun ws1 ws2 => Forall2 (worker_sim SHA1) ws1 ws2
                      /\ Forall (fun w => complete w = 0) ws1)
      (setup_workers uninit1 uninit_worker1 n i commit_data commit_data_len
         pfx1 plen has_half_dig ncpus)
      (setup_workers uninit2 uninit_worker2 n i commit_data commit_data_len
         pfx2 plen has_half_dig ncpus)).
  { induction n as [| n IH]; intros i; cbn [setup_workers].
    - constructor. split; constructor.
    - destruct (Hsetup (uninit_worker1 (Z.to_nat i))
                  (uninit_worker2 (Z.to_nat i)) i) as [w1 w2 Hw |];
        simpl; [| constructor].
      destruct (IH (i + 1)) as [ws1 ws2 [Hsim Hzero] |]; simpl; constructor.
      split; constructor; try assumption. reflexivity. }
  unfold start_bruteforce.
  destruct (Hws (Z.to_nat ncpus) 0) as [ws1 ws2 [Hsim Hzero] |]; simpl;
    [| reflexivity].
  destruct (run_threads_sim sched 0 ws1 ws2 Hsim Hzero) as [ws1' ws2' Hsim' |];
    simpl; [| reflexivity].
  f_equal. apply scan_workers_sim. exact Hsim'.
Qed.

End Simulation.

Section Independence.

Variable SHA1 : list byte -> list byte.
Hypothesis SHA1_length : forall msg, length (SHA1 msg) = 20%nat.

Lemma setup_worker_sim uninit1 uninit2 w01 w02 (content pfx1 pfx2 : list byte)
  (plen has_half_dig i ncpus : Z) w1 w2 :
  Z.of_nat (length content) <= LONG_MAX ->
  setup_worker uninit1 w01 content (Z.of_nat (length content)) pfx1 plen
    has_half_dig i ncpus = Some w1 ->
  setup_worker uninit2 w02 content (Z.of_nat (length content)) pfx2 plen
    has_half_dig i ncpus = Some w2 ->
  (forall msg, worker_test w1 (SHA1 msg) = worker_test w2 (SHA1 msg)) ->
  worker_sim SHA1 (clear_complete w1) (clear_complete w2).
Proof.
  intros Hlong H1 H2 Htest.
  destruct (setup_worker_spec _ _ _ _ _ _ _ _ _ Hlong H1)
    as (Hsl1 & Hoff1 & _ & _ & Hc1 & Hs1 & _).
  destruct (setup_worker_spec _ _ _ _ _ _ _ _ _ Hlong H2)
    as (Hsl2 & Hoff2 & _ & _ & Hc2 & Hs2 & _).
  cbv zeta in Hsl1, Hoff1, Hsl2, Hoff2.
  split; [cbn; congruence |]. split; [cbn; congruence |].
  split; [cbn; congruence |]. split; [cbn; congruence |].
  split; [reflexivity |]. split; [| split; [exact Htest |]].
  - intros c.
    change (hashed (clear_complete w1) c) with (hashed w1 c).
    change (hashed (clear_complete w2) c) with (hashed w2 c).
    rewrite (hashed_setup_worker _ _ _ _ _ _ _ _ _ c Hlong H1),
      (hashed_setup_worker _ _ _ _ _ _ _ _ _ c Hlong H2).
    reflexivity.
  - intros H. cbn in H. contradiction.
Qed.

(** X9: the result of a search does not depend on what [malloc] left in
    the blocks and in the worker array: no uninitialised byte is hashed,
    compared or returned. *)
Theorem start_bruteforce_ignores_uninitialised
  (uninit1 uninit2 : nat -> byte) (uninit_worker1 uninit_worker2 : nat -> worker_t)
  sched (content pfx : list byte) (has_half_dig ncpus : Z) :
  Z.of_nat (length content) <= LONG_MAX ->
  (length pfx <= 20)%nat ->
  start_bruteforce SHA1 uninit1 uninit_worker1 sched content
    (Z.of_nat (length content)) pfx (Z.of_nat (length pfx)) has_half_dig ncpus
  = start_bruteforce SHA1 uninit2 uninit_worker2 sched content
      (Z.of_nat (length content)) pfx (Z.of_nat (length pfx)) has_half_dig
      ncpus.
Proof.
  intros Hlong Hlen. apply start_bruteforce_sim; [exact SHA1_length |].
  intros w01 w02 i.
  destruct (setup_worker uninit1 w01 content (Z.of_nat (length content)) pfx
              (Z.of_nat (length pfx)) has_half_dig i ncpus) as [w1 |] eqn:H1;
    destruct (setup_worker uninit2 w02 content (Z.of_nat (length content)) pfx
                (Z.of_nat (length pfx)) has_half_dig i ncpus) as [w2 |] eqn:H2.
  - constructor.
    apply (setup_worker_sim _ _ _ _ _ _ _ _ _ _ _ _ _ Hlong H1 H2).
    intros msg. unfold worker_test.
    destruct (decide (has_half_dig = 0)) as [-> | Hhalf].
    + destruct (setup_worker_prefix_full _ _ _ _ _ _ _ _ H1) as (-> & -> & ->).
      destruct (setup_worker_prefix_full _ _ _ _ _ _ _ _ H2) as (-> & -> & ->).
      reflexivity.
    + assert (Hlt : Z.of_nat (length pfx) < 2 ^ 64) by lia.
      destruct (setup_worker_prefix_half _ _ _ _ _ _ _ _ _ Hhalf Hlt H1)
        as (l1 & Hl1 & _ & -> & -> & -> & ->).
      destruct (setup_worker_prefix_half _ _ _ _ _ _ _ _ _ Hhalf Hlt H2)
        as (l2 & Hl2 & _ & -> & -> & -> & ->).
      rewrite Hl1 in Hl2. injection Hl2 as <-. reflexivity.
  - exfalso. revert H1 H2. unfold setup_worker. cbv zeta.
    destruct (has_half_dig =? 0); [discriminate |].
    destruct (read pfx _); discriminate.
  - exfalso. revert H1 H2. unfold setup_worker. cbv zeta.
    destruct (has_half_dig =? 0); [discriminate |].
    destruct (read pfx _); discriminate.
  - constructor.
Qed.

(** X10: with the half digit requested only the high four bits of the
    last byte of the prefix count: two prefixes that differ in the low four
    bits of their last byte give the same search. *)
Theorem start_bruteforce_ignores_low_nibble (uninit : nat -> byte)
  (uninit_worker : nat -> worker_t) sched (content p : list byte)
  (b1 b2 : byte) (ncpus : Z) :
  Z.of_nat (length content) <= LONG_MAX ->
  (length p < 20)%nat ->
  Z.shiftr (byte_val b1) 4 = Z.shiftr (byte_val b2) 4 ->
  start_bruteforce SHA1 uninit uninit_worker sched content
    (Z.of_nat (length content)) (p ++ [b1]) (Z.of_nat (length (p ++ [b1]))) 1
    ncpus
  = start_bruteforce SHA1 uninit uninit_worker sched content
      (Z.of_nat (length content)) (p ++ [b2]) (Z.of_nat (length (p ++ [b2])))
      1 ncpus.
Proof.
  intros Hlong Hlen Hnib.
  assert (Hl : forall b : byte, length (p ++ [b]) = S (length p))
    by (intros b; rewrite length_app; simpl; lia).
  replace (Z.of_nat (length (p ++ [b2]))) with (Z.of_nat (length (p ++ [b1])))
    by (rewrite !Hl; reflexivity).
  apply start_bruteforce_sim; [exact SHA1_length |].
  intros w01 w02 i.
  destruct (setup_worker_some SHA1 SHA1_length uninit w01 content
              (Z.of_nat (length content)) (p ++ [b1]) 1 i ncpus
              ltac:(rewrite Hl; lia) ltac:(right; rewrite Hl; lia))
    as (w1 & H1 & _).
  destruct (setup_worker_some SHA1 SHA1_length uninit w02 content
              (Z.of_nat (length content)) (p ++ [b2]) 1 i ncpus
              ltac:(rewrite Hl; lia) ltac:(right; rewrite Hl; lia))
    as (w2 & H2 & _).
  rewrite H1.
  replace (Z.of_nat (length (p ++ [b1]))) with (Z.of_nat (length (p ++ [b2])))
    by (rewrite !Hl; reflexivity).
  rewrite H2. constructor.
  replace (Z.of_nat (length (p ++ [b2]))) with (Z.of_nat (length (p ++ [b1])))
    in H2 by (rewrite !Hl; reflexivity).
  apply (setup_worker_sim _ _ _ _ _ _ _ _ _ _ _ _ _ Hlong H1 H2).
  replace (Z.of_nat (length (p ++ [b1]))) with (Z.of_nat (length (p ++ [b2])))
    in H2 by (rewrite !Hl; reflexivity).
  assert (Hone : (1 : Z) <> 0) by lia.
  assert (Hlt : forall b : byte, Z.of_nat (length (p ++ [b])) < 2 ^ 64)
    by (intros b; rewrite Hl; lia).
  destruct (setup_worker_prefix_half _ _ _ _ _ _ _ _ _ Hone (Hlt b1) H1)
    as (l1 & Hl1 & _ & Hhas1 & Hp1 & Hn1 & Hd1).
  destruct (setup_worker_prefix_half _ _ _ _ _ _ _ _ _ Hone (Hlt b2) H2)
    as (l2 & Hl2 & _ & Hhas2 & Hp2 & Hn2 & Hd2).
  assert (Hlast : forall b : byte,
             (p ++ [b]) !! (length (p ++ [b]) - 1)%nat = Some b).
  { intros b. rewrite Hl. replace (S (length p) - 1)%nat with (length p) by lia.
    rewrite lookup_app_r by lia. rewrite Nat.sub_diag. reflexivity. }
  rewrite Hlast in Hl1, Hl2. injection Hl1 as <-. injection Hl2 as <-.
  intros msg. unfold worker_test.
  rewrite Hhas1, Hhas2, Hp1, Hp2, Hn1, Hn2, Hd1, Hd2, Hnib. simpl.
  rewrite !Hl.
  replace (Z.of_nat (S (length p)) - 1) with (Z.of_nat (length p)) by lia.
  apply test_prefix_half_dig_take.
  - rewrite !take_app_length. reflexivity.
  - rewrite Hl. lia.
  - rewrite Hl. lia.
Qed.

End Independence.

Lemma start_bruteforce_ignores_uninitialised_witness :
  Z.of_nat (length sample_commit) <= LONG_MAX
  /\ (length [byte_of 0] <= 20)%nat
  /\ start_bruteforce Sha1.sha1 (fun n => byte_of (Z.of_nat n))
       (fun n => scanned_worker (Z.of_nat n) 1) (fun _ => 4%nat) sample_commit
       (Z.of_nat (length sample_commit)) [byte_of 0]
       (Z.of_nat (length [byte_of 0])) 0 4
     = Some (RArray
               [RString (header 27 ++ sample_commit ++ [LF; LF]
                           ++ nonce_hex 14);
                RString (Sha1.sha1 (header 27 ++ sample_commit ++ [LF; LF]
                                      ++ nonce_hex 14))]).
Proof.
  assert (Hlong : Z.of_nat (length sample_commit) <= LONG_MAX)
    by (vm_compute; discriminate).
  split; [exact Hlong |]. split; [simpl; lia |].
  rewrite (start_bruteforce_ignores_uninitialised Sha1.sha1 sha1_length
             (fun n => byte_of (Z.of_nat n)) stale_bytes
             (fun n => scanned_worker (Z.of_nat n) 1) stale_worker
             (fun _ => 4%nat) sample_commit [byte_of 0] 0 4 Hlong
             ltac:(simpl; lia)).
  exact sample_search_full.
Defined.

Lemma start_bruteforce_ignores_low_nibble_witness :
  Z.of_nat (length sample_commit) <= LONG_MAX
  /\ (length (@nil byte) < 20)%nat
  /\ Z.shiftr (byte_val (byte_of 0xdf)) 4 = Z.shiftr (byte_val (byte_of 0xd0)) 4
  /\ start_bruteforce Sha1.sha1 stale_bytes stale_worker (fun _ => 3%nat)
       sample_commit (Z.of_nat (length sample_commit)) ([] ++ [byte_of 0xdf])
       (Z.of_nat (length ([] ++ [byte_of 0xdf]))) 1 1
     = Some (RArray
               [RString (header 27 ++ sample_commit ++ [LF; LF] ++ nonce_hex 2);
                RString (Sha1.sha1 (header 27 ++ sample_commit ++ [LF; LF]
                                      ++ nonce_hex 2))]).
Proof.
  assert (Hlong : Z.of_nat (length sample_commit) <= LONG_MAX)
    by (vm_compute; discriminate).
  split; [exact Hlong |]. split; [simpl; lia |]. split; [reflexivity |].
  rewrite (start_bruteforce_ignores_low_nibble Sha1.sha1 sha1_length
             stale_bytes stale_worker (fun _ => 3%nat) sample_commit []
             (byte_of 0xdf) (byte_of 0xd0) 1 Hlong ltac:(simpl; lia) eq_refl).
  exact sample_search_half.
Defined.

(** ** The half-digit loop *)

Lemma test_prefix_half_dig_decides (pfx sha : list byte) (n : nat) (half : Z) :
  (n <= length pfx)%nat -> (n < length sha)%nat ->
  exists r : bool,
    test_prefix_half_dig pfx (Z.of_nat n) half sha = Some r
    /\ (r = true <-> has_half_prefix pfx n half sha).
Proof.
  intros Hp Hs.
  destruct (test_prefix_half_dig_in_bounds pfx sha n half Hp Hs) as [r Hr].
  exists r. split; [exact Hr |]. split.
  - intros ->. apply test_prefix_half_dig_true in Hr. exact Hr.
  - intros [Htake (b & Hb & Hnib)]. revert Hr.
    unfold test_prefix_half_dig, memcmp_n, read.
    replace (Z.of_nat n <=? Z.of_nat (length sha)) with true
      by (symmetry; apply Z.leb_le; lia).
    replace (Z.of_nat n <=? Z.of_nat (length pfx)) with true
      by (symmetry; apply Z.leb_le; lia).
    replace (0 <=? Z.of_nat n) with true by (symmetry; apply Z.leb_le; lia).
    replace (Z.of_nat n <? Z.of_nat (length sha)) with true
      by (symmetry; apply Z.ltb_lt; lia).
    cbn [andb]. rewrite Nat2Z.id, Hb.
    rewrite (memcmp_take_eq sha pfx n ltac:(lia) Hp Htake).
    destruct (Z.of_nat n =? 0); simpl; rewrite Hnib, Z.eqb_refl;
      intros H; injection H as <-; reflexivity.
Qed.

Section HalfLoopReturns.

Variable SHA1 : list byte -> list byte.
Hypothesis SHA1_length : forall msg, length (SHA1 msg) = 20%nat.

(** X14: for [n < 20] full bytes, [bruteforce_loop_with_half_dig] returns
    exactly when one of the iterations it is given computes a digest with
    the first [n] bytes of the prefix and, in the high four bits of its
    byte [n], the half digit; it returns in the first such iteration, with
    that iteration's nonce in the block and its digest in [output_sha]. *)
Theorem bruteforce_loop_with_half_dig_returns_first_match (fuel : nat)
  (out buff : list byte) (len off : Z) (pfx : list byte) (n : nat)
  (c step half : Z) (b o : list byte) :
  (n < 20)%nat -> (n <= length pfx)%nat ->
  bruteforce_loop_with_half_dig SHA1 fuel out buff len off pfx (Z.of_nat n) c
    step half = Matched b o
  <-> exists k : nat,
        (k < fuel)%nat
        /\ has_half_prefix pfx n half (digest_at SHA1 buff len off step c k)
        /\ (forall j : nat, (j < k)%nat ->
               ~ has_half_prefix pfx n half
                   (digest_at SHA1 buff len off step c j))
        /\ b = write_counter_hex buff off (counter_at step c k)
        /\ o = memcpy out (digest_at SHA1 buff len off step c k) 20.
Proof.
  intros Hn Hp. rewrite bruteforce_loop_with_half_dig_search_loop.
  set (accepts := fun sha =>
         match test_prefix_half_dig pfx (Z.of_nat n) half sha with
         | Some r => r
         | None => false
         end).
  assert (Hacc : forall msg,
             accepts (SHA1 msg) = true
             <-> has_half_prefix pfx n half (SHA1 msg)).
  { intros msg. unfold accepts.
    destruct (test_prefix_half_dig_decides pfx (SHA1 msg) n half Hp
                ltac:(rewrite SHA1_length; lia)) as (r & -> & Hr).
    exact Hr. }
  rewrite (search_loop_matched_iff SHA1
             (test_prefix_half_dig pfx (Z.of_nat n) half) accepts).
  2: { intros msg. unfold accepts.
       destruct (test_prefix_half_dig_decides pfx (SHA1 msg) n half Hp
                   ltac:(rewrite SHA1_length; lia)) as (r & -> & _).
       reflexivity. }
  assert (Hat : forall j,
             accepts (digest_at SHA1 buff len off step c j) = true
             <-> has_half_prefix pfx n half
                   (digest_at SHA1 buff len off step c j))
    by (intros j; apply Hacc).
  split; intros (k & Hk & Hyes & Hfirst & Hb & Ho); exists k;
    (split; [exact Hk | split; [| split; [| split; assumption]]]).
  - apply Hat. exact Hyes.
  - intros j Hj Hhas. pose proof (proj2 (Hat j) Hhas) as E.
    rewrite (Hfirst j Hj) in E. discriminate.
  - apply Hat. exact Hyes.
  - intros j Hj.
    destruct (accepts (digest_at SHA1 buff len off step c j)) eqn:E;
      [| reflexivity].
    exfalso. apply (Hfirst j Hj). apply Hat. exact E.
Qed.

End HalfLoopReturns.

Lemma bruteforce_loop_with_half_dig_returns_first_match_witness :
  (0 < 20)%nat /\ (0 <= length [byte_of 0xd0])%nat
  /\ exists k : nat,
       (k < 5)%nat
       /\ has_half_prefix [byte_of 0xd0] 0 13
            (digest_at Sha1.sha1
               (header 27 ++ sample_commit ++ [LF; LF] ++ replicate 17 NUL)
               37 21 1 0 k)
       /\ k = 2%nat.
Proof.
  split; [lia |]. split; [simpl; lia |].
  assert (Hrun :
    bruteforce_loop_with_half_dig Sha1.sha1 5 (replicate 20 NUL)
      (header 27 ++ sample_commit ++ [LF; LF] ++ replicate 17 NUL) 37 21
      [byte_of 0xd0] (Z.of_nat 0) 0 1 13
    = Matched (header 27 ++ sample_commit ++ [LF; LF] ++ nonce_hex 2 ++ [NUL])
        (Sha1.sha1 (header 27 ++ sample_commit ++ [LF; LF] ++ nonce_hex 2)))
    by (vm_compute; reflexivity).
  apply (bruteforce_loop_with_half_dig_returns_first_match Sha1.sha1
           sha1_length) in Hrun; [| lia | simpl; lia].
  destruct Hrun as (k & Hk & Hhas & _ & Hb & _).
  exists k. split; [exact Hk |]. split; [exact Hhas |].
  destruct k as [| [| [| [| [| k]]]]]; try lia; try reflexivity;
    vm_compute in Hb; discriminate.
Defined.

(** ** Errors of the entry point, and what passes it *)

Section EntryErrors.

Variable SHA1 : list byte -> list byte.
Hypothesis SHA1_length : forall msg, length (SHA1 msg) = 20%nat.
Variable uninit : nat -> byte.
Variable uninit_worker : nat -> worker_t.
Variable FIX2INT : Z -> exception + Z.

(** X12: the checks of [bruteforce] are made in order and the first that
    fails decides the exception: a value that is not a string gives the
    [TypeError] about strings whatever [ncpus] is; then an [ncpus] that is
    not a fixnum gives its [TypeError]; then an exception of [FIX2INT] is
    passed on; then an [int <= 0] gives a [TypeError] (not an
    [ArgumentError]), even when the prefix is too long as well; only then
    does a prefix of more than 20 bytes give the [ArgumentError]. *)
Theorem bruteforce_first_failed_check sched
  (commit_data sha_prefix flag ncpus : VALUE) :
  let call :=
    bruteforce SHA1 uninit uninit_worker FIX2INT sched commit_data sha_prefix
      flag ncpus in
  (TYPE commit_data <> T_STRING \/ TYPE sha_prefix <> T_STRING ->
   call = inl (TypeError "expected commit_data, sha_prefix to be strings"))
  /\ (TYPE commit_data = T_STRING -> TYPE sha_prefix = T_STRING ->
      TYPE ncpus <> T_FIXNUM ->
      call = inl (TypeError "expected ncpus to be a fixnum"))
  /\ (forall n e,
         TYPE commit_data = T_STRING -> TYPE sha_prefix = T_STRING ->
         ncpus = Fixnum n -> FIX2INT n = inl e -> call = inl e)
  /\ (forall n k,
         TYPE commit_data = T_STRING -> TYPE sha_prefix = T_STRING ->
         ncpus = Fixnum n -> FIX2INT n = inr k -> k <= 0 ->
         call = inl (TypeError "expected ncpus to be > 0"))
  /\ (forall n k pre,
         TYPE commit_data = T_STRING -> sha_prefix = RString pre ->
         ncpus = Fixnum n -> FIX2INT n = inr k -> 0 < k ->
         (20 < length pre)%nat ->
         call = inl (ArgError "expected sha_prefix to be at most 20 bytes long")).
Proof.
  intros call. unfold call. split; [| split; [| split; [| split]]].
  - intros [H | H].
    + destruct commit_data; try reflexivity. contradiction.
    + destruct commit_data; try reflexivity.
      destruct sha_prefix; try reflexivity. contradiction.
  - intros Hc Hp Hn.
    destruct commit_data; try discriminate.
    destruct sha_prefix; try discriminate.
    destruct ncpus; try reflexivity. contradiction.
  - intros n e Hc Hp -> He.
    destruct commit_data; try discriminate.
    destruct sha_prefix; try discriminate.
    unfold bruteforce. rewrite He. reflexivity.
  - intros n k Hc Hp -> Hk Hle.
    destruct commit_data; try discriminate.
    destruct sha_prefix; try discriminate.
    unfold bruteforce. rewrite Hk.
    apply Z.leb_le in Hle. rewrite Hle. reflexivity.
  - intros n k pre Hc -> -> Hk Hpos Hlen.
    destruct commit_data; try discriminate.
    unfold bruteforce. rewrite Hk.
    replace (k <=? 0) with false by (symmetry; apply Z.leb_gt; lia).
    replace (Z.of_nat (length pre) >? 20) with true
      by (symmetry; apply Z.gtb_lt; lia).
    reflexivity.
Qed.

(** X13: a call that passes the checks of [bruteforce] has a defined
    search, for every schedule of the threads, unless the half-digit flag
    is true (neither [nil] nor [false]) and the prefix is the empty
    string. *)
Theorem bruteforce_passed_is_defined sched
  (commit_data sha_prefix flag ncpus : VALUE) (r : option VALUE) :
  bruteforce SHA1 uninit uninit_worker FIX2INT sched commit_data sha_prefix
    flag ncpus = inr r ->
  (r = None <-> RTEST flag = 1 /\ sha_prefix = RString []).
Proof.
  unfold bruteforce.
  destruct commit_data as [| | | | | | data |]; try discriminate.
  destruct sha_prefix as [| | | | | | pre |]; try discriminate.
  destruct ncpus as [| | | n | | | |]; try discriminate.
  destruct (FIX2INT n) as [e | k]; [discriminate |].
  destruct (k <=? 0) eqn:Ek; [discriminate |]. apply Z.leb_gt in Ek.
  destruct (Z.of_nat (length pre) >? 20) eqn:El; [discriminate |].
  assert (Hlen : (length pre <= 20)%nat).
  { destruct (le_lt_dec (length pre) 20) as [H | H]; [exact H |].
    assert ((Z.of_nat (length pre) >? 20) = true) by (apply Z.gtb_lt; lia).
    congruence. }
  intros H. injection H as <-.
  assert (Hflag : RTEST flag = 0 \/ RTEST flag = 1)
    by (destruct flag; simpl; auto).
  split.
  - intros Hnone.
    destruct Hflag as [H0 | H1].
    + exfalso. rewrite H0 in Hnone. revert Hnone. unfold start_bruteforce.
      destruct (setup_workers_some SHA1 SHA1_length uninit uninit_worker
                  (Z.to_nat k) 0 data (Z.of_nat (length data)) pre 0 k Hlen
                  (or_introl eq_refl)) as (ws & -> & Hws).
      simpl. destruct (run_threads_some SHA1 sched 0 ws) as (ws' & -> & _).
      { eapply Forall_impl; [exact Hws |]. intros w [_ Hw]. exact Hw. }
      discriminate.
    + split; [exact H1 |]. destruct pre as [| b pre]; [reflexivity | exfalso].
      rewrite H1 in Hnone. revert Hnone. unfold start_bruteforce.
      destruct (setup_workers_some SHA1 SHA1_length uninit uninit_worker
                  (Z.to_nat k) 0 data (Z.of_nat (length data)) (b :: pre) 1 k
                  Hlen ltac:(right; simpl; lia)) as (ws & -> & Hws).
      simpl. destruct (run_threads_some SHA1 sched 0 ws) as (ws' & -> & _).
      { eapply Forall_impl; [exact Hws |]. intros w [_ Hw]. exact Hw. }
      discriminate.
  - intros [H1 Hpre]. injection Hpre as ->. rewrite H1.
    unfold start_bruteforce.
    destruct (Z.to_nat k) as [| m] eqn:E; [lia |]. reflexivity.
Qed.

End EntryErrors.

Lemma bruteforce_passed_is_defined_witness :
  bruteforce Sha1.sha1 stale_bytes stale_worker rb_fix2int (fun _ => 3%nat)
    (RString sample_commit) (RString []) (Fixnum 0) (Fixnum 2) = inr None
  /\ RTEST (Fixnum 0) = 1.
Proof.
  assert (Hcall :
    bruteforce Sha1.sha1 stale_bytes stale_worker rb_fix2int (fun _ => 3%nat)
      (RString sample_commit) (RString []) (Fixnum 0) (Fixnum 2) = inr None)
    by reflexivity.
  split; [exact Hcall |].
  apply (proj1 (bruteforce_passed_is_defined Sha1.sha1 sha1_length stale_bytes
                  stale_worker rb_fix2int (fun _ => 3%nat)
                  (RString sample_commit) (RString []) (Fixnum 0) (Fixnum 2)
                  None Hcall) eq_refl).
Defined.

(** ** The block and its last byte *)

Section Block.

Variable uninit : nat -> byte.

(** From the nonce on, [setup_worker] leaves the block as [malloc] gave
    it. *)
Lemma setup_worker_tail w0 (content pfx : list byte)
  (plen has_half_dig i ncpus : Z) w (j : nat) :
  Z.of_nat (length content) <= LONG_MAX ->
  setup_worker uninit w0 content (Z.of_nat (length content)) pfx plen
    has_half_dig i ncpus = Some w ->
  (Z.to_nat (counter_offset w) <= j)%nat ->
  scratch_buff w !! j = malloc uninit (scratch_len w + 1) !! j.
Proof.
  intros Hlong Hsetup Hj.
  pose proof (header_len_bounds (Z.of_nat (length content) + 18)) as Hh.
  destruct (setup_worker_spec _ _ _ _ _ _ _ _ _ Hlong Hsetup)
    as (Hsl & Hoff & _).
  cbv zeta in Hsl, Hoff. rewrite Hoff in Hj. rewrite Hsl.
  unfold LONG_MAX in Hlong.
  unfold setup_worker in Hsetup. cbv zeta in Hsetup.
  replace (Z.of_nat (length content) + 2 + 16)
    with (Z.of_nat (length content) + 18) in Hsetup by lia.
  set (dl := Z.of_nat (length content) + 18) in *.
  rewrite (to_size_t_small dl) in Hsetup by (unfold dl; lia).
  rewrite (to_size_t_small (header_len dl + dl)),
    (to_size_t_small (header_len dl + dl + 1)),
    (to_size_t_small (header_len dl + Z.of_nat (length content))),
    (to_size_t_small (header_len dl + Z.of_nat (length content) + 1))
    in Hsetup by (unfold dl in *; lia).
  assert (Hbuf :
    scratch_buff w
    = <[Z.to_nat (header_len dl + Z.of_nat (length content) + 1) := LF]>
        (<[Z.to_nat (header_len dl + Z.of_nat (length content)) := LF]>
           (memcpy_at
              (list_inserts 0 (sprintf_commit dl ++ [NUL])
                 (malloc uninit (header_len dl + dl + 1)))
              (header_len dl) content (Z.of_nat (length content))))).
  { destruct (has_half_dig =? 0).
    - injection Hsetup as <-. reflexivity.
    - destruct (read pfx _); [| discriminate].
      injection Hsetup as <-. reflexivity. }
  rewrite Hbuf. unfold memcpy_at.
  rewrite !list_lookup_insert_ne by lia.
  rewrite list_lookup_inserts_ge
    by (rewrite length_take, Nat2Z.id; lia).
  rewrite list_lookup_inserts_ge; [reflexivity |].
  fold (header dl). pose proof (length_header dl). lia.
Qed.

(** X15: the block of a worker has [scratch_len + 1] bytes; the nonce
    takes the last 16 of the [scratch_len] bytes that are hashed, so every
    store of [setup_worker] and of [write_counter_hex] falls inside the
    block; and the last byte of the block is never written: after any
    counter has been stored it still holds what [malloc] left there. *)
Theorem scratch_block_last_byte_untouched w0 (content pfx : list byte)
  (plen has_half_dig i ncpus : Z) w (c : Z) :
  Z.of_nat (length content) <= LONG_MAX ->
  setup_worker uninit w0 content (Z.of_nat (length content)) pfx plen
    has_half_dig i ncpus = Some w ->
  Z.of_nat (length (scratch_buff w)) = scratch_len w + 1
  /\ 0 <= counter_offset w
  /\ counter_offset w + 16 = scratch_len w
  /\ write_counter_hex (scratch_buff w) (counter_offset w) c
       !! Z.to_nat (scratch_len w)
     = Some (uninit (Z.to_nat (scratch_len w))).
Proof.
  intros Hlong Hsetup.
  destruct (setup_worker_nonce_in_bounds uninit _ _ _ _ _ _ _ _ Hlong Hsetup)
    as (Hoff & Hend & Hlt).
  destruct (setup_worker_spec _ _ _ _ _ _ _ _ _ Hlong Hsetup)
    as (_ & _ & Hlen & _).
  split; [exact Hlen | split; [exact Hoff | split; [exact Hend |]]].
  rewrite <- (Z2Nat.id (counter_offset w)) at 1 by exact Hoff.
  rewrite lookup_write_counter_hex.
  destruct (decide _) as [[H1 H2] | _]; [lia |].
  rewrite (setup_worker_tail _ _ _ _ _ _ _ _ _ Hlong Hsetup) by lia.
  unfold malloc. rewrite list_lookup_fmap, lookup_seq_lt by lia.
  reflexivity.
Qed.

End Block.

Lemma scratch_block_last_byte_untouched_witness :
  Z.of_nat (length sample_commit) <= LONG_MAX
  /\ exists w,
       setup_worker stale_bytes (stale_worker 0%nat) sample_commit
         (Z.of_nat (length sample_commit)) [byte_of 0] 1 0 2 4 = Some w
       /\ Z.of_nat (length (scratch_buff w)) = 38
       /\ write_counter_hex (scratch_buff w) (counter_offset w) 14 !! 37%nat
          = Some "x"%char.
Proof.
  assert (Hlong : Z.of_nat (length sample_commit) <= LONG_MAX)
    by (vm_compute; discriminate).
  split; [exact Hlong |].
  destruct (setup_worker stale_bytes (stale_worker 0%nat) sample_commit
              (Z.of_nat (length sample_commit)) [byte_of 0] 1 0 2 4)
    as [w |] eqn:Hsetup; [| vm_compute in Hsetup; discriminate].
  destruct (scratch_block_last_byte_untouched stale_bytes _ _ _ _ _ _ _ w 14
              Hlong Hsetup) as (Hlen & _ & _ & Hlast).
  assert (Hsl : scratch_len w = 37).
  { revert Hsetup. vm_compute. intros H. injection H as <-. reflexivity. }
  rewrite Hsl in Hlen, Hlast.
  exists w. split; [reflexivity |]. split; [exact Hlen | exact Hlast].
Defined.

(** ** Counters once they wrap around *)

Section WrappedCounters.

Variable SHA1 : list byte -> list byte.
Variable uninit : nat -> byte.

(** X16: when the number of workers divides [2^64] (a power of two up to
    [2^30]), wrapping around does not mix the workers' counters.  For the
    worker [setup_worker] builds for index [i], the counter of every
    iteration, however late, leaves the remainder [i]: so does the counter
    either loop, entered with the worker's counter and stride, is about to
    test, and the counter whose nonce the thread leaves in the block.  Two
    workers with different indexes never test the same counter. *)
Theorem worker_counters_residue_power_of_two (W : Z) :
  1 <= W -> 2 ^ 64 mod W = 0 ->
  (forall (w0 : worker_t) (commit_data : list byte) (commit_data_len : Z)
          (pfx : list byte) (plen half i : Z) (w : worker_t),
      0 <= i < W ->
      setup_worker uninit w0 commit_data commit_data_len pfx plen half i W
      = Some w ->
      (forall k : nat, counter_at (stride w) (counter w) k mod W = i)
      /\ (forall fuel : nat,
             match bruteforce_loop SHA1 fuel (sha w) (scratch_buff w)
                     (scratch_len w) (counter_offset w) (prefix w)
                     (prefix_len w) (counter w) (stride w) with
             | Spinning _ c' => c' mod W = i
             | _ => True
             end)
      /\ (forall fuel : nat,
             match bruteforce_loop_with_half_dig SHA1 fuel (sha w)
                     (scratch_buff w) (scratch_len w) (counter_offset w)
                     (prefix w) (prefix_len w) (counter w) (stride w)
                     (prefix_half_dig w) with
             | Spinning _ c' => c' mod W = i
             | _ => True
             end)
      /\ (forall (fuel : nat) (w' : worker_t),
             worker_thread_main SHA1 (S fuel) (clear_complete w) = Some w' ->
             exists c : Z,
               c mod W = i
               /\ scratch_buff w'
                  = write_counter_hex (scratch_buff w) (counter_offset w) c))
  /\ (forall (w0 w0' : worker_t) (commit_data commit_data' : list byte)
             (commit_data_len commit_data_len' : Z) (pfx pfx' : list byte)
             (plen plen' half half' i j : Z) (w w' : worker_t)
             (k1 k2 : nat),
         0 <= i < W -> 0 <= j < W ->
         setup_worker uninit w0 commit_data commit_data_len pfx plen half i W
         = Some w ->
         setup_worker uninit w0' commit_data' commit_data_len' pfx' plen'
           half' j W = Some w' ->
         counter_at (stride w) (counter w) k1
         = counter_at (stride w') (counter w') k2 ->
         i = j).
Proof.
  intros HW Hdiv.
  assert (HWmax : W <= 2 ^ 64).
  { apply Z.mod_divide in Hdiv; [| lia].
    apply Z.divide_pos_le in Hdiv; lia. }
  assert (Hres : forall w0 commit_data commit_data_len pfx plen half i w,
             0 <= i < W ->
             setup_worker uninit w0 commit_data commit_data_len pfx plen half
               i W = Some w ->
             forall k : nat, counter_at (stride w) (counter w) k mod W = i).
  { intros w0 commit_data commit_data_len pfx plen half i w Hi Hsetup k.
    destruct (setup_worker_counter_stride _ _ _ _ _ _ _ _ _ _ Hsetup)
      as [Hc Hs].
    rewrite Hc, Hs.
    rewrite counter_at_closed
      by (unfold to_size_t; apply Z.mod_pos_bound; lia).
    unfold to_size_t. rewrite Zplus_mod_idemp_l.
    rewrite Z.mod_mod_divide by (apply Z.mod_divide; [lia | exact Hdiv]).
    rewrite Z.mod_add by lia. apply Z.mod_small. exact Hi. }
  split.
  - intros w0 commit_data commit_data_len pfx plen half i w Hi Hsetup.
    pose proof (Hres _ _ _ _ _ _ _ _ Hi Hsetup) as Hk.
    split; [exact Hk | split; [| split]].
    + intros fuel.
      pose proof (bruteforce_loop_counter SHA1 fuel (sha w) (scratch_buff w)
                    (scratch_len w) (counter_offset w) (prefix w)
                    (prefix_len w) (counter w) (stride w)) as H.
      destruct (bruteforce_loop _ _ _ _ _ _ _ _ _ _); [exact I | | exact I].
      rewrite H. apply Hk.
    + intros fuel.
      pose proof (bruteforce_loop_with_half_dig_counter SHA1 fuel (sha w)
                    (scratch_buff w) (scratch_len w) (counter_offset w)
                    (prefix w) (prefix_len w) (counter w) (stride w)
                    (prefix_half_dig w)) as H.
      destruct (bruteforce_loop_with_half_dig _ _ _ _ _ _ _ _ _ _ _);
        [exact I | | exact I].
      rewrite H. apply Hk.
    + intros fuel w' Hmain.
      destruct (worker_thread_main_last_counter SHA1 fuel _ _ Hmain)
        as (k & _ & Hb & _).
      cbn [clear_complete scratch_buff counter_offset stride counter] in Hb.
      exists (counter_at (stride w) (counter w) k).
      split; [apply Hk | exact Hb].
  - intros w0 w0' commit_data commit_data' commit_data_len commit_data_len'
      pfx pfx' plen plen' half half' i j w w' k1 k2 Hi Hj Hsetup Hsetup' Heq.
    rewrite <- (Hres _ _ _ _ _ _ _ _ Hi Hsetup k1).
    rewrite <- (Hres _ _ _ _ _ _ _ _ Hj Hsetup' k2).
    rewrite Heq. reflexivity.
Qed.

End WrappedCounters.

(** Worker 3 of four on the sample commit, [2^62] iterations on: its
    counter has wrapped around and still leaves the remainder 3. *)
Lemma worker_counters_residue_power_of_two_witness :
  1 <= 4 /\ 2 ^ 64 mod 4 = 0
  /\ exists w : worker_t,
       setup_worker stale_bytes (stale_worker 3%nat) sample_commit
         (Z.of_nat (length sample_commit)) [byte_of 0] 1 0 3 4 = Some w
       /\ counter_at (stride w) (counter w) (Z.to_nat 4611686018427387904)
          mod 4 = 3.
Proof.
  split; [lia |]. split; [reflexivity |].
  eassert (Hsetup : setup_worker stale_bytes (stale_worker 3%nat)
                      sample_commit (Z.of_nat (length sample_commit))
                      [byte_of 0] 1 0 3 4 = Some _)
    by (vm_compute; reflexivity).
  destruct (worker_counters_residue_power_of_two Sha1.sha1 stale_bytes 4
              ltac:(lia) eq_refl)
    as [Hworker _].
  destruct (Hworker _ _ _ _ _ _ 3 _ ltac:(lia) Hsetup) as [Hk _].
  eexists. split; [exact Hsetup | apply Hk].
Defined.
